(** * Emotion-MVP inference pipeline: a shallow embedding and its properties

    The development follows the Python sources of the [emotion_mvp] package:

    - [emotion_tiers.py]   label vocabularies of the three tiers;
    - [classifier.py]      the two remote classifier adapters;
    - [api/plan_gate.py]   the plan policy table and [enforce];
    - [pipeline.py]        [predict_any] and its helpers;
    - [history.py]         the history log.

    Python values are modelled as follows.  A [str] is a [string] of 8-bit
    characters; the character classes of [str.strip], [str.lower],
    [str.splitlines] and of the regular expressions are the ones Python
    uses on ASCII text, characters above 127 are ordinary caseless
    non-space characters.  A [dict] is a [gmap]; a function that may raise
    returns a sum whose left side is the exception; code with effects
    threads a world.  A finite [float] is the rational it denotes:
    comparing and printing floats is exact on it; the sums of
    [_parse_timestr] and of the trim offset are taken without rounding.

    Remote services, media tools, the language detector, the translator
    and the clock are collaborators: functions on an abstract state [E]
    that the statements quantify over.  Of the records sent to the logger
    only the two that depend on the request are kept (the start record and
    the fallback warning); directories are not modelled, so [mkdir] has no
    counterpart. *)

From Stdlib Require Import ZArith QArith Qabs List String Ascii Bool Lia.
From Stdlib Require Import DecimalString.
From stdpp Require Import base option list gmap strings.

Import ListNotations.
Local Open Scope Z_scope.

(** ** Python strings *)

Module PyStr.

Definition code (c : ascii) : Z := Z.of_N (N_of_ascii c).

Definition chr (z : Z) : ascii := ascii_of_N (Z.to_N z).

(** [str.isspace] on one ASCII character: TAB, LF, VT, FF, CR, the four
    separators FS GS RS US, and the space. *)
Definition isspace (c : ascii) : bool :=
  let n := code c in
  ((9 <=? n) && (n <=? 13)) || ((28 <=? n) && (n <=? 32)).

Definition isupper (c : ascii) : bool :=
  let n := code c in (65 <=? n) && (n <=? 90).

Definition islower (c : ascii) : bool :=
  let n := code c in (97 <=? n) && (n <=? 122).

Definition isdigit (c : ascii) : bool :=
  let n := code c in (48 <=? n) && (n <=? 57).

Definition isalpha (c : ascii) : bool := isupper c || islower c.

Definition lower_char (c : ascii) : ascii :=
  if isupper c then chr (code c + 32) else c.

Definition upper_char (c : ascii) : ascii :=
  if islower c then chr (code c - 32) else c.

Fixpoint lower (s : string) : string :=
  match s with
  | EmptyString => EmptyString
  | String c s' => String (lower_char c) (lower s')
  end.

(** [str.capitalize]: first character upper-cased, the rest lower-cased. *)
Definition capitalize (s : string) : string :=
  match s with
  | EmptyString => EmptyString
  | String c s' => String (upper_char c) (lower s')
  end.

Fixpoint lstrip (s : string) : string :=
  match s with
  | String c s' => if isspace c then lstrip s' else s
  | EmptyString => EmptyString
  end.

Definition rev (s : string) : string :=
  string_of_list_ascii (List.rev (list_ascii_of_string s)).

Definition rstrip (s : string) : string := rev (lstrip (rev s)).

Definition strip (s : string) : string := rstrip (lstrip s).

Definition is_empty (s : string) : bool :=
  match s with EmptyString => true | _ => false end.

Fixpoint startswith (p s : string) : bool :=
  match p, s with
  | EmptyString, _ => true
  | String a p', String b s' => Ascii.eqb a b && startswith p' s'
  | String _ _, EmptyString => false
  end.

Fixpoint drop (n : nat) (s : string) : string :=
  match n, s with
  | O, _ => s
  | S n', String _ s' => drop n' s'
  | S _, EmptyString => EmptyString
  end.

Fixpoint take (n : nat) (s : string) : string :=
  match n, s with
  | O, _ => EmptyString
  | S n', String c s' => String c (take n' s')
  | S _, EmptyString => EmptyString
  end.

Definition last_char (s : string) : option ascii :=
  match rev s with
  | String c _ => Some c
  | EmptyString => None
  end.

(** [s.rfind(c)] as an option: the index of the last occurrence. *)
Fixpoint rfind_from (c : ascii) (s : string) (i : nat) (acc : option nat) : option nat :=
  match s with
  | EmptyString => acc
  | String a s' => rfind_from c s' (S i) (if Ascii.eqb a c then Some i else acc)
  end.

Definition rfind (c : ascii) (s : string) : option nat := rfind_from c s 0%nat None.

(** [s.split(c)] for a one-character separator; always at least one piece. *)
Fixpoint split_go (c : ascii) (s : string) (cur : string) : list string :=
  match s with
  | EmptyString => [rev cur]
  | String a s' =>
      if Ascii.eqb a c then rev cur :: split_go c s' EmptyString
      else split_go c s' (String a cur)
  end.

Definition split (c : ascii) (s : string) : list string := split_go c s EmptyString.

(** [s.split(c, 1)]: the text before the first [c] and, when [c] occurs,
    the text after it. *)
Fixpoint partition_go (c : ascii) (s : string) (cur : string) : string * option string :=
  match s with
  | EmptyString => (rev cur, None)
  | String a s' =>
      if Ascii.eqb a c then (rev cur, Some s')
      else partition_go c s' (String a cur)
  end.

Definition partition (c : ascii) (s : string) : string * option string :=
  partition_go c s EmptyString.

(** Line boundaries of [str.splitlines] in the ASCII range: LF, CR, CRLF,
    VT, FF, FS, GS, RS. *)
Definition is_linebreak (c : ascii) : bool :=
  let n := code c in
  ((10 <=? n) && (n <=? 13)) || ((28 <=? n) && (n <=? 30)).

Fixpoint splitlines_go (s : string) (cur : string) : list string :=
  match s with
  | EmptyString => if is_empty cur then [] else [rev cur]
  | String a s' =>
      if is_linebreak a then
        match s' with
        | String b s'' =>
            if (code a =? 13) && (code b =? 10)
            then rev cur :: splitlines_go s'' EmptyString
            else rev cur :: splitlines_go s' EmptyString
        | EmptyString => [rev cur]
        end
      else splitlines_go s' (String a cur)
  end.

Definition splitlines (s : string) : list string := splitlines_go s EmptyString.

(** Universal-newline translation done by a text-mode read: CRLF and a lone
    CR become LF. *)
Fixpoint translate_newlines (s : string) : string :=
  match s with
  | EmptyString => EmptyString
  | String a s' =>
      if code a =? 13 then
        match s' with
        | String b s'' =>
            if code b =? 10 then String b (translate_newlines s'')
            else String (chr 10) (translate_newlines s')
        | EmptyString => String (chr 10) EmptyString
        end
      else String a (translate_newlines s')
  end.

(** Lines as a file opened with [newline=''] yields them: split after LF,
    CR or CRLF, the terminator kept. *)
Fixpoint filelines_go (s : string) (cur : string) : list string :=
  match s with
  | EmptyString => if is_empty cur then [] else [rev cur]
  | String a s' =>
      if code a =? 10 then rev (String a cur) :: filelines_go s' EmptyString
      else if code a =? 13 then
        match s' with
        | String b s'' =>
            if code b =? 10
            then rev (String b (String a cur)) :: filelines_go s'' EmptyString
            else rev (String a cur) :: filelines_go s' EmptyString
        | EmptyString => [rev (String a cur)]
        end
      else filelines_go s' (String a cur)
  end.

Definition filelines (s : string) : list string := filelines_go s EmptyString.

Fixpoint map_chars (f : ascii -> ascii) (s : string) : string :=
  match s with
  | EmptyString => EmptyString
  | String c s' => String (f c) (map_chars f s')
  end.

Fixpoint forallb_chars (f : ascii -> bool) (s : string) : bool :=
  match s with
  | EmptyString => true
  | String c s' => f c && forallb_chars f s'
  end.

Definition py_in (x : string) (l : list string) : bool :=
  existsb (String.eqb x) l.

(** Decimal rendering of a natural number, left-padded with zeros to
    [width] digits (the format specs [{n}], [{n:02}], [{n:03}]). *)
Definition str_of_N (n : N) : string := NilZero.string_of_uint (N.to_uint n).

Fixpoint zeros (k : nat) : string :=
  match k with O => EmptyString | S k' => String "0" (zeros k') end.

Definition zero_pad (width : nat) (n : N) : string :=
  let s := str_of_N n in
  zeros (width - String.length s) +:+ s.

(** Case-insensitive literal prefix: what is left of [s] after [p]. *)
Fixpoint ci_prefix (p s : string) : option string :=
  match p, s with
  | EmptyString, _ => Some s
  | String a p', String b s' =>
      if Ascii.eqb (lower_char a) (lower_char b) then ci_prefix p' s' else None
  | String _ _, EmptyString => None
  end.

Fixpoint take_while (f : ascii -> bool) (s : string) : string :=
  match s with
  | String c s' => if f c then String c (take_while f s') else EmptyString
  | EmptyString => EmptyString
  end.

(** The pattern [kw\s*([a-z]+)] with [re.IGNORECASE], anchored at the start
    of [s]: group 1 when it matches.  The greedy [\s*] takes every space
    and [[a-z]+] the longest run of letters; backtracking cannot help,
    because a space is never a letter. *)
Definition match_label_at (kw s : string) : option string :=
  match ci_prefix kw s with
  | Some rest =>
      let w := take_while isalpha (lstrip rest) in
      if is_empty w then None else Some w
  | None => None
  end.

(** [re.search]: the leftmost position where the pattern matches. *)
Fixpoint search_label (kw s : string) : option string :=
  match match_label_at kw s with
  | Some w => Some w
  | None =>
      match s with
      | EmptyString => None
      | String _ s' => search_label kw s'
      end
  end.

End PyStr.

(** ** Exceptions and effects *)

(** The exceptions the modelled code raises or lets through.  [External]
    stands for whatever a collaborator outside the model raises. *)
Inductive Exn : Type :=
| RuntimeError (msg : string)
| KeyError (key : string)
| TypeError
| AttributeError
| ValueError
| IndexError
| JSONDecodeError
| HTTPError (status : Z)
| FileNotFoundError (path : string)
| HTTPException (status_code : Z) (detail : string)
| External (msg : string).

(** A computation over the state [E] of the outside world that returns a
    value or raises. *)
Definition M (E A : Type) : Type := E -> (Exn + A) * E.

Definition ret {E A} (a : A) : M E A := fun e => (inr a, e).

Definition raise {E A} (x : Exn) : M E A := fun e => (inl x, e).

Definition bind {E A B} (c : M E A) (k : A -> M E B) : M E B :=
  fun e =>
    match c e with
    | (inr a, e') => k a e'
    | (inl x, e') => (inl x, e')
    end.

(** [try: c  except Exception as x: h x] *)
Definition try_except {E A} (c : M E A) (h : Exn -> M E A) : M E A :=
  fun e =>
    match c e with
    | (inr a, e') => (inr a, e')
    | (inl x, e') => h x e'
    end.

(** A pure step that may raise. *)
Definition lift_res {E A} (r : Exn + A) : M E A := fun e => (r, e).

(** A step of the outside world that cannot raise. *)
Definition lift_total {E A} (f : E -> A * E) : M E A :=
  fun e => let (a, e') := f e in (inr a, e').

Declare Scope eff_scope.
Delimit Scope eff_scope with eff.
Notation "'let*' x ':=' c 'in' k" := (bind c (fun x => k))
  (at level 10, x pattern, c at level 100, k at level 200) : eff_scope.

(** Pure fallible code: [Exn + A] with its own bind. *)
Definition rbind {A B} (r : Exn + A) (k : A -> Exn + B) : Exn + B :=
  match r with
  | inr a => k a
  | inl x => inl x
  end.

(** Comparison of two floats, as rationals. *)
Definition Qlt_bool (x y : Q) : bool := negb (Qle_bool y x).

(** ** emotion_tiers.py *)

Module EmotionTiers.

Definition BASIC_LABELS : list string :=
  ["happy"; "sad"; "mad"; "scared"; "surprised"; "disgusted"; "neutral"].

Definition PLUS_LABELS : list string :=
  ["excitement"; "confusion"; "surprise"; "neutral"; "optimism"; "pride";
   "curiosity"; "fear"; "amusement"; "joy"; "desire"; "annoyance";
   "nervousness"; "gratitude"; "approval"; "realization"; "disappointment";
   "caring"; "sadness"; "admiration"; "disapproval"; "anger"; "remorse"].

Definition PRO_LABELS : list string :=
  ["excitement"; "confusion"; "surprise"; "neutral"; "optimism"; "pride";
   "curiosity"; "fear"; "amusement"; "joy"; "desire"; "annoyance";
   "nervousness"; "gratitude"; "approval"; "realization"; "disappointment";
   "caring"; "sadness"; "admiration"; "disapproval"; "anger"; "remorse";
   "relief"; "love"; "disgust"; "embarrassment"].

Definition EMOTION_TIERS : gmap string (list string) :=
  <["basic" := BASIC_LABELS]> (<["plus" := PLUS_LABELS]> (<["pro" := PRO_LABELS]> ∅)).

End EmotionTiers.

(** ** classifier.py *)

(** A decoded JSON document, as [resp.json()] and [json.loads] return it. *)
#[local] Unset Elimination Schemes.
Inductive json : Type :=
| JNull
| JBool (b : bool)
| JInt (z : Z)
| JFloat (q : Q)
| JStr (s : string)
| JList (l : list json)
| JDict (items : list (string * json)).
#[local] Set Elimination Schemes.

Record HttpResponse : Type := {
  status_code : Z;
  body : string;
}.

Module Classifier.

Import PyStr EmotionTiers.

(** What the adapters reach outside the module: configuration read at
    import time, the two HTTP backends (acting on the state [E] of the
    outside world), the JSON and integer parsers of the Python library, and
    the prompt builders of [prompts.py], whose text only the remote model
    reads. *)
Record Env (E : Type) : Type := {
  LLAMA_MODEL_ID : string;
  LLAMA_FALLBACK_MODELS : list string;
  (** one chat-completion round trip for one model name: the content of
      the reply, or [None] when anything in the [try] block raised *)
  llama_post : string -> list (string * string) -> E -> option string * E;
  (** [_BERT_SESSION.post], retries included: a response, or the exception *)
  bert_post : string -> E -> (Exn + HttpResponse) * E;
  json_loads : string -> option json;
  int_of_str : string -> option Z;
  build_prompt : string -> list string -> string -> bool -> string;
  build_review_prompt : string -> string -> string -> list string -> bool -> string;
}.

Arguments LLAMA_MODEL_ID {E}.
Arguments LLAMA_FALLBACK_MODELS {E}.
Arguments llama_post {E}.
Arguments bert_post {E}.
Arguments json_loads {E}.
Arguments int_of_str {E}.
Arguments build_prompt {E}.
Arguments build_review_prompt {E}.

Section Adapters.

Context {E : Type} (env : Env E).

Local Open Scope eff_scope.

Fixpoint _call_llama_models (models : list string) (messages : list (string * string))
    : M E string :=
  match models with
  | [] => raise (RuntimeError "No available Llama models")
  | model_name :: rest =>
      fun e =>
        match llama_post env model_name messages e with
        | (Some content, e') => (inr content, e')
        | (None, e') => _call_llama_models rest messages e'
        end
  end.

Definition _call_llama (messages : list (string * string)) : M E string :=
  _call_llama_models (LLAMA_MODEL_ID env :: LLAMA_FALLBACK_MODELS env) messages.

Definition _extract_emotion (text : string) : string :=
  match search_label "Answer:" text with
  | Some g => lower g
  | None => lower (strip text)
  end.

Definition tier_of (classify_ext do_intensity : bool) : string :=
  if do_intensity then "pro" else if classify_ext then "plus" else "basic".

Definition intensity_mapping : gmap string Q :=
  <["neutral" := 0 # 1]> (<["mild" := 1 # 4]> (<["moderate" := 1 # 2]>
  (<["strong" := 3 # 4]> (<["intense" := 1 # 1]> ∅)))).

(** The intensity part shared by both Llama functions. *)
Definition parse_intensity (do_intensity : bool) (content : string) : option Q :=
  if do_intensity then
    match search_label "Intensity:" content with
    | Some g => Some (default (0 # 1) (intensity_mapping !! lower g))
    | None => None
    end
  else None.

Definition system_message : string * string :=
  ("system", "You are an expert emotion classifier.").

Definition predict_emotion_llama (sentence : string) (classify_ext do_intensity : bool)
    : M E (string * option Q) :=
  let tier := tier_of classify_ext do_intensity in
  let* allowed := lift_res (match EMOTION_TIERS !! tier with
                            | Some l => inr l
                            | None => inl (KeyError tier)
                            end) in
  let prompt := build_prompt env sentence allowed tier do_intensity in
  let* content := _call_llama [system_message; ("user", prompt)] in
  let emo := _extract_emotion content in
  let emo := if negb (py_in emo allowed) then "neutral" else emo in
  let intensity := parse_intensity do_intensity content in
  ret (emo, intensity).

Definition review_emotion_llama (sentence predicted actual : string)
    (classify_ext do_intensity : bool) : M E (string * option Q) :=
  let tier := tier_of classify_ext do_intensity in
  let* allowed := lift_res (match EMOTION_TIERS !! tier with
                            | Some l => inr l
                            | None => inl (KeyError tier)
                            end) in
  let prompt := build_review_prompt env sentence predicted actual allowed do_intensity in
  let* content := _call_llama [system_message; ("user", prompt)] in
  let emo := _extract_emotion content in
  let emo := if negb (py_in emo allowed) then predicted else emo in
  let intensity := parse_intensity do_intensity content in
  ret (emo, intensity).

Definition _LABEL_MAP : gmap Z string :=
  list_to_map
    [(0, "admiration"); (1, "amusement"); (2, "anger"); (3, "annoyance");
     (4, "approval"); (5, "caring"); (6, "confusion"); (7, "curiosity");
     (8, "desire"); (9, "disappointment"); (10, "disapproval"); (11, "disgust");
     (12, "embarrassment"); (13, "excitement"); (14, "fear"); (15, "gratitude");
     (16, "grief"); (17, "joy"); (18, "love"); (19, "nervousness");
     (20, "optimism"); (21, "pride"); (22, "realization"); (23, "relief");
     (24, "remorse"); (25, "sadness"); (26, "surprise"); (27, "neutral")].

Definition _BASIC_MAP : gmap string string :=
  list_to_map
    [("admiration", "happy"); ("amusement", "happy"); ("anger", "mad");
     ("annoyance", "mad"); ("approval", "happy"); ("caring", "happy");
     ("confusion", "neutral"); ("curiosity", "neutral"); ("desire", "happy");
     ("disappointment", "sad"); ("disapproval", "mad"); ("disgust", "disgust");
     ("embarrassment", "sad"); ("excitement", "happy"); ("fear", "scared");
     ("gratitude", "happy"); ("grief", "sad"); ("joy", "happy"); ("love", "happy");
     ("nervousness", "scared"); ("optimism", "happy"); ("pride", "happy");
     ("realization", "surprised"); ("relief", "happy"); ("remorse", "sad");
     ("sadness", "sad"); ("surprise", "surprised"); ("neutral", "neutral")].

(** [resp.raise_for_status()] *)
Definition raise_for_status (resp : HttpResponse) : Exn + unit :=
  if (400 <=? status_code resp) && (status_code resp <? 600)
  then inl (HTTPError (status_code resp))
  else inr tt.

Definition loads (s : string) : Exn + json :=
  match json_loads env s with
  | Some j => inr j
  | None => inl JSONDecodeError
  end.

(** Python truth value of a decoded JSON value. *)
Definition truthy (j : json) : bool :=
  match j with
  | JNull => false
  | JBool b => b
  | JInt z => negb (z =? 0)
  | JFloat q => negb (Qeq_bool q 0)
  | JStr s => negb (is_empty s)
  | JList l => match l with [] => false | _ => true end
  | JDict items => match items with [] => false | _ => true end
  end.

Fixpoint assoc_get (k : string) (items : list (string * json)) : option json :=
  match items with
  | [] => None
  | (k', v) :: rest => if String.eqb k k' then Some v else assoc_get k rest
  end.

(** [result.get(key)]: only a dict has the method; a missing key gives
    [None]. *)
Definition dict_get (result : json) (key : string) : Exn + json :=
  match result with
  | JDict items => inr (default JNull (assoc_get key items))
  | _ => inl AttributeError
  end.

(** [int(x)] on a decoded JSON value. *)
Definition py_int (j : json) : Exn + Z :=
  match j with
  | JInt z => inr z
  | JBool b => inr (if b then 1 else 0)
  | JFloat q => inr (Z.quot (Qnum q) (Z.pos (Qden q)))
  | JStr s => match int_of_str env s with
              | Some z => inr z
              | None => inl ValueError
              end
  | JNull | JList _ | JDict _ => inl TypeError
  end.

(** The statements of the [try] block after the POST, up to the class
    index [idx]. *)
Definition bert_index (resp : HttpResponse) : Exn + Z :=
  rbind (raise_for_status resp) (fun _ =>
  rbind (loads (body resp)) (fun result =>
  rbind (match result with JStr s => loads s | _ => inr result end) (fun result =>
  rbind (rbind (dict_get result "predictions") (fun p =>
           if truthy p then inr p else dict_get result "prediction")) (fun preds =>
  match preds with
  | JList (first :: _) => py_int first
  | _ => py_int preds
  end)))).

(** The label of a class index: the 28-class table, collapsed through
    [_BASIC_MAP] for the basic plan. *)
Definition label_for (idx : Z) (classify_ext do_intensity : bool) : string :=
  let label := default "nan" (_LABEL_MAP !! idx) in
  if negb classify_ext && negb do_intensity
  then default "neutral" (_BASIC_MAP !! label)
  else label.

Definition bert_label (resp : HttpResponse) (classify_ext do_intensity : bool)
    : Exn + string :=
  rbind (bert_index resp) (fun idx => inr (label_for idx classify_ext do_intensity)).

Definition predict_emotion_bert_try (sentence : string) (classify_ext do_intensity : bool)
    : M E (string * option Q) :=
  let* resp := bert_post env sentence in
  let* label := lift_res (bert_label resp classify_ext do_intensity) in
  ret (label, None).

Definition predict_emotion_bert (sentence : string) (classify_ext do_intensity : bool)
    : M E (string * option Q) :=
  try_except (predict_emotion_bert_try sentence classify_ext do_intensity)
             (fun _ => ret ("nan", None)).

End Adapters.

End Classifier.

(** ** api/plan_gate.py *)

(** A value held in a request payload. *)
Inductive value : Type :=
| VNone
| VBool (b : bool)
| VInt (z : Z)
| VFloat (q : Q)
| VStr (s : string).

Module PlanGate.

Import PyStr.

Inductive Plan : Type := basic | plus | pro.

(** [plan.value] *)
Definition plan_value (plan : Plan) : string :=
  match plan with
  | basic => "basic"
  | plus => "plus"
  | pro => "pro"
  end.

Record Rule : Type := {
  max_seconds : Z;
  model : string;
  translate : bool;
  classify : bool;
  classify_ext : bool;
  intensity : bool;
}.

Definition RULES (plan : Plan) : Rule :=
  match plan with
  | basic => {| max_seconds := 10 * 60; model := "tiny"; translate := true;
                classify := true; classify_ext := false; intensity := false |}
  | plus => {| max_seconds := 45 * 60; model := "medium"; translate := true;
               classify := true; classify_ext := true; intensity := false |}
  | pro => {| max_seconds := 4 * 60 * 60; model := "turbo"; translate := true;
              classify := true; classify_ext := true; intensity := true |}
  end.

(** [duration > limit] for a payload value that is not [None]: numbers
    compare by value ([bool] is an [int]), a string raises [TypeError]. *)
Definition gt_int (duration : value) (limit : Z) : Exn + bool :=
  match duration with
  | VInt z => inr (limit <? z)
  | VBool b => inr (limit <? (if b then 1 else 0))
  | VFloat q => inr (Qlt_bool (inject_Z limit) q)
  | VStr _ | VNone => inl TypeError
  end.

(** [duration is not None and duration > limit] *)
Definition over_limit (duration : value) (limit : Z) : Exn + bool :=
  match duration with
  | VNone => inr false
  | _ => gt_int duration limit
  end.

Definition quota_detail (plan : Plan) : string :=
  capitalize (plan_value plan) +:+ " plan limited to "
    +:+ str_of_N (Z.to_N (max_seconds (RULES plan) / 60)) +:+ "-minute audio".

(** [x.lower()] for a payload value: only a [str] has the method. *)
Definition value_lower (v : value) : Exn + string :=
  match v with
  | VStr s => inr (lower s)
  | _ => inl AttributeError
  end.

Definition pop_keys (keys : list string) (payload : gmap string value) : gmap string value :=
  fold_left (fun p k => delete k p) keys payload.

Definition enforce (payload : gmap string value) (plan : Plan) : Exn + gmap string value :=
  let rule := RULES plan in
  let payload := pop_keys ["translate"; "classify"; "classify_ext"; "intensity"] payload in
  let classifier_choice := default (VStr "llama") (payload !! "classifier") in
  let payload := delete "classifier" payload in
  let duration := default VNone (payload !! "duration_sec") in
  rbind (over_limit duration (max_seconds rule)) (fun too_long =>
  if (too_long : bool) then inl (HTTPException 403 (quota_detail plan))
  else
    rbind (match payload !! "src" with
           | Some v => inr v
           | None => inl (KeyError "src")
           end) (fun src =>
    let payload := delete "src" payload in
    rbind (value_lower classifier_choice) (fun classifier_model =>
    inr (<["classifier_model" := VStr classifier_model]>
         (<["do_intensity" := VBool (intensity rule)]>
         (<["do_classify_ext" := VBool (classify_ext rule)]>
         (<["do_classify" := VBool (classify rule)]>
         (<["do_translate" := VBool (translate rule)]>
         (<["model" := VStr (model rule)]>
         (<["inp" := src]> payload)))))))))).

End PlanGate.

(** ** The [csv] module of the Python library, default (excel) dialect *)

Module Csv.

Import PyStr.

Definition comma : Z := 44.
Definition dquote : Z := 34.

Definition is_nl (c : ascii) : bool := (code c =? 10) || (code c =? 13).

(** *** Reader: the state machine of [csv.reader] *)

Inductive State : Type :=
| START_RECORD
| START_FIELD
| IN_FIELD
| IN_QUOTED_FIELD
| QUOTE_IN_QUOTED_FIELD
| EAT_CRNL.

Record Reader : Type := {
  state : State;
  field : string;          (* characters of the current field, last first *)
  field_len : Z;
  fields : list string;    (* finished fields of the record, last first *)
}.

Definition parse_reset : Reader :=
  {| state := START_RECORD; field := EmptyString; field_len := 0; fields := [] |}.

Definition set_state (s : State) (r : Reader) : Reader :=
  {| state := s; field := field r; field_len := field_len r; fields := fields r |}.

Definition field_limit : Z := 131072.

Definition parse_add_char (r : Reader) (c : ascii) : Exn + Reader :=
  if field_limit <=? field_len r then inl (External "field larger than field limit")
  else inr {| state := state r; field := String c (field r);
              field_len := field_len r + 1; fields := fields r |}.

Definition parse_save_field (r : Reader) : Reader :=
  {| state := state r; field := EmptyString; field_len := 0;
     fields := rev (field r) :: fields r |}.

Definition after_line_end (c : option ascii) : State :=
  match c with None => START_RECORD | Some _ => EAT_CRNL end.

Definition ends_line (c : option ascii) : bool :=
  match c with None => true | Some ch => is_nl ch end.

(** One step; [None] is the end-of-line marker fed after each line. *)
Definition parse_process_char (r : Reader) (c : option ascii) : Exn + Reader :=
  let start_field (r : Reader) : Exn + Reader :=
    match c with
    | Some ch =>
        if is_nl ch then inr (set_state EAT_CRNL (parse_save_field r))
        else if code ch =? dquote then inr (set_state IN_QUOTED_FIELD r)
        else if code ch =? comma then inr (set_state START_FIELD (parse_save_field r))
        else rbind (parse_add_char r ch) (fun r' => inr (set_state IN_FIELD r'))
    | None => inr (set_state START_RECORD (parse_save_field r))
    end in
  match state r with
  | START_RECORD =>
      match c with
      | None => inr r
      | Some ch => if is_nl ch then inr (set_state EAT_CRNL r) else start_field r
      end
  | START_FIELD => start_field r
  | IN_FIELD =>
      if ends_line c then inr (set_state (after_line_end c) (parse_save_field r))
      else match c with
           | Some ch =>
               if code ch =? comma then inr (set_state START_FIELD (parse_save_field r))
               else parse_add_char r ch
           | None => inr r
           end
  | IN_QUOTED_FIELD =>
      match c with
      | None => inr r
      | Some ch =>
          if code ch =? dquote then inr (set_state QUOTE_IN_QUOTED_FIELD r)
          else parse_add_char r ch
      end
  | QUOTE_IN_QUOTED_FIELD =>
      match c with
      | Some ch =>
          if code ch =? dquote
          then rbind (parse_add_char r ch) (fun r' => inr (set_state IN_QUOTED_FIELD r'))
          else if code ch =? comma then inr (set_state START_FIELD (parse_save_field r))
          else if is_nl ch then inr (set_state EAT_CRNL (parse_save_field r))
          else rbind (parse_add_char r ch) (fun r' => inr (set_state IN_FIELD r'))
      | None => inr (set_state START_RECORD (parse_save_field r))
      end
  | EAT_CRNL =>
      match c with
      | None => inr (set_state START_RECORD r)
      | Some ch =>
          if is_nl ch then inr r
          else inl (External "new-line character seen in unquoted field")
      end
  end.

Fixpoint feed_line (line : string) (r : Reader) : Exn + Reader :=
  match line with
  | EmptyString => parse_process_char r None
  | String ch rest => rbind (parse_process_char r (Some ch)) (feed_line rest)
  end.

(** The rows the reader yields over the lines of a file.  A record ends
    when the machine is back in [START_RECORD] after a line; at the end of
    the input an unfinished record is still returned. *)
Fixpoint read_rows (lines : list string) (r : Reader) (acc : list (list string))
    : Exn + list (list string) :=
  match lines with
  | [] =>
      match state r with
      | IN_QUOTED_FIELD => inr (List.rev (List.rev (fields (parse_save_field r)) :: acc))
      | _ =>
          if negb (field_len r =? 0)
          then inr (List.rev (List.rev (fields (parse_save_field r)) :: acc))
          else inr (List.rev acc)
      end
  | line :: rest =>
      rbind (feed_line line r) (fun r' =>
        match state r' with
        | START_RECORD => read_rows rest parse_reset (List.rev (fields r') :: acc)
        | _ => read_rows rest r' acc
        end)
  end.

(** [list(csv.reader(f))] for a file opened with [newline='']. *)
Definition reader (content : string) : Exn + list (list string) :=
  read_rows (filelines content) parse_reset [].

(** *** Writer: [csv.writer(f).writerow], QUOTE_MINIMAL *)

Fixpoint needs_quotes (s : string) : bool :=
  match s with
  | EmptyString => false
  | String c s' =>
      (code c =? comma) || (code c =? dquote) || is_nl c || needs_quotes s'
  end.

Fixpoint double_quotes (s : string) : string :=
  match s with
  | EmptyString => EmptyString
  | String c s' =>
      if code c =? dquote then String c (String c (double_quotes s'))
      else String c (double_quotes s')
  end.

Definition quoted (s : string) : string :=
  String (chr dquote) (double_quotes s +:+ String (chr dquote) EmptyString).

Definition render_field (s : string) : string :=
  if needs_quotes s then quoted s else s.

Fixpoint join (sep : string) (l : list string) : string :=
  match l with
  | [] => EmptyString
  | [x] => x
  | x :: rest => x +:+ sep +:+ join sep rest
  end.

Definition lineterminator : string := String (chr 13) (String (chr 10) EmptyString).

Definition writerow (row : list string) : string :=
  match row with
  | [EmptyString] => quoted EmptyString +:+ lineterminator
  | _ => join "," (map render_field row) +:+ lineterminator
  end.

End Csv.

(** ** pipeline.py: helpers *)

(** Pure functions of the Python library that the pipeline calls and this
    development does not define. *)
Record PyLib : Type := {
  (** [urlsplit]'s checks of the network location; [false] is a [ValueError] *)
  valid_netloc : string -> bool;
  (** [urllib.parse.unquote] on a string that holds a percent sign *)
  unquote_escapes : string -> string;
  (** [float(s)]; [None] is a [ValueError] *)
  py_float : string -> option Q;
}.

Module Paths.

Import PyStr.

(** The components of a POSIX path: empty and [.] components are dropped. *)
Definition parts (p : string) : list string :=
  filter (fun c => negb (is_empty c) && negb (String.eqb c ".")) (split "/" p).

(** [Path(p).name] *)
Definition name (p : string) : string := List.last (parts p) EmptyString.

(** The index of the dot that starts the suffix: the last dot of the
    name, unless it is the first or the last character. *)
Definition suffix_index (nm : string) : option nat :=
  match rfind "." nm with
  | Some i => if (0 <? i)%nat && (i <? String.length nm - 1)%nat then Some i else None
  | None => None
  end.

(** [Path(p).suffix] *)
Definition suffix (p : string) : string :=
  let nm := name p in
  match suffix_index nm with
  | Some i => drop i nm
  | None => EmptyString
  end.

(** [Path(p).stem] *)
Definition stem (p : string) : string :=
  let nm := name p in
  match suffix_index nm with
  | Some i => take i nm
  | None => nm
  end.

(** [Path(p).root]: POSIX keeps exactly two leading slashes apart. *)
Definition root (p : string) : string :=
  if startswith "//" p && negb (startswith "///" p) then "//"
  else if startswith "/" p then "/" else EmptyString.

(** The text of a path with root [r] and components [ps]. *)
Definition render (r : string) (ps : list string) : string :=
  let body := Csv.join "/" ps in
  if is_empty r then (if is_empty body then "." else body) else r +:+ body.

(** [str(Path(p))] *)
Definition normal (p : string) : string := render (root p) (parts p).

(** [str(Path(a) / b)]: a rooted right operand replaces the left one,
    otherwise its components follow those of the left one. *)
Definition joinpath (a b : string) : string :=
  if is_empty (root b) then render (root a) (parts a ++ parts b) else normal b.

End Paths.

Module Url.

Import PyStr.

Fixpoint remove_chars (f : ascii -> bool) (s : string) : string :=
  match s with
  | EmptyString => EmptyString
  | String c s' => if f c then remove_chars f s' else String c (remove_chars f s')
  end.

(** TAB, CR and LF are removed from a URL before it is split. *)
Definition unsafe_char (c : ascii) : bool :=
  (code c =? 9) || (code c =? 10) || (code c =? 13).

Definition is_delim (c : ascii) : bool :=
  (code c =? 47) || (code c =? 63) || (code c =? 35).

Fixpoint drop_while (f : ascii -> bool) (s : string) : string :=
  match s with
  | String c s' => if f c then drop_while f s' else s
  | EmptyString => EmptyString
  end.

(** [_splitparams]: the path without the parameters of its last segment. *)
Definition splitparams (url : string) : string :=
  match rfind "/" url with
  | Some k => take k url +:+ fst (partition ";" (drop k url))
  | None => fst (partition ";" url)
  end.

(** [urlparse(url)] for a URL that starts with [http://] or [https://]:
    its [path] and [query]. *)
Definition urlparse (lib : PyLib) (url : string) : Exn + (string * string) :=
  let url := remove_chars unsafe_char url in
  let rest := match partition ":" url with
              | (_, Some r) => r
              | (_, None) => EmptyString
              end in
  let after_slashes := drop 2 rest in
  let netloc := take_while (fun c => negb (is_delim c)) after_slashes in
  let url := drop_while (fun c => negb (is_delim c)) after_slashes in
  if negb (valid_netloc lib netloc) then inl ValueError
  else
    let url := fst (partition "#" url) in
    let '(url, query) := partition "?" url in
    inr (splitparams url, default EmptyString query).

Definition plus_to_space (c : ascii) : ascii :=
  if code c =? 43 then chr 32 else c.

Fixpoint contains_char (c : ascii) (s : string) : bool :=
  match s with
  | EmptyString => false
  | String a s' => Ascii.eqb a c || contains_char c s'
  end.

Definition unquote (lib : PyLib) (s : string) : string :=
  if contains_char "%" s then unquote_escapes lib s else s.

(** [parse_qsl(qs)]: the pairs with a non-blank value, in order. *)
Definition parse_qsl (lib : PyLib) (qs : string) : list (string * string) :=
  flat_map
    (fun name_value =>
       match partition "=" name_value with
       | (nm, Some v) =>
           if is_empty v then []
           else [(unquote lib (map_chars plus_to_space nm),
                  unquote lib (map_chars plus_to_space v))]
       | (_, None) => []
       end)
    (split "&" qs).

(** [parse_qs(qs).get(key)]: the values of [key], in order. *)
Definition parse_qs_get (lib : PyLib) (qs key : string) : list string :=
  map snd (filter (fun p => String.eqb (fst p) key) (parse_qsl lib qs)).

End Url.

Module Pipeline.

Import PyStr.

Definition _AUDIO_EXTS : list string := [".wav"; ".mp3"; ".m4a"; ".flac"; ".ogg"; ".mp4"].
Definition _TEXT_EXTS : list string := [".txt"; ".csv"].

Definition is_url (src : string) : bool :=
  startswith "http://" src || startswith "https://" src.

Definition _is_audio (src : string) : bool :=
  is_url src || py_in (lower (Paths.suffix src)) _AUDIO_EXTS.

Definition _is_text (src : string) : bool :=
  py_in (lower (Paths.suffix src)) _TEXT_EXTS.

(** The character class [[0-9A-Za-z_-]]. *)
Definition safe_char (c : ascii) : bool :=
  isdigit c || isalpha c || (code c =? 95) || (code c =? 45).

(** [re.sub(r"[^0-9A-Za-z_-]", "_", name)] *)
Definition sanitize (name : string) : string :=
  map_chars (fun c => if safe_char c then c else "_"%char) name.

Definition _make_safe_stem (lib : PyLib) (inp : string) : Exn + string :=
  rbind
    (if is_url inp then
       rbind (Url.urlparse lib inp) (fun '(path, query) =>
         match Url.parse_qs_get lib query "v" with
         | v :: _ => inr (inl v)
         | [] => inr (inr (Paths.stem path))
         end)
     else inr (inr (Paths.stem inp)))
    (fun r =>
       match r with
       | inl returned_early => inr returned_early
       | inr name =>
           let s := sanitize name in
           inr (if is_empty s then "input" else s)
       end).

(** Rounding of a rational to the nearest integer, ties to even. *)
Definition round_half_even (q : Q) : Z :=
  let n := Qnum q in
  let d := Z.pos (Qden q) in
  let f := n / d in
  let r2 := 2 * (n mod d) in
  if r2 <? d then f
  else if d <? r2 then f + 1
  else if Z.even f then f else f + 1.

(** [_fmt]: [timedelta(seconds=ts)] normalises to days, seconds in
    [0, 86400) and microseconds in [0, 10^6); the days are not printed. *)
Definition _fmt (ts : Q) : string :=
  let us := round_half_even (ts * inject_Z 1000000) in
  let td_seconds := (us / 1000000) mod 86400 in
  let td_microseconds := us mod 1000000 in
  let h := td_seconds / 3600 in
  let rem := td_seconds mod 3600 in
  let m := rem / 60 in
  let s := rem mod 60 in
  let ms := td_microseconds / 1000 in
  zero_pad 2 (Z.to_N h) +:+ ":" +:+ zero_pad 2 (Z.to_N m) +:+ ":"
    +:+ zero_pad 2 (Z.to_N s) +:+ "," +:+ zero_pad 3 (Z.to_N ms).

Fixpoint all_some {A} (l : list (option A)) : option (list A) :=
  match l with
  | [] => Some []
  | Some a :: rest => match all_some rest with Some r => Some (a :: r) | None => None end
  | None :: _ => None
  end.

Definition _parse_timestr (lib : PyLib) (ts_str : string) : Exn + Q :=
  match all_some (map (py_float lib) (split ":" ts_str)) with
  | None => inl ValueError
  | Some [h; m; s] => inr (h * inject_Z 3600 + m * inject_Z 60 + s)%Q
  | Some [m; s] => inr (m * inject_Z 60 + s)%Q
  | Some (p :: _) => inr p
  | Some [] => inl IndexError
  end.

(** The float literals of the intensity thresholds, as the doubles they
    denote. *)
Definition lit_0_15 : Q := 5404319552844595 # 36028797018963968.
Definition lit_0_4 : Q := 3602879701896397 # 9007199254740992.
Definition lit_0_7 : Q := 3152519739159347 # 4503599627370496.
Definition lit_0_9 : Q := 8106479329266893 # 9007199254740992.

(** The intensity label of one row. *)
Definition intensity_label (do_intensity : bool) (score : option Q) : string :=
  match score with
  | Some score =>
      if do_intensity then
        if Qlt_bool score lit_0_15 then "neutral"
        else if Qlt_bool score lit_0_4 then "mild"
        else if Qlt_bool score lit_0_7 then "moderate"
        else if Qlt_bool score lit_0_9 then "strong"
        else "intense"
      else ""
  | None => ""
  end.

(** [f"{score:.2f}"] *)
Definition fmt_2f (score : Q) : string :=
  let c := round_half_even (score * inject_Z 100) in
  let a := Z.abs c in
  (if Qlt_bool score 0 then "-" else "")
    +:+ str_of_N (Z.to_N (a / 100)) +:+ "." +:+ zero_pad 2 (Z.to_N (a mod 100)).

(** [re.search(r"[.!?]$", s)]: [$] matches at the end and before a final
    line feed. *)
Definition is_terminal (c : ascii) : bool :=
  (code c =? 46) || (code c =? 33) || (code c =? 63).

Definition ends_with_terminal (s : string) : bool :=
  match rev s with
  | String c rest =>
      is_terminal c
      || ((code c =? 10) && match rest with
                            | String c' _ => is_terminal c'
                            | EmptyString => false
                            end)
  | EmptyString => false
  end.

Definition punctuate (s : string) : string :=
  if ends_with_terminal s then s else s +:+ ".".

(** *** The world of one request *)

Record Segment : Type := {
  seg_start : Q;
  seg_end : Q;
  seg_text : string;
}.

Record Summary : Type := {
  timestamp : string;
  input : string;
  language : string;
  csv : string;
}.

(** Files (path to content), the process environment, the records sent
    to the logger, and the state [E] of everything else: network, models,
    media files, the clock. *)
Record World (E : Type) : Type := {
  fs : gmap string string;
  environ : gmap string string;
  logs : list string;
  ext : E;
}.

Arguments fs {E}.
Arguments environ {E}.
Arguments logs {E}.
Arguments ext {E}.

(** The collaborators of [predict_any]: module attributes that the tests
    replace, the transcriber and translator, the clock, and configuration. *)
Record Deps (E : Type) : Type := {
  pylib : PyLib;
  detect_lang : string -> E -> string * E;
  translate : string -> string -> M E string;
  predict_emotion_llama : string -> bool -> bool -> M E (string * option Q);
  predict_emotion_bert : string -> bool -> bool -> M E (string * option Q);
  _normalise_source : string -> M E string;
  _trim_audio : string -> Q -> option Q -> M E string;
  transcribe : string -> M E (string * list Segment);
  (** [datetime.now(UTC).isoformat(timespec="seconds")] *)
  now_isoformat : E -> string * E;
  HISTORY_FILE : string;
}.

Arguments pylib {E}.
Arguments detect_lang {E}.
Arguments translate {E}.
Arguments predict_emotion_llama {E}.
Arguments predict_emotion_bert {E}.
Arguments _normalise_source {E}.
Arguments _trim_audio {E}.
Arguments transcribe {E}.
Arguments now_isoformat {E}.
Arguments HISTORY_FILE {E}.

Section Orchestrator.

Context {E : Type} (deps : Deps E).

Local Open Scope eff_scope.

(** A collaborator's step, run in the world. *)
Definition on_ext {A} (c : M E A) : M (World E) A :=
  fun w =>
    let (r, e') := c (ext w) in
    (r, {| fs := fs w; environ := environ w; logs := logs w; ext := e' |}).

Definition log_record (msg : string) : M (World E) unit :=
  fun w => (inr tt, {| fs := fs w; environ := environ w;
                       logs := logs w ++ [msg]; ext := ext w |}).

Definition setenv (key val : string) : M (World E) unit :=
  fun w => (inr tt, {| fs := fs w; environ := <[key := val]> (environ w);
                       logs := logs w; ext := ext w |}).

Definition getenv (key dflt : string) : M (World E) string :=
  fun w => (inr (default dflt (environ w !! key)), w).

(** Reading a file; a path that names no file raises. *)
Definition read_file (path : string) : M (World E) string :=
  fun w =>
    match fs w !! path with
    | Some content => (inr content, w)
    | None => (inl (FileNotFoundError path), w)
    end.

(** [open(path, "w")]: the file is created or truncated. *)
Definition open_w (path : string) : M (World E) unit :=
  fun w => (inr tt, {| fs := <[path := EmptyString]> (fs w); environ := environ w;
                       logs := logs w; ext := ext w |}).

(** A write at the end of the file. *)
Definition write_file (path data : string) : M (World E) unit :=
  fun w => (inr tt, {| fs := <[path := default EmptyString (fs w !! path) +:+ data]> (fs w);
                       environ := environ w; logs := logs w; ext := ext w |}).

Definition render_opt (o : option string) : string :=
  match o with Some s => s | None => "None" end.

(** The record logged when a request starts. *)
Definition start_message (inp model : string) (classifier_model : option string) : string :=
  "Pipeline started for input: '" +:+ take 50 inp +:+ "...', Model: " +:+ model
    +:+ ", Classifier: " +:+ render_opt classifier_model.

(** The sentences of a text file: the stripped non-blank lines of a
    [.txt], the stripped non-blank first cells after the first row of a
    [.csv]. *)
Definition txt_sentences (raw : string) : list string :=
  map strip (filter (fun s => negb (is_empty (strip s))) (splitlines raw)).

Definition csv_sentences (rows : list (list string)) : list string :=
  flat_map
    (fun row =>
       match row with
       | cell :: _ => if is_empty (strip cell) then [] else [strip cell]
       | [] => []
       end)
    (tl rows).

Definition text_segment (s : string) : Segment :=
  {| seg_start := 0; seg_end := 0; seg_text := s |}.

(** Step 1 for a text file. *)
Definition segments_of_text_file (inp : string) : M (World E) (string * list Segment) :=
  let* content := read_file inp in
  let raw := strip (translate_newlines content) in
  let* src_lang := on_ext (lift_total (detect_lang deps raw)) in
  let* sentences :=
    (if String.eqb (lower (Paths.suffix inp)) ".txt" then ret (txt_sentences raw)
     else
       let* content := read_file inp in
       let* rows := lift_res (Csv.reader content) in
       ret (csv_sentences rows)) in
  let sentences :=
    match sentences with
    | [] => if negb (is_empty raw) then [raw] else []
    | _ => sentences
    end in
  ret (src_lang, map text_segment (map punctuate sentences)).

Definition nonempty (o : option string) : option string :=
  match o with
  | Some s => if is_empty s then None else Some s
  | None => None
  end.

Definition shift (offset : Q) (seg : Segment) : Segment :=
  {| seg_start := (seg_start seg + offset)%Q; seg_end := (seg_end seg + offset)%Q;
     seg_text := seg_text seg |}.

(** Step 1 for an audio source. *)
Definition segments_of_audio (inp : string) (start_time end_time : option string)
    : M (World E) (string * list Segment) :=
  let* src_file := on_ext (_normalise_source deps inp) in
  let* (src_file, offset) :=
    (match nonempty start_time, nonempty end_time with
     | None, None => ret (src_file, 0%Q)
     | st, et =>
         let* st := lift_res (match st with
                              | Some s => _parse_timestr (pylib deps) s
                              | None => inr 0%Q
                              end) in
         let* et := lift_res (match et with
                              | Some s => rbind (_parse_timestr (pylib deps) s)
                                                (fun q => inr (Some q))
                              | None => inr None
                              end) in
         let* trimmed := on_ext (_trim_audio deps src_file st et) in
         ret (trimmed, st)
     end) in
  let* (src_lang, segments) := on_ext (transcribe deps src_file) in
  ret (src_lang, map (shift offset) segments).

(** Step 1 for plain text. *)
Definition segments_of_plain_text (inp : string) (do_translate : bool)
    : M (World E) (string * list Segment) :=
  let* src_lang := on_ext (lift_total (detect_lang deps inp)) in
  let translating := do_translate && negb (String.eqb src_lang "en") in
  let* text := (if translating then on_ext (translate deps inp src_lang) else ret inp) in
  let src_lang := if translating then "en" else src_lang in
  ret (src_lang, [text_segment (strip text)]).

(** The classifier call of one segment, with the flag [use_bert] before
    and after it. *)
Definition classify_segment (translation : string)
    (do_classify do_classify_ext do_intensity use_bert : bool)
    : M (World E) ((string * option Q) * bool) :=
  if do_classify then
    if negb do_classify_ext && negb do_intensity then
      let* r := on_ext (predict_emotion_bert deps translation do_classify_ext do_intensity) in
      ret (r, use_bert)
    else if negb use_bert then
      try_except
        (let* r := on_ext (predict_emotion_llama deps translation do_classify_ext do_intensity) in
         ret (r, use_bert))
        (fun _ =>
           let* _ := log_record "Llama failed; switching to BERT for all subsequent segments." in
           let* r := on_ext (predict_emotion_bert deps translation do_classify_ext do_intensity) in
           ret (r, true))
    else
      let* r := on_ext (predict_emotion_bert deps translation do_classify_ext do_intensity) in
      ret (r, use_bert)
  else ret (("nan", None), use_bert).

(** The row of one segment. *)
Definition make_row (seg : Segment) (translation emo : string) (score : option Q)
    (do_intensity : bool) : list string :=
  [_fmt (seg_start seg); _fmt (seg_end seg); seg_text seg; translation; emo]
    ++ (if do_intensity
        then [match score with Some q => fmt_2f q | None => "" end;
              intensity_label do_intensity score]
        else []).

(** Step 3: the loop over the segments, one row written per segment. *)
Fixpoint classify_loop (csv_path src_lang : string)
    (do_translate do_classify do_classify_ext do_intensity : bool)
    (segments : list Segment) (use_bert : bool) : M (World E) unit :=
  match segments with
  | [] => ret tt
  | seg :: rest =>
      let txt := seg_text seg in
      let* translation :=
        (if do_translate && negb (String.eqb src_lang "en")
         then on_ext (translate deps txt src_lang) else ret txt) in
      let* ((emo, score), use_bert) :=
        classify_segment translation do_classify do_classify_ext do_intensity use_bert in
      let* _ := write_file csv_path
                  (Csv.writerow (make_row seg translation emo score do_intensity)) in
      classify_loop csv_path src_lang do_translate do_classify do_classify_ext
        do_intensity rest use_bert
  end.

Definition headers (do_intensity : bool) : list string :=
  ["start"; "end"; "sentence"; "translation"; "emotion"]
    ++ (if do_intensity then ["intensity_score"; "intensity_label"] else []).

(** Steps 2 and 3: the artifact of a request, from its segments. *)
Definition write_artifact (csv_path src_lang : string)
    (do_translate do_classify do_classify_ext do_intensity : bool)
    (segments : list Segment) : M (World E) unit :=
  let* _ := open_w csv_path in
  let* _ := write_file csv_path (Csv.writerow (headers do_intensity)) in
  classify_loop csv_path src_lang do_translate do_classify do_classify_ext
    do_intensity segments false.

(** [s.replace("+00:00", "Z")] *)
Fixpoint replace_utc_offset (n : nat) (s : string) : string :=
  match n with
  | O => s
  | S n' =>
      match s with
      | EmptyString => EmptyString
      | String c s' =>
          if startswith "+00:00" s then String "Z" (replace_utc_offset n' (drop 6 s))
          else String c (replace_utc_offset n' s')
      end
  end.

Definition now_stamp : M (World E) string :=
  let* iso := on_ext (lift_total (now_isoformat deps)) in
  ret (replace_utc_offset (String.length iso) iso).

(** history.py *)
Definition _HEADERS : list string :=
  ["timestamp"; "input"; "language"; "translated"; "emotion"; "csv"].

Definition log_inference (user_input : string) (summary : Summary) : M (World E) unit :=
  fun w =>
    let fp := HISTORY_FILE deps in
    let first := match fs w !! fp with
                 | Some content => is_empty content
                 | None => true
                 end in
    (let* _ := (if first then write_file fp (Csv.writerow _HEADERS) else ret tt) in
     (* the default of [summary.get("timestamp", ...)] is evaluated, then unused *)
     let* _ := now_stamp in
     write_file fp
       (Csv.writerow [timestamp summary; user_input; language summary;
                      EmptyString; EmptyString; csv summary])) w.

Definition predict_any (inp model : string)
    (do_translate do_classify do_classify_ext do_intensity : bool)
    (classifier_model start_time end_time : option string) (persist : bool)
    : M (World E) Summary :=
  let* _ := log_record (start_message inp model classifier_model) in
  let* _ := setenv "WHISPER_MODEL" model in
  let* (src_lang, segments) :=
    (if _is_text inp then segments_of_text_file inp
     else if _is_audio inp then segments_of_audio inp start_time end_time
     else segments_of_plain_text inp do_translate) in
  let* stem := lift_res (_make_safe_stem (pylib deps) inp) in
  let* out_dir := getenv "TRANSCRIPT_DIR" "data/transcripts" in
  let csv_path := Paths.joinpath out_dir (stem +:+ "_emotion.csv") in
  let* _ := write_artifact csv_path src_lang do_translate do_classify do_classify_ext
              do_intensity segments in
  let* stamp := now_stamp in
  let summary := {| timestamp := stamp; input := inp; language := src_lang;
                    csv := csv_path |} in
  let* _ := (if persist then log_inference inp summary else ret tt) in
  ret summary.

End Orchestrator.

End Pipeline.

(** ** config.py *)

Module Config.

Import PyStr.

(** [[m.strip() for m in raw.split(",") if m.strip()]] *)
Definition env_list (raw : string) : list string :=
  map strip (filter (fun m => negb (is_empty (strip m))) (split "," raw)).

Definition LLAMA_API_URL (vars : gmap string string) : string :=
  default "http://194.171.191.227:30080/api/chat/completions" (vars !! "LLAMA_API_URL").

Definition LLAMA_MODEL_ID (vars : gmap string string) : string :=
  default "llama3.2:3b" (vars !! "LLAMA_MODEL_ID").

Definition LLAMA_FALLBACK_MODELS (vars : gmap string string) : list string :=
  env_list (default EmptyString (vars !! "LLAMA_FALLBACK_MODELS")).

Definition LLAMA_TOKEN (vars : gmap string string) : option string :=
  vars !! "LLAMA_TOKEN".

Definition API_URL (vars : gmap string string) : string :=
  default (LLAMA_API_URL vars) (vars !! "API_URL").

Definition BERT_LABELS (vars : gmap string string) : list string :=
  map lower (env_list (default EmptyString (vars !! "BERT_LABELS"))).

Definition SUPPORTED_TRANSLATORS : gmap string string :=
  <["de" := "opus-mt-de-en"]> (<["nl" := "opus-mt-nl-en"]>
  (<["fr" := "opus-mt-fr-en"]> (<["es" := "opus-mt-es-en"]> ∅))).

Definition VALID_EMOTIONS : list string :=
  ["excitement"; "confusion"; "surprise"; "neutral"; "optimism"; "pride";
   "curiosity"; "fear"; "amusement"; "joy"; "desire"; "annoyance";
   "nervousness"; "gratitude"; "approval"; "realization"; "disappointment";
   "caring"; "sadness"; "admiration"; "disapproval"; "anger"; "remorse";
   "relief"; "love"; "disgust"; "embarrassment"].

(** Truth value of a string that may be [None]. *)
Definition nonblank (o : option string) : bool :=
  match o with
  | Some s => negb (is_empty s)
  | None => false
  end.

(** [LLAMA_TOKEN or os.getenv("OPENAI_TOKEN") or "dummy-token"] *)
Definition TOKEN (vars : gmap string string) : string :=
  if nonblank (LLAMA_TOKEN vars) then default EmptyString (LLAMA_TOKEN vars)
  else if nonblank (vars !! "OPENAI_TOKEN") then default EmptyString (vars !! "OPENAI_TOKEN")
  else "dummy-token".

End Config.

(** ** inference.py *)

Module Inference.

Import PyStr.

Definition isword (c : ascii) : bool := isalpha c || isdigit c || (code c =? 95).

(** The pattern [Answer:\s*([\w\s]+)] anchored at the start of [s]: group
    1.  The greedy [\s*] takes every space; the group is then the longest
    run of word and space characters, or, when there is none, the last
    space, which [\s*] gives back. *)
Definition match_answer_at (s : string) : option string :=
  if startswith "Answer:" s then
    let rest := drop 7 s in
    let after := lstrip rest in
    let run := take_while (fun c => isword c || isspace c) after in
    if negb (is_empty run) then Some run
    else
      match last_char (take (String.length rest - String.length after) rest) with
      | Some c => Some (String c EmptyString)
      | None => None
      end
  else None.

(** [re.search]: the leftmost position where the pattern matches. *)
Fixpoint search_answer (s : string) : option string :=
  match match_answer_at s with
  | Some g => Some g
  | None =>
      match s with
      | EmptyString => None
      | String _ s' => search_answer s'
      end
  end.

(** PROMPT_TEMPLATE and REVIEW_TEMPLATE of [prompts.py], filled in. *)
Definition prompt_of (sentence : string) : string :=
  "You are an emotion classifier. Give ONLY the emotion." +:+ String (chr 10) "Sentence: "
    +:+ sentence.

Definition review_prompt_of (predicted actual : string) : string :=
  "You predicted " +:+ predicted +:+ " but the correct label is " +:+ actual
    +:+ ". Explain briefly and then output ONLY the correct emotion.".

(** [j.get(key, dflt)]: only a dict has the method. *)
Definition get_or (j : json) (key : string) (dflt : json) : Exn + json :=
  match j with
  | JDict items => inr (default dflt (Classifier.assoc_get key items))
  | _ => inl AttributeError
  end.

(** [j[0]] *)
Definition index0 (j : json) : Exn + json :=
  match j with
  | JList (first :: _) => inr first
  | JList [] => inl IndexError
  | JStr (String c _) => inr (JStr (String c EmptyString))
  | JStr EmptyString => inl IndexError
  | JDict _ => inl (KeyError "0")
  | JNull | JBool _ | JInt _ | JFloat _ => inl TypeError
  end.

(** [result.get("choices", [{}])[0].get("message", {}).get("content", "")] *)
Definition content_of (result : json) : Exn + json :=
  rbind (get_or result "choices" (JList [JDict []])) (fun choices =>
  rbind (index0 choices) (fun first =>
  rbind (get_or first "message" (JDict [])) (fun message =>
  get_or message "content" (JStr EmptyString)))).

(** What the two functions reach outside the module: configuration, the
    HTTP backend and the JSON parser. *)
Record Backend (E : Type) : Type := {
  API_URL : string;
  TOKEN : string;
  (** [requests.post(API_URL, ...)] with the prompt and the temperature in
      the body: a response, or the exception *)
  post : string -> value -> E -> (Exn + HttpResponse) * E;
  json_loads : string -> option json;
}.

Arguments API_URL {E}.
Arguments TOKEN {E}.
Arguments post {E}.
Arguments json_loads {E}.

Section Legacy.

Context {E : Type} (b : Backend E).

Local Open Scope eff_scope.

(** [response.raise_for_status()] and [response.json()] *)
Definition decoded (response : HttpResponse) : Exn + json :=
  rbind (Classifier.raise_for_status response) (fun _ =>
  match json_loads b (body response) with
  | Some j => inr j
  | None => inl JSONDecodeError
  end).

Definition get_emotion (sentence : string) (temperature : value) : M E (string * string) :=
  if is_empty (API_URL b) || is_empty (TOKEN b) then raise ValueError
  else
    let prompt := prompt_of sentence in
    try_except
      (let* response := post b prompt temperature in
       let* result := lift_res (decoded response) in
       let* content := lift_res (rbind (content_of result) (fun c =>
                         match c with
                         | JStr s => inr s
                         | _ => inl TypeError
                         end)) in
       let emotion := match search_answer content with
                      | Some g => lower (strip g)
                      | None => lower (strip content)
                      end in
       let emotion := if negb (py_in emotion Config.VALID_EMOTIONS) then "nan" else emotion in
       ret (emotion, prompt))
      (fun _ => ret ("nan", prompt)).

Definition review_emotion (sentence predicted_emotion actual_emotion : string)
    (temperature : value) : M E string :=
  let prompt := review_prompt_of predicted_emotion actual_emotion in
  try_except
    (let* response := post b prompt temperature in
     let* result := lift_res (decoded response) in
     let* reviewed_content := lift_res (rbind (content_of result) (fun c =>
                                match c with
                                | JStr s => inr (strip s)
                                | _ => inl AttributeError
                                end)) in
     let reviewed_emotion := match search_answer reviewed_content with
                             | Some g => lower (strip g)
                             | None => predicted_emotion
                             end in
     let reviewed_emotion :=
       if negb (py_in reviewed_emotion Config.VALID_EMOTIONS) then predicted_emotion
       else reviewed_emotion in
     ret reviewed_emotion)
    (fun _ => ret predicted_emotion).

End Legacy.

End Inference.

(** ** translator.py *)

Module Translator.

(** The Hugging Face classes: loading a tokenizer and a model by name, and
    the body of the [try] block (tokenise, generate, decode). *)
Record Marian (E Tok Mdl : Type) : Type := {
  tokenizer_from_pretrained : string -> M E Tok;
  model_from_pretrained : string -> M E Mdl;
  generate : Tok -> Mdl -> string -> M E string;
}.

Arguments tokenizer_from_pretrained {E Tok Mdl}.
Arguments model_from_pretrained {E Tok Mdl}.
Arguments generate {E Tok Mdl}.

(** The module's state: the cache of loaded models, by checkpoint name,
    beside the state of the outside world. *)
Record State (E Tok Mdl : Type) : Type := {
  _CACHE : gmap string (Tok * Mdl);
  outside : E;
}.

Arguments _CACHE {E Tok Mdl}.
Arguments outside {E Tok Mdl}.

Section Translate.

Context {E Tok Mdl : Type} (hf : Marian E Tok Mdl).

Local Open Scope eff_scope.

(** [src_lang in SUPPORTED_TRANSLATORS] *)
Definition supported (src_lang : string) : bool :=
  match Config.SUPPORTED_TRANSLATORS !! src_lang with
  | Some _ => true
  | None => false
  end.

Definition on_outside {A} (c : M E A) : M (State E Tok Mdl) A :=
  fun s =>
    let (r, e') := c (outside s) in
    (r, {| _CACHE := _CACHE s; outside := e' |}).

Definition cached (ckpt : string) : M (State E Tok Mdl) (option (Tok * Mdl)) :=
  fun s => (inr (_CACHE s !! ckpt), s).

Definition store (ckpt : string) (loaded : Tok * Mdl) : M (State E Tok Mdl) unit :=
  fun s => (inr tt, {| _CACHE := <[ckpt := loaded]> (_CACHE s); outside := outside s |}).

Definition _load (src : string) : M (State E Tok Mdl) (Tok * Mdl) :=
  match Config.SUPPORTED_TRANSLATORS !! src with
  | None => raise (KeyError src)
  | Some ckpt =>
      let* hit := cached ckpt in
      match hit with
      | Some loaded => ret loaded
      | None =>
          let* tok := on_outside (tokenizer_from_pretrained hf ("Helsinki-NLP/" +:+ ckpt)) in
          let* mdl := on_outside (model_from_pretrained hf ("Helsinki-NLP/" +:+ ckpt)) in
          let* _ := store ckpt (tok, mdl) in
          ret (tok, mdl)
      end
  end.

Definition translate (text src_lang : string) : M (State E Tok Mdl) string :=
  if String.eqb src_lang "en" || negb (supported src_lang)
  then ret text
  else
    let* (tok, mdl) := _load src_lang in
    try_except (on_outside (generate hf tok mdl text)) (fun _ => ret text).

End Translate.

End Translator.

(** ** cli.py and api/main.py: the two callers of [enforce] and
    [predict_any] *)

Module Kwargs.

Import PyStr Pipeline.

(** The arguments of one call of [predict_any]. *)
Record Args : Type := {
  inp : string;
  model : string;
  do_translate : bool;
  do_classify : bool;
  do_classify_ext : bool;
  do_intensity : bool;
  classifier_model : option string;
  start_time : option string;
  end_time : option string;
  persist : bool;
}.

Definition str_arg (v : option value) : option string :=
  match v with
  | Some (VStr s) => Some s
  | _ => None
  end.

Definition bool_arg (v : option value) : option bool :=
  match v with
  | Some (VBool b) => Some b
  | _ => None
  end.

(** A parameter with the default [None]: absent, [None] or a string. *)
Definition opt_str_arg (v : option value) : option (option string) :=
  match v with
  | None | Some VNone => Some None
  | Some (VStr s) => Some (Some s)
  | Some _ => None
  end.

(** A parameter with the default [True]: absent or a bool. *)
Definition flag_arg (v : option value) : option bool :=
  match v with
  | None => Some true
  | Some (VBool b) => Some b
  | Some _ => None
  end.

(** The parameters that a call of [predict_any] with the payload as its
    keyword arguments binds, for a payload that gives every required
    parameter and gives each parameter a value of the type its annotation
    names; every other entry goes to the function's [kwargs].
    [None] for any other payload: those calls are outside this model. *)
Definition bind_args (payload : gmap string value) : option Args :=
  inp ← str_arg (payload !! "inp");
  model ← str_arg (payload !! "model");
  do_translate ← bool_arg (payload !! "do_translate");
  do_classify ← bool_arg (payload !! "do_classify");
  do_classify_ext ← bool_arg (payload !! "do_classify_ext");
  do_intensity ← bool_arg (payload !! "do_intensity");
  classifier_model ← opt_str_arg (payload !! "classifier_model");
  start_time ← opt_str_arg (payload !! "start_time");
  end_time ← opt_str_arg (payload !! "end_time");
  persist ← flag_arg (payload !! "persist");
  Some {| inp := inp; model := model; do_translate := do_translate;
          do_classify := do_classify; do_classify_ext := do_classify_ext;
          do_intensity := do_intensity; classifier_model := classifier_model;
          start_time := start_time; end_time := end_time; persist := persist |}.

Definition call {E} (deps : Deps E) (a : Args) : M (World E) Summary :=
  predict_any deps (inp a) (model a) (do_translate a) (do_classify a) (do_classify_ext a)
    (do_intensity a) (classifier_model a) (start_time a) (end_time a) (persist a).

End Kwargs.

Module Cli.

Import PyStr PlanGate Pipeline.

Definition hex_digit (n : Z) : ascii :=
  if n <? 10 then chr (48 + n) else chr (87 + n).

(** One character inside a JSON string, [ensure_ascii=False]. *)
Definition json_char (c : ascii) : string :=
  let n := code c in
  let backslash := chr 92 in
  if n =? 34 then String backslash (String c EmptyString)
  else if n =? 92 then String backslash (String c EmptyString)
  else if n =? 8 then String backslash "b"
  else if n =? 12 then String backslash "f"
  else if n =? 10 then String backslash "n"
  else if n =? 13 then String backslash "r"
  else if n =? 9 then String backslash "t"
  else if n <? 32 then
    String backslash ("u00" +:+ String (hex_digit (n / 16)) (String (hex_digit (n mod 16))
                                                               EmptyString))
  else String c EmptyString.

Fixpoint json_escape (s : string) : string :=
  match s with
  | EmptyString => EmptyString
  | String c s' => json_char c +:+ json_escape s'
  end.

Definition json_string (s : string) : string :=
  String (chr 34) (json_escape s +:+ String (chr 34) EmptyString).

(** [json.dumps(result, ensure_ascii=False, indent=2)] for a summary. *)
Definition dumps (result : Summary) : string :=
  let nl := String (chr 10) EmptyString in
  let entry (key val : string) := "  " +:+ json_string key +:+ ": " +:+ json_string val in
  "{" +:+ nl +:+ entry "timestamp" (timestamp result) +:+ "," +:+ nl
    +:+ entry "input" (input result) +:+ "," +:+ nl
    +:+ entry "language" (language result) +:+ "," +:+ nl
    +:+ entry "csv" (csv result) +:+ nl +:+ "}".

Section Command.

Context {E : Type} (deps : Deps E).

Local Open Scope eff_scope.

(** The command [predict-any SRC --plan PLAN], click having checked the
    plan's name: the text it echoes.  The records of the command's own
    logger are not part of the world.  [None] stands for a call of
    [predict_any] outside the typed fragment of [Kwargs.bind_args]. *)
Definition _predict_any (src : string) (plan : Plan) : option (M (World E) string) :=
  match enforce {[ "src" := VStr src ]} plan with
  | inl x => Some (raise x)
  | inr enforced_payload =>
      match Kwargs.bind_args enforced_payload with
      | Some args =>
          Some (let* result := Kwargs.call deps args in
                ret (dumps result +:+ String (chr 10) EmptyString))
      | None => None
      end
  end.

End Command.

End Cli.

Module Api.

Import PyStr PlanGate Pipeline.

Definition RAW_PREFIX : string := "raw".
Definition LOCAL_DIR : string := "data/transcripts".

(** [Plan(value)] *)
Definition Plan_of (v : string) : Exn + Plan :=
  if String.eqb v "basic" then inr basic
  else if String.eqb v "plus" then inr plus
  else if String.eqb v "pro" then inr pro
  else inl ValueError.

(** [plan_dependency], from the value of the [x-plan] header. *)
Definition plan_dependency (x_plan : option string) : Exn + Plan :=
  Plan_of (default "basic" x_plan).

(** An uploaded file: its name as the client gave it, and its bytes. *)
Record Upload : Type := {
  filename : string;
  content : string;
}.

Record TranscriptSegment : Type := {
  id : Z;
  start : string;
  end_ : string;
  sentence : string;
  translation : string;
  emotion : string;
}.

Record FeedbackPayload : Type := {
  correct : bool;
  corrections : option (list TranscriptSegment);
}.

(** The content of the 200 response of [predict_any_endpoint]. *)
Record Reply : Type := {
  message : string;
  download_filename : string;
  download_link : string;
  meta : Summary;
}.

(** [s.rstrip("/")] *)
Fixpoint lstrip_slash (s : string) : string :=
  match s with
  | String c s' => if code c =? 47 then lstrip_slash s' else s
  | EmptyString => EmptyString
  end.

Definition rstrip_slash (s : string) : string := rev (lstrip_slash (rev s)).

(** [(t or "").strip() or None] *)
Definition trimmed (t : option string) : value :=
  let s := strip (default EmptyString t) in
  if is_empty s then VNone else VStr s.

(** [str(n)] for an [int] *)
Definition str_of_int (n : Z) : string :=
  if n <? 0 then "-" +:+ str_of_N (Z.to_N (- n)) else str_of_N (Z.to_N n).

(** [seg.dict()]: the keys, and the values as the csv writer renders them. *)
Definition fieldnames : list string :=
  ["id"; "start"; "end"; "sentence"; "translation"; "emotion"].

Definition row_of (seg : TranscriptSegment) : list string :=
  [str_of_int (id seg); start seg; end_ seg; sentence seg; translation seg; emotion seg].

(** [writer.writerows(rows)] *)
Definition writerows (rows : list (list string)) : string :=
  fold_right (fun row rest => Csv.writerow row +:+ rest) EmptyString rows.

(** The service around the pipeline.  [CONTAINER_CLIENT] is the Azure
    container client when one is configured, called as [upload_blob] with
    the blob's name, its data and its content type; [describe] is
    [str(exc)], [time_time] is [int(time.time())] and [model_dump_json] is
    pydantic's.  The records of the module's own logger are not part of
    the world. *)
Section Service.

Context {E : Type} (deps : Deps E).
Context (CONTAINER_CLIENT : option (string -> string -> option string -> M E unit)).
Context (describe : Exn -> string).
Context (time_time : E -> Z * E).
Context (model_dump_json : FeedbackPayload -> string).

Local Open Scope eff_scope.

Definition upload_blob_safe (name data : string) (content_type : option string)
    : M (World E) unit :=
  match CONTAINER_CLIENT with
  | None => ret tt
  | Some upload_blob =>
      try_except (on_ext (upload_blob name data content_type)) (fun _ => ret tt)
  end.

(** [dest.write_bytes(data)] *)
Definition write_bytes (path data : string) : M (World E) unit :=
  fun w => (inr tt, {| fs := <[path := data]> (fs w); environ := environ w;
                       logs := logs w; ext := ext w |}).

(** The source of the request: the stored upload, or a non-empty [src]. *)
Definition final_src (src : option string) (file : option Upload) : option string :=
  match file with
  | Some f => Some (Paths.joinpath LOCAL_DIR (filename f))
  | None => if Config.nonblank src then src else None
  end.

(** Storing an upload: the file is written under [LOCAL_DIR], opened again
    and sent to the container. *)
Definition receive (file : option Upload) : M (World E) unit :=
  match file with
  | Some f =>
      let dest := Paths.joinpath LOCAL_DIR (filename f) in
      let* _ := write_bytes dest (content f) in
      let* data := read_file dest in
      upload_blob_safe (RAW_PREFIX +:+ "/" +:+ filename f) data None
  | None => ret tt
  end.

Definition request_payload (source : string) (start_time end_time : option string)
    : gmap string value :=
  <["src" := VStr source]> (<["translate" := VBool true]> (<["classify" := VBool true]>
  (<["classify_ext" := VBool true]> (<["intensity" := VBool true]>
  (<["start_time" := trimmed start_time]> (<["end_time" := trimmed end_time]> ∅)))))).

(** [None] stands for a call of [predict_any] outside the typed fragment
    of [Kwargs.bind_args]. *)
Definition predict_any_endpoint (base_url : string) (plan : Plan) (src : option string)
    (file : option Upload) (start_time end_time : option string)
    : option (M (World E) Reply) :=
  match final_src src file with
  | None => Some (raise (HTTPException 400 "Provide either 'src' or an uploaded file."))
  | Some source =>
      match enforce (request_payload source start_time end_time) plan with
      | inl x => Some (let* _ := receive file in raise x)
      | inr payload =>
          match Kwargs.bind_args payload with
          | None => None
          | Some args =>
              Some (let* _ := receive file in
                    let* result :=
                      try_except (Kwargs.call deps args)
                        (fun exc =>
                           raise (HTTPException 500 ("Pipeline error: " +:+ describe exc))) in
                    let name := Paths.name (csv result) in
                    let* data := read_file (csv result) in
                    let* _ := upload_blob_safe name data (Some "text/csv") in
                    ret {| message := "✅ Emotion CSV ready.";
                           download_filename := name;
                           download_link := rstrip_slash base_url +:+ "/files/" +:+ name;
                           meta := result |})
          end
      end
  end.

(** [original_path.exists()], then the upload of the open file. *)
Definition archive_original (original_path orig_blob : string) : M (World E) unit :=
  fun w =>
    match fs w !! original_path with
    | Some data => upload_blob_safe orig_blob data (Some "text/csv") w
    | None => (inr tt, w)
    end.

(** The endpoint returns the message of its 200 response. *)
Definition receive_feedback (prediction_id : string) (payload : FeedbackPayload)
    : M (World E) string :=
  let prefix := "feedback/" +:+ prediction_id in
  let* ts := on_ext (lift_total time_time) in
  if correct payload then
    let receipt_name := prefix +:+ "/receipt-" +:+ str_of_int ts +:+ ".json" in
    let* _ := upload_blob_safe receipt_name (model_dump_json payload)
                (Some "application/json") in
    let* _ := archive_original (Paths.joinpath LOCAL_DIR prediction_id)
                (prefix +:+ "/original-" +:+ str_of_int ts +:+ ".csv") in
    ret "Receipt + original stored."
  else
    match corrections payload with
    | None => raise (HTTPException 400 "If 'correct' is false you must include 'corrections'.")
    | Some segs =>
        let rows := map row_of segs in
        (* fieldnames=rows[0].keys() *)
        let* _ := lift_res (match rows with [] => inl IndexError | _ :: _ => inr tt end) in
        let csv_io := Csv.writerow fieldnames +:+ writerows rows in
        let corr_name := prefix +:+ "/corrections-" +:+ str_of_int ts +:+ ".csv" in
        let* _ := upload_blob_safe corr_name csv_io (Some "text/csv") in
        let meta_name := prefix +:+ "/meta-" +:+ str_of_int ts +:+ ".json" in
        let* _ := upload_blob_safe meta_name (model_dump_json payload)
                    (Some "application/json") in
        ret "Corrections + meta stored."
    end.

End Service.

End Api.

(** ** Stand-ins for the outside world

    The doubles that [tests/] puts in place of the remote services and of
    the library, used to run the model on concrete inputs. *)

Module Stubs.

Import PyStr.

(** [int(s)] on a string of decimal digits. *)
Fixpoint digits_value (s : string) (acc : Z) : option Z :=
  match s with
  | EmptyString => Some acc
  | String c s' =>
      if isdigit c then digits_value s' (10 * acc + (code c - 48)) else None
  end.

Definition decimal_int (s : string) : option Z :=
  match s with
  | EmptyString => None
  | _ => digits_value s 0
  end.

(** A mocked classifier environment, after [tests/test_classifier.py]:
    [_call_llama] answers [llama_reply] ([None]: every model fails), the
    BERT session answers with status 200 and [resp.json()] is
    [{"predictions": [body]}], or the POST raises. *)
Definition mock_env (llama_reply : option string) (bert_reply : Exn + string)
    : Classifier.Env unit :=
  {| Classifier.LLAMA_MODEL_ID := "llama3.2:3b";
     Classifier.LLAMA_FALLBACK_MODELS := [];
     Classifier.llama_post := fun _ _ e => (llama_reply, e);
     Classifier.bert_post := fun _ e =>
       (match bert_reply with
        | inr body => inr {| status_code := 200; body := body |}
        | inl x => inl x
        end, e);
     Classifier.json_loads := fun body => Some (JDict [("predictions", JList [JStr body])]);
     Classifier.int_of_str := decimal_int;
     Classifier.build_prompt := fun sentence _ _ _ => sentence;
     Classifier.build_review_prompt := fun sentence _ _ _ _ => sentence |}.

(** Percent-decoding, byte by byte: [%XY] with two hex digits is the byte
    [XY], any other percent sign stays. *)
Definition hex_value (c : ascii) : option Z :=
  let n := code c in
  if isdigit c then Some (n - 48)
  else if (97 <=? n) && (n <=? 102) then Some (n - 87)
  else if (65 <=? n) && (n <=? 70) then Some (n - 55)
  else None.

Fixpoint unquote_bytes (s : string) : string :=
  match s with
  | EmptyString => EmptyString
  | String c s' =>
      if code c =? 37 then
        match s' with
        | String a (String b rest) =>
            match hex_value a, hex_value b with
            | Some x, Some y => String (chr (16 * x + y)) (unquote_bytes rest)
            | _, _ => String c (unquote_bytes s')
            end
        | _ => String c (unquote_bytes s')
        end
      else String c (unquote_bytes s')
  end.

(** Library functions for ASCII inputs: every network location is
    accepted, escapes decode to bytes, [float] reads a string of decimal
    digits. *)
Definition pylib : PyLib :=
  {| valid_netloc := fun _ => true;
     unquote_escapes := unquote_bytes;
     py_float := fun s => option_map inject_Z (decimal_int s) |}.

(** The doubles of [tests/test_pipeline.py]: the language is always
    English, translation is the identity, both classifiers answer [label]
    with no intensity, the clock shows [iso]; the media collaborators hand
    their argument back and transcribe nothing. *)
Definition pipeline_deps (label iso : string) : Pipeline.Deps unit :=
  {| Pipeline.pylib := pylib;
     Pipeline.detect_lang := fun _ e => ("en", e);
     Pipeline.translate := fun text _ => ret text;
     Pipeline.predict_emotion_llama := fun _ _ _ => ret (label, None);
     Pipeline.predict_emotion_bert := fun _ _ _ => ret (label, None);
     Pipeline._normalise_source := fun src => ret src;
     Pipeline._trim_audio := fun src _ _ => ret src;
     Pipeline.transcribe := fun _ => ret ("en", []);
     Pipeline.now_isoformat := fun e => (iso, e);
     Pipeline.HISTORY_FILE := "data/history.csv" |}.

(** A double in which Adapter A raises on its first call only and
    answers ["joy"] afterwards, while Adapter B answers ["sad"]; the state
    counts the calls to Adapter A. *)
Definition flaky_deps : Pipeline.Deps nat :=
  {| Pipeline.pylib := pylib;
     Pipeline.detect_lang := fun _ e => ("en", e);
     Pipeline.translate := fun text _ => ret text;
     Pipeline.predict_emotion_llama := fun _ _ _ n =>
       (match n with
        | O => inl (RuntimeError "No available Llama models")
        | S _ => inr ("joy", None)
        end, S n);
     Pipeline.predict_emotion_bert := fun _ _ _ => ret ("sad", None);
     Pipeline._normalise_source := fun src => ret src;
     Pipeline._trim_audio := fun src _ _ => ret src;
     Pipeline.transcribe := fun _ => ret ("en", []);
     Pipeline.now_isoformat := fun e => ("2025-06-25T10:30:00+00:00", e);
     Pipeline.HISTORY_FILE := "data/history.csv" |}.

Definition LF : string := String (chr 10) EmptyString.

(** The input of [test_predict_any_csv_input]: a CSV file with the header
    [Text] and two rows, and [TRANSCRIPT_DIR] set. *)
Definition csv_world : Pipeline.World unit :=
  {| Pipeline.fs := {[ "in/input.csv" := "Text" +:+ LF +:+ "Hello world" +:+ LF +:+ "Goodbye" ]};
     Pipeline.environ := {[ "TRANSCRIPT_DIR" := "out" ]};
     Pipeline.logs := [];
     Pipeline.ext := tt |}.

Definition empty_world {E} (e : E) : Pipeline.World E :=
  {| Pipeline.fs := ∅; Pipeline.environ := ∅; Pipeline.logs := []; Pipeline.ext := e |}.

(** A BERT endpoint that answers every POST with status 200 and the JSON
    document [doc]. *)
Definition bert_env (doc : json) : Classifier.Env unit :=
  {| Classifier.LLAMA_MODEL_ID := "llama3.2:3b";
     Classifier.LLAMA_FALLBACK_MODELS := [];
     Classifier.llama_post := fun _ _ e => (None, e);
     Classifier.bert_post := fun _ e => (inr {| status_code := 200; body := "" |}, e);
     Classifier.json_loads := fun _ => Some doc;
     Classifier.int_of_str := decimal_int;
     Classifier.build_prompt := fun sentence _ _ _ => sentence;
     Classifier.build_review_prompt := fun sentence _ _ _ _ => sentence |}.

(** A Llama endpoint with two fallback models, where only the model
    [answering] replies. *)
Definition fallback_env (answering : string) : Classifier.Env unit :=
  {| Classifier.LLAMA_MODEL_ID := "llama3.2:3b";
     Classifier.LLAMA_FALLBACK_MODELS := ["llama3.1:8b"; "mistral:7b"];
     Classifier.llama_post := fun model_name _ e =>
       (if String.eqb model_name answering then Some "Answer: joy" else None, e);
     Classifier.bert_post := fun _ e => (inl (External "down"), e);
     Classifier.json_loads := fun _ => None;
     Classifier.int_of_str := decimal_int;
     Classifier.build_prompt := fun sentence _ _ _ => sentence;
     Classifier.build_review_prompt := fun sentence _ _ _ _ => sentence |}.

(** The double of [tests/test_inference.py]: the POST answers 200 with
    the JSON document [reply], or raises. *)
Definition legacy_backend (reply : Exn + json) : Inference.Backend unit :=
  {| Inference.API_URL := "http://localhost/api/chat/completions";
     Inference.TOKEN := "dummy-token";
     Inference.post := fun _ _ e =>
       (match reply with
        | inr _ => inr {| status_code := 200; body := "" |}
        | inl x => inl x
        end, e);
     Inference.json_loads := fun _ =>
       match reply with
       | inr doc => Some doc
       | inl _ => None
       end |}.

(** The document [{"choices": [{"message": {"content": content}}]}]. *)
Definition chat_reply (content : string) : json :=
  JDict [("choices", JList [JDict [("message", JDict [("content", JStr content)])]])].

(** Translation models that load by name and count the loads; the
    model decodes to ["decoded_text"], as in [tests/test_translator.py]. *)
Definition marian : Translator.Marian nat string string :=
  {| Translator.tokenizer_from_pretrained := fun name n => (inr name, S n);
     Translator.model_from_pretrained := fun name n => (inr name, S n);
     Translator.generate := fun _ _ _ => ret "decoded_text" |}.

(** The translator's state before any model is loaded, and after the
    German model has been. *)
Definition cold_cache : Translator.State nat string string :=
  {| Translator._CACHE := ∅; Translator.outside := 0%nat |}.

Definition warm_cache : Translator.State nat string string :=
  {| Translator._CACHE :=
       {[ "opus-mt-de-en" := ("Helsinki-NLP/opus-mt-de-en", "Helsinki-NLP/opus-mt-de-en") ]};
     Translator.outside := 2%nat |}.

End Stubs.

(** ** Vocabulary of the statements *)

Module Spec.

(** A request's duration, when present and a number, strictly exceeds the
    cap. *)
Definition exceeds (duration : option value) (cap : Z) : Prop :=
  match duration with
  | Some (VInt z) => cap < z
  | Some (VBool b) => cap < (if b then 1 else 0)
  | Some (VFloat q) => (inject_Z cap < q)%Q
  | Some (VStr _) | Some VNone | None => False
  end.

(** *** The calls a request makes to the two adapters

    To speak about which adapter is called when, the collaborators are run
    over the state [E * list Call]: each adapter call appends itself and
    its outcome to the list, every other collaborator leaves the list
    alone.  [predict_any] itself is not changed. *)

Inductive Adapter : Type := AdapterA | AdapterB.

Record Call : Type := {
  adapter : Adapter;
  text : string;
  outcome : Exn + (string * option Q);
}.

Section Traced.

Context {E : Type} (deps : Pipeline.Deps E).

Definition keep_trace {A} (c : M E A) : M (E * list Call) A :=
  fun st => let (r, e') := c (fst st) in (r, (e', snd st)).

Definition record_call (a : Adapter)
    (f : string -> bool -> bool -> M E (string * option Q))
    : string -> bool -> bool -> M (E * list Call) (string * option Q) :=
  fun sentence classify_ext do_intensity st =>
    let (r, e') := f sentence classify_ext do_intensity (fst st) in
    (r, (e', snd st ++ [{| adapter := a; text := sentence; outcome := r |}])).

Definition traced : Pipeline.Deps (E * list Call) :=
  {| Pipeline.pylib := Pipeline.pylib deps;
     Pipeline.detect_lang := fun t st =>
       let (l, e') := Pipeline.detect_lang deps t (fst st) in (l, (e', snd st));
     Pipeline.translate := fun t l => keep_trace (Pipeline.translate deps t l);
     Pipeline.predict_emotion_llama := record_call AdapterA (Pipeline.predict_emotion_llama deps);
     Pipeline.predict_emotion_bert := record_call AdapterB (Pipeline.predict_emotion_bert deps);
     Pipeline._normalise_source := fun s => keep_trace (Pipeline._normalise_source deps s);
     Pipeline._trim_audio := fun s st et => keep_trace (Pipeline._trim_audio deps s st et);
     Pipeline.transcribe := fun s => keep_trace (Pipeline.transcribe deps s);
     Pipeline.now_isoformat := fun st =>
       let (t, e') := Pipeline.now_isoformat deps (fst st) in (t, (e', snd st));
     Pipeline.HISTORY_FILE := Pipeline.HISTORY_FILE deps |}.

End Traced.

(** The calls recorded so far in a world. *)
Definition trace {E} (w : Pipeline.World (E * list Call)) : list Call :=
  snd (Pipeline.ext w).

Definition by_B (c : Call) : Prop := adapter c = AdapterB.

(** The shape of a request that prefers Adapter A: calls to A that return,
    then, if A raises once, a call to B on the same text and only calls to
    B from there on. *)
Inductive sticky : list Call -> Prop :=
| sticky_nil : sticky []
| sticky_A_returns t r calls :
    sticky calls ->
    sticky ({| adapter := AdapterA; text := t; outcome := inr r |} :: calls)
| sticky_A_raises t x o calls :
    Forall by_B calls ->
    sticky ({| adapter := AdapterA; text := t; outcome := inl x |}
            :: {| adapter := AdapterB; text := t; outcome := o |} :: calls).

(** The calls that returned, with what they returned: one per classified
    segment. *)
Definition decisive (calls : list Call) : list (string * (string * option Q)) :=
  flat_map
    (fun c => match outcome c with
              | inr r => [(text c, r)]
              | inl _ => []
              end)
    calls.

(** The lines written for the segments, given what was decided for each. *)
Fixpoint rows_text (do_intensity : bool) (segments : list Pipeline.Segment)
    (decided : list (string * (string * option Q))) : string :=
  match segments, decided with
  | seg :: segments', (translation, (emo, score)) :: decided' =>
      Csv.writerow (Pipeline.make_row seg translation emo score do_intensity)
        +:+ rows_text do_intensity segments' decided'
  | _, _ => EmptyString
  end.

Definition with_flag (b : bool) (o : Exn + (string * option Q))
    : Exn + ((string * option Q) * bool) :=
  match o with
  | inr r => inr (r, b)
  | inl x => inl x
  end.

Definition call (a : Adapter) (t : string) (o : Exn + (string * option Q)) : Call :=
  {| adapter := a; text := t; outcome := o |}.

(** What one segment adds to the calls, by the branch taken: [cheap] is
    the path without extended labels and intensity, [use_bert] the flag
    before the segment; the last argument is the result with the flag
    after it. *)
Inductive step_calls (t : string)
    : bool -> bool -> list Call -> Exn + ((string * option Q) * bool) -> Prop :=
| step_cheap use_bert o :
    step_calls t true use_bert [call AdapterB t o] (with_flag use_bert o)
| step_A_returns r :
    step_calls t false false [call AdapterA t (inr r)] (inr (r, false))
| step_A_raises x o :
    step_calls t false false [call AdapterA t (inl x); call AdapterB t o] (with_flag true o)
| step_after_fallback o :
    step_calls t false true [call AdapterB t o] (with_flag true o).

(** The shape of the calls of a whole loop. *)
Definition loop_shape (cheap use_bert : bool) (calls : list Call) : Prop :=
  if cheap || use_bert then Forall by_B calls else sticky calls.

(** The shape of the calls of a whole request. *)
Definition request_shape (classify_ext do_intensity : bool) (calls : list Call) : Prop :=
  if negb classify_ext && negb do_intensity then Forall by_B calls else sticky calls.

(** Computations whose adapter calls satisfy [P], and computations that
    call no adapter. *)
Definition appends {E A} (P : list Call -> Prop)
    (c : M (Pipeline.World (E * list Call)) A) : Prop :=
  forall w, exists calls, trace (snd (c w)) = trace w ++ calls /\ P calls.

Definition quiet {E A} (c : M (Pipeline.World (E * list Call)) A) : Prop :=
  forall w, trace (snd (c w)) = trace w.

(** *** Stub classifiers and the artifact they determine *)

(** What a request decides for a text when both adapters are pure
    functions [fA] and [fB] that always return. *)
Definition stub_result (fA fB : string -> bool -> bool -> string * option Q)
    (do_classify classify_ext do_intensity : bool) (t : string) : string * option Q :=
  if do_classify then
    if negb classify_ext && negb do_intensity
    then fB t classify_ext do_intensity
    else fA t classify_ext do_intensity
  else ("nan", None).

(** The rows of the segments, in segment order, translation being the
    identity. *)
Definition stub_rows (fA fB : string -> bool -> bool -> string * option Q)
    (do_classify classify_ext do_intensity : bool) (segments : list Pipeline.Segment)
    : list (list string) :=
  map (fun seg =>
         let t := Pipeline.seg_text seg in
         let r := stub_result fA fB do_classify classify_ext do_intensity t in
         Pipeline.make_row seg t (fst r) (snd r) do_intensity)
      segments.

(** The bytes of an artifact: the header line, then one line per row. *)
Definition rows_bytes (rows : list (list string)) : string :=
  fold_right (fun row rest => Csv.writerow row +:+ rest) EmptyString rows.

Definition artifact_text (do_intensity : bool) (rows : list (list string)) : string :=
  Csv.writerow (Pipeline.headers do_intensity) +:+ rows_bytes rows.

(** *** Worlds that differ in their log only *)

(** Two worlds agree up to the log when files, environment and outside
    state are equal and the logs are [l1] and [l2] followed by the same
    records. *)
Definition agree {E} (l1 l2 : list string) (w1 w2 : Pipeline.World E) : Prop :=
  Pipeline.fs w1 = Pipeline.fs w2
  /\ Pipeline.environ w1 = Pipeline.environ w2
  /\ Pipeline.ext w1 = Pipeline.ext w2
  /\ exists rest, Pipeline.logs w1 = l1 ++ rest /\ Pipeline.logs w2 = l2 ++ rest.

(** A computation that never reads the log: from worlds that agree up to
    the log it gives the same result and worlds that still agree. *)
Definition log_blind {E A} (c : M (Pipeline.World E) A) : Prop :=
  forall l1 l2 w1 w2,
    agree l1 l2 w1 w2 ->
    fst (c w1) = fst (c w2) /\ agree l1 l2 (snd (c w1)) (snd (c w2)).


(** *** Text files *)

(** The sentences kept for a file: the raw content stands in when no
    sentence was found and the content is not empty. *)
Definition with_fallback (raw : string) (sentences : list string) : list string :=
  match sentences with
  | [] => if negb (PyStr.is_empty raw) then [raw] else []
  | _ => sentences
  end.


(** *** The recording run and the plain run *)

(** A world of the recording run stands for a world of the plain run when
    they are equal once the record is dropped. *)
Definition erases {E} (w : Pipeline.World E) (wt : Pipeline.World (E * list Call)) : Prop :=
  Pipeline.fs w = Pipeline.fs wt
  /\ Pipeline.environ w = Pipeline.environ wt
  /\ Pipeline.logs w = Pipeline.logs wt
  /\ Pipeline.ext w = fst (Pipeline.ext wt).

(** The recording computation [ct] does what the plain computation [c]
    does. *)
Definition mirrors {E A} (c : M (Pipeline.World E) A)
    (ct : M (Pipeline.World (E * list Call)) A) : Prop :=
  forall w wt,
    erases w wt -> fst (c w) = fst (ct wt) /\ erases (snd (c w)) (snd (ct wt)).

(** The world in which a recording run starts: nothing recorded yet. *)
Definition recording {E} (w : Pipeline.World E) : Pipeline.World (E * list Call) :=
  {| Pipeline.fs := Pipeline.fs w; Pipeline.environ := Pipeline.environ w;
     Pipeline.logs := Pipeline.logs w; Pipeline.ext := (Pipeline.ext w, []) |}.

(** *** The models [_call_llama] posts to

    The environment run over the state [E * list string]: each POST to
    the Llama endpoint appends the model it names to the list, nothing
    else changes. *)
Definition posting {E} (env : Classifier.Env E) : Classifier.Env (E * list string) :=
  {| Classifier.LLAMA_MODEL_ID := Classifier.LLAMA_MODEL_ID env;
     Classifier.LLAMA_FALLBACK_MODELS := Classifier.LLAMA_FALLBACK_MODELS env;
     Classifier.llama_post := fun model_name messages s =>
       let (r, e') := Classifier.llama_post env model_name messages (fst s) in
       (r, (e', snd s ++ [model_name]));
     Classifier.bert_post := fun sentence s =>
       let (r, e') := Classifier.bert_post env sentence (fst s) in (r, (e', snd s));
     Classifier.json_loads := Classifier.json_loads env;
     Classifier.int_of_str := Classifier.int_of_str env;
     Classifier.build_prompt := Classifier.build_prompt env;
     Classifier.build_review_prompt := Classifier.build_review_prompt env |}.

(** *** Reading back what the writer wrote *)

(** The reader's machine run over the characters of [s], the end-of-line
    marker not included. *)
Fixpoint feed_chars (s : string) (r : Csv.Reader) : Exn + Csv.Reader :=
  match s with
  | EmptyString => inr r
  | String ch rest => rbind (Csv.parse_process_char r (Some ch)) (feed_chars rest)
  end.

(** A reader that was [r0] when the line started and has been fed the
    characters [cur] of the line (last first) is now [r]. *)
Definition at_state (cur : string) (r0 r : Csv.Reader) : Prop :=
  feed_chars (PyStr.rev cur) r0 = inr r.

(** Reading the text [t] takes the machine from [r] to [r'], whatever
    follows [t] and wherever the current line started. *)
Definition advances (r : Csv.Reader) (t : string) (r' : Csv.Reader) : Prop :=
  forall s cur r0,
    at_state cur r0 r ->
    exists cur' r0',
      at_state cur' r0' r'
      /\ forall acc,
           Csv.read_rows (PyStr.filelines_go (t +:+ s) cur) r0 acc
           = Csv.read_rows (PyStr.filelines_go s cur') r0' acc.

(** The reader in state [st], holding the characters [f] of the current
    field after the finished fields [done]. *)
Definition reading (st : Csv.State) (f : string) (done : list string) : Csv.Reader :=
  {| Csv.state := st; Csv.field := PyStr.rev f;
     Csv.field_len := Z.of_nat (String.length f); Csv.fields := List.rev done |}.

(** A field within the reader's limit of 131072 characters. *)
Definition short (f : string) : Prop :=
  Z.of_nat (String.length f) <= Csv.field_limit.

(** *** Files *)

(** Every run of the computation is a step of [R]. *)
Definition within {E A} (R : Pipeline.World E -> Pipeline.World E -> Prop)
    (c : M (Pipeline.World E) A) : Prop :=
  forall w, R w (snd (c w)).

(** Files and environment are as before. *)
Definition same_files {E} (w w' : Pipeline.World E) : Prop :=
  Pipeline.fs w' = Pipeline.fs w /\ Pipeline.environ w' = Pipeline.environ w.

(** The environment and every file but those of [paths] are as before. *)
Definition same_files_but {E} (paths : list string) (w w' : Pipeline.World E) : Prop :=
  Pipeline.environ w' = Pipeline.environ w
  /\ forall p, ~ In p paths -> Pipeline.fs w' !! p = Pipeline.fs w !! p.

(** The row written for a segment: its two timestamps and its text, then
    what the translator and the classifier gave. *)
Definition written_for (do_intensity : bool) (seg : Pipeline.Segment) (row : list string)
    : Prop :=
  exists translation emo score,
    row = Pipeline.make_row seg translation emo score do_intensity.

(** The history record of one inference. *)
Definition record_row (entry : string * Pipeline.Summary) : list string :=
  [Pipeline.timestamp (snd entry); fst entry; Pipeline.language (snd entry);
   EmptyString; EmptyString; Pipeline.csv (snd entry)].

(** The calls [log_inference(user_input, summary)], one after the other. *)
Fixpoint log_all {E} (deps : Pipeline.Deps E) (entries : list (string * Pipeline.Summary))
    : M (Pipeline.World E) unit :=
  match entries with
  | [] => ret tt
  | entry :: rest =>
      bind (Pipeline.log_inference deps (fst entry) (snd entry)) (fun _ => log_all deps rest)
  end.

(** A history file: the header line, then one line per record. *)
Definition history_text (rows : list (list string)) : string :=
  rows_bytes (Pipeline._HEADERS :: rows).

(** *** The service *)

(** The outside world after the container client, when there is one, has
    been asked to upload a blob. *)
Definition sent {E} (client : option (string -> string -> option string -> M E unit))
    (name data : string) (content_type : option string) (e : E) : E :=
  match client with
  | Some upload_blob => snd (upload_blob name data content_type e)
  | None => e
  end.

(** A trim bound as the endpoint hands it on: stripped, and absent when
    nothing is left. *)
Definition bound (t : option string) : option string :=
  let s := PyStr.strip (default EmptyString t) in
  if PyStr.is_empty s then None else Some s.

(** *** Replies of the language model *)

(** A reply in the format that the prompts ask for: a line of reasoning,
    then the answer line; [rest] is what follows the emotion word. *)
Definition formatted_reply (reasoning gap emotion rest : string) : string :=
  "Reasoning: " +:+ reasoning
    +:+ String (PyStr.chr 10) ("Answer:" +:+ gap +:+ emotion +:+ rest).

(** The intensity line of the pro format. *)
Definition intensity_line (gap word rest : string) : string :=
  String (PyStr.chr 10) ("Intensity:" +:+ gap +:+ word +:+ rest).

(** A text that is empty or starts with an ASCII character that is not a
    letter. *)
Definition clear_start (s : string) : bool :=
  match s with
  | String c _ => negb (PyStr.isalpha c) && (PyStr.code c <? 128)
  | EmptyString => true
  end.

End Spec.

(** * Properties *)

(** ** Strings and numbers *)

Module StrFacts.

Lemma Qlt_bool_iff (x y : Q) : Qlt_bool x y = true <-> (x < y)%Q.
Proof.
  unfold Qlt_bool. rewrite negb_true_iff. split.
  - intros H. apply Qnot_le_lt. intros Hle. apply Qle_bool_iff in Hle. congruence.
  - intros H. destruct (Qle_bool y x) eqn:Hle; [| reflexivity].
    apply Qle_bool_iff in Hle. exfalso. eapply Qlt_not_le; eassumption.
Qed.

Lemma append_nil_r (s : string) : s +:+ "" = s.
Proof.
  induction s as [| c s IH]; [reflexivity |].
  change (String c (s +:+ "") = String c s). now f_equal.
Qed.

Lemma append_assoc (a b c : string) : (a +:+ b) +:+ c = a +:+ (b +:+ c).
Proof.
  induction a as [| x a IH]; [reflexivity |].
  change (String x ((a +:+ b) +:+ c) = String x (a +:+ (b +:+ c))). now f_equal.
Qed.

End StrFacts.

(** ** The classifier adapters *)

Module ClassifierFacts.

Import PyStr EmotionTiers Classifier.

Lemma py_in_In (x : string) (l : list string) : py_in x l = true <-> In x l.
Proof.
  unfold py_in. rewrite existsb_exists. split.
  - intros (y & Hy & Heq). apply String.eqb_eq in Heq. now subst.
  - intros H. exists x. split; [assumption | apply String.eqb_refl].
Qed.

Lemma tier_lookup (classify_ext do_intensity : bool) :
  EMOTION_TIERS !! tier_of classify_ext do_intensity
  = Some (if do_intensity then PRO_LABELS
          else if classify_ext then PLUS_LABELS else BASIC_LABELS).
Proof. destruct do_intensity, classify_ext; reflexivity. Qed.

Lemma neutral_in_tier (classify_ext do_intensity : bool) (allowed : list string) :
  EMOTION_TIERS !! tier_of classify_ext do_intensity = Some allowed ->
  In "neutral" allowed.
Proof.
  rewrite tier_lookup. intros [= <-].
  apply py_in_In. destruct do_intensity, classify_ext; reflexivity.
Qed.

Section Llama.

Context {E : Type} (env : Env E).

(** C4. For every backend reply [content], [predict_emotion_llama] returns
    the parsed label when it is in the tier's vocabulary and ["neutral"]
    otherwise, [review_emotion_llama] the parsed label when it is in the
    vocabulary and the prior prediction otherwise; so the label is a member
    of the vocabulary or the fallback, never an arbitrary string. *)
Theorem adapter_A_label_in_tier_or_fallback
    (sentence predicted actual content : string) (classify_ext do_intensity : bool)
    (allowed : list string) (e e' : E) :
  EMOTION_TIERS !! tier_of classify_ext do_intensity = Some allowed ->
  let parsed := _extract_emotion content in
  let tier := tier_of classify_ext do_intensity in
  (_call_llama env
     [system_message; ("user", build_prompt env sentence allowed tier do_intensity)] e
   = (inr content, e') ->
   predict_emotion_llama env sentence classify_ext do_intensity e
   = (inr (if py_in parsed allowed then parsed else "neutral",
           parse_intensity do_intensity content), e')
   /\ In (if py_in parsed allowed then parsed else "neutral") allowed)
  /\
  (_call_llama env
     [system_message;
      ("user", build_review_prompt env sentence predicted actual allowed do_intensity)] e
   = (inr content, e') ->
   review_emotion_llama env sentence predicted actual classify_ext do_intensity e
   = (inr (if py_in parsed allowed then parsed else predicted,
           parse_intensity do_intensity content), e')
   /\ (In (if py_in parsed allowed then parsed else predicted) allowed
       \/ (if py_in parsed allowed then parsed else predicted) = predicted)).
Proof.
  intros Hallowed parsed tier. split; intros Hreply.
  - split.
    + unfold predict_emotion_llama, bind, lift_res, ret.
      rewrite Hallowed. fold tier. rewrite Hreply. fold parsed.
      now destruct (py_in parsed allowed).
    + destruct (py_in parsed allowed) eqn:Hin.
      * now apply py_in_In.
      * eapply neutral_in_tier; eassumption.
  - split.
    + unfold review_emotion_llama, bind, lift_res, ret.
      rewrite Hallowed. rewrite Hreply. fold parsed.
      now destruct (py_in parsed allowed).
    + destruct (py_in parsed allowed) eqn:Hin.
      * left. now apply py_in_In.
      * now right.
Qed.

End Llama.

Lemma adapter_A_label_witness :
  fst (predict_emotion_llama (Stubs.mock_env (Some "Answer: unknown") (inr "17"))
         "Test" false false tt)
  = inr ("neutral", None).
Proof.
  pose proof (adapter_A_label_in_tier_or_fallback
                (Stubs.mock_env (Some "Answer: unknown") (inr "17"))
                "Test" "joy" "sad" "Answer: unknown" false false
                BASIC_LABELS tt tt eq_refl) as [Hpredict _].
  destruct (Hpredict eq_refl) as [-> _]. reflexivity.
Defined.

Section Bert.

Context {E : Type} (env : Env E).

Lemma bert_try_outcome (sentence : string) (classify_ext do_intensity : bool) (e : E) :
  (exists x e', predict_emotion_bert_try env sentence classify_ext do_intensity e = (inl x, e'))
  \/ (exists idx e',
        predict_emotion_bert_try env sentence classify_ext do_intensity e
        = (inr (label_for idx classify_ext do_intensity, None), e')).
Proof.
  unfold predict_emotion_bert_try, bind, lift_res, ret, bert_label.
  destruct (bert_post env sentence e) as [[x | resp] e'].
  - left. eauto.
  - destruct (bert_index env resp) as [x | idx]; simpl.
    + left. eauto.
    + right. eauto.
Qed.

(** C5. [predict_emotion_bert] never raises: for every sentence, flag
    combination and state of the network it returns a pair whose intensity
    is [None]; and whenever the POST or the parsing of the response raises,
    the pair is [("nan", None)]. *)
Theorem predict_emotion_bert_never_raises
    (sentence : string) (classify_ext do_intensity : bool) (e : E) :
  exists (label : string) (e' : E),
    predict_emotion_bert env sentence classify_ext do_intensity e
    = (inr (label, None), e')
    /\ (forall x,
          fst (predict_emotion_bert_try env sentence classify_ext do_intensity e) = inl x ->
          label = "nan").
Proof.
  unfold predict_emotion_bert, try_except, ret.
  destruct (bert_try_outcome sentence classify_ext do_intensity e)
    as [(x & e' & Htry) | (idx & e' & Htry)]; rewrite Htry; simpl.
  - exists "nan", e'. split; [reflexivity | intros; reflexivity].
  - eexists _, e'. split; [reflexivity | intros x [=]].
Qed.


End Bert.

Lemma predict_emotion_bert_witness :
  fst (predict_emotion_bert (Stubs.mock_env None (inl (External "connection refused")))
         "Hi" false false tt)
  = inr ("nan", None).
Proof.
  destruct (predict_emotion_bert_never_raises
              (Stubs.mock_env None (inl (External "connection refused")))
              "Hi" false false tt) as (label & e' & Heq & Hnan).
  rewrite Heq. cbn [fst].
  now rewrite (Hnan (External "connection refused") eq_refl).
Defined.

Lemma label_map_dom (idx : Z) :
  idx ∈ [0; 1; 2; 3; 4; 5; 6; 7; 8; 9; 10; 11; 12; 13; 14; 15; 16; 17; 18; 19;
         20; 21; 22; 23; 24; 25; 26; 27]
  \/ _LABEL_MAP !! idx = None.
Proof.
  match goal with |- ?x ∈ ?l \/ _ => destruct (decide (x ∈ l)) as [Hin | Hout] end.
  - now left.
  - right. apply not_elem_of_list_to_map_1. exact Hout.
Qed.

(** The collapse of every class index but 11 lands in the basic
    vocabulary; an index outside the table collapses to ["neutral"]. *)
Lemma basic_collapse_in_vocabulary (idx : Z) :
  idx <> 11 -> In (label_for idx false false) BASIC_LABELS.
Proof.
  intros Hne. apply py_in_In. unfold label_for. cbn [negb andb].
  destruct (label_map_dom idx) as [Hin | Hnone].
  - repeat (apply elem_of_cons in Hin as [-> | Hin];
            [first [congruence | vm_compute; reflexivity] |]).
    now apply elem_of_nil in Hin.
  - rewrite Hnone. vm_compute. reflexivity.
Qed.

Section Vocabulary.

Context {E : Type} (env : Env E).

Lemma predict_llama_label (sentence : string) (classify_ext do_intensity : bool)
    (e e' : E) (emo : string) (score : option Q) :
  predict_emotion_llama env sentence classify_ext do_intensity e = (inr (emo, score), e') ->
  exists allowed,
    EMOTION_TIERS !! tier_of classify_ext do_intensity = Some allowed /\ In emo allowed.
Proof.
  unfold predict_emotion_llama, bind, lift_res, ret.
  rewrite tier_lookup.
  match goal with |- context [_call_llama env ?msgs e] =>
    destruct (_call_llama env msgs e) as [[x | content] e1] end; [discriminate |].
  intros [= <- _ _]. eexists. split; [reflexivity |].
  match goal with |- context [py_in ?p ?l] => destruct (py_in p l) eqn:Hin end; simpl.
  - now apply py_in_In.
  - eapply neutral_in_tier. apply tier_lookup.
Qed.

Lemma review_llama_label (sentence predicted actual : string)
    (classify_ext do_intensity : bool) (e e' : E) (emo : string) (score : option Q) :
  review_emotion_llama env sentence predicted actual classify_ext do_intensity e
  = (inr (emo, score), e') ->
  exists allowed,
    EMOTION_TIERS !! tier_of classify_ext do_intensity = Some allowed
    /\ (In emo allowed \/ emo = predicted).
Proof.
  unfold review_emotion_llama, bind, lift_res, ret.
  rewrite tier_lookup.
  match goal with |- context [_call_llama env ?msgs e] =>
    destruct (_call_llama env msgs e) as [[x | content] e1] end; [discriminate |].
  intros [= <- _ _]. eexists. split; [reflexivity |].
  match goal with |- context [py_in ?p ?l] => destruct (py_in p l) eqn:Hin end; simpl.
  - left. now apply py_in_In.
  - now right.
Qed.


End Vocabulary.




End ClassifierFacts.

(** ** The plan gate *)

Module PlanGateFacts.

Import PyStr PlanGate Spec StrFacts.

(** The keys popped before the check are not the ones it reads. *)
Lemma popped_lookup (payload : gmap string value) (k : string) :
  k = "duration_sec" \/ k = "src" ->
  delete "classifier"
    (pop_keys ["translate"; "classify"; "classify_ext"; "intensity"] payload) !! k
  = payload !! k.
Proof.
  intros [-> | ->]; unfold pop_keys; cbn [fold_left];
    rewrite !lookup_delete_ne by discriminate; reflexivity.
Qed.

Lemma over_limit_raises (duration : value) (cap : Z) (x : Exn) :
  over_limit duration cap = inl x -> x = TypeError.
Proof. destruct duration; cbn; congruence. Qed.

Lemma over_limit_spec (duration : option value) (cap : Z) :
  over_limit (default VNone duration) cap = inr true <-> exceeds duration cap.
Proof.
  destruct duration as [[ | b | z | q | s] |]; cbn.
  - split; [discriminate | tauto].
  - rewrite <- Z.ltb_lt. split; [now intros [= ->] | now intros ->].
  - rewrite <- Z.ltb_lt. split; [now intros [= ->] | now intros ->].
  - rewrite <- Qlt_bool_iff. split; [now intros [= ->] | now intros ->].
  - split; [discriminate | tauto].
  - split; [discriminate | tauto].
Qed.

Lemma enforce_raises_quota_iff (payload : gmap string value) (plan : Plan) :
  (exists detail, enforce payload plan = inl (HTTPException 403 detail))
  <-> exceeds (payload !! "duration_sec") (max_seconds (RULES plan)).
Proof.
  unfold enforce.
  rewrite (popped_lookup payload "duration_sec") by now left.
  rewrite (popped_lookup payload "src") by now right.
  set (p := delete "classifier" _).
  set (choice := default (VStr "llama") _).
  pose proof (over_limit_spec (payload !! "duration_sec") (max_seconds (RULES plan)))
    as Hspec.
  destruct (over_limit _ _) as [x | [|]] eqn:Hover; cbn [rbind].
  - apply over_limit_raises in Hover as ->. split.
    + intros [detail [=]].
    + intros H. apply Hspec in H. discriminate.
  - split; intros; eauto. now apply Hspec.
  - split.
    + intros [detail Hraise]. exfalso.
      destruct (payload !! "src"); cbn [rbind] in Hraise; [| discriminate].
      destruct choice; cbn [rbind value_lower] in Hraise; discriminate.
    + intros H. apply Hspec in H. discriminate.
Qed.

(** C3. For every plan and payload, [enforce] raises the 403
    [HTTPException] exactly when the payload's duration is present and
    strictly exceeds the plan's [max_seconds] (600, 2700 and 14400 seconds);
    a duration equal to the cap is let through, the cap plus one is
    rejected, and 601 seconds on the basic plan is rejected with the detail
    "Basic plan limited to 10-minute audio". *)
Theorem enforce_rejects_exactly_over_cap
    (payload : gmap string value) (plan : Plan) (src : string) :
  let cap := max_seconds (RULES plan) in
  ((exists detail, enforce payload plan = inl (HTTPException 403 detail))
   <-> exceeds (payload !! "duration_sec") cap)
  /\ (max_seconds (RULES basic) = 600
      /\ max_seconds (RULES plus) = 2700
      /\ max_seconds (RULES pro) = 14400)
  /\ (exists out,
        enforce (<["duration_sec" := VInt cap]> {["src" := VStr src]}) plan = inr out
        /\ out !! "inp" = Some (VStr src))
  /\ enforce (<["duration_sec" := VInt (cap + 1)]> {["src" := VStr src]}) plan
     = inl (HTTPException 403 (quota_detail plan))
  /\ enforce (<["duration_sec" := VInt 601]> {["src" := VStr src]}) basic
     = inl (HTTPException 403 "Basic plan limited to 10-minute audio").
Proof.
  intros cap. split; [apply enforce_raises_quota_iff |].
  split; [repeat split |].
  split; [| split].
  - subst cap. destruct plan; eexists; split; reflexivity.
  - subst cap. destruct plan; reflexivity.
  - reflexivity.
Qed.

Lemma enforce_rejects_witness :
  exists detail,
    enforce (<["duration_sec" := VInt 601]> {["src" := VStr "file.mp3"]}) basic
    = inl (HTTPException 403 detail).
Proof.
  apply (enforce_rejects_exactly_over_cap
           (<["duration_sec" := VInt 601]> {["src" := VStr "file.mp3"]}) basic "file.mp3").
  reflexivity.
Defined.

End PlanGateFacts.

(** ** The pipeline: pure helpers *)

Module HelperFacts.

Import PyStr Pipeline.

Lemma sanitize_safe (name : string) : forallb_chars safe_char (sanitize name) = true.
Proof.
  induction name as [| c name IH]; [reflexivity |].
  cbn [sanitize map_chars forallb_chars]. fold (sanitize name). rewrite IH.
  destruct (safe_char c) eqn:Hc; [now rewrite Hc | reflexivity].
Qed.

(** When the stem goes through [re.sub], no character outside
    [[0-9A-Za-z_-]] is left: that is every input but an http(s) URL with a
    non-blank [v] parameter. *)
Lemma make_safe_stem_sanitized (lib : PyLib) (inp stem : string) :
  _make_safe_stem lib inp = inr stem ->
  (is_url inp = false
   \/ exists path query,
        Url.urlparse lib inp = inr (path, query) /\ Url.parse_qs_get lib query "v" = []) ->
  forallb_chars safe_char stem = true.
Proof.
  unfold _make_safe_stem. intros Hstem Hcase.
  assert (Hname : exists name,
             stem = (if is_empty (sanitize name) then "input" else sanitize name)).
  { destruct Hcase as [Hurl | (path & query & Hparse & Hv)].
    - rewrite Hurl in Hstem. cbn [rbind] in Hstem. injection Hstem as <-. eauto.
    - destruct (is_url inp).
      + rewrite Hparse in Hstem. cbn [rbind] in Hstem. rewrite Hv in Hstem.
        cbn [rbind] in Hstem. injection Hstem as <-. eauto.
      + cbn [rbind] in Hstem. injection Hstem as <-. eauto. }
  destruct Hname as [name ->].
  destruct (is_empty (sanitize name)); [reflexivity | apply sanitize_safe].
Qed.

(** C7, at the input where the code departs from it.  The [v] parameter of
    a URL is returned as it stands: for
    [https://youtube.com/watch?v=../x] the stem is [../x], which holds
    characters outside [[0-9A-Za-z_-]], and the artifact path built from
    it leaves the transcript directory. *)
Theorem make_safe_stem_returns_v_unsanitized :
  _make_safe_stem Stubs.pylib "https://youtube.com/watch?v=../x" = inr "../x"
  /\ forallb_chars safe_char "../x" = false
  /\ Paths.joinpath "data/transcripts" ("../x" +:+ "_emotion.csv")
     = "data/transcripts/../x_emotion.csv".
Proof. repeat split; vm_compute; reflexivity. Qed.

Lemma Qlt_bool_true (x y : Q) : (x < y)%Q -> Qlt_bool x y = true.
Proof. apply StrFacts.Qlt_bool_iff. Qed.

Lemma Qlt_bool_false (x y : Q) : (y <= x)%Q -> Qlt_bool x y = false.
Proof.
  intros Hle. destruct (Qlt_bool x y) eqn:Hlt; [| reflexivity].
  apply StrFacts.Qlt_bool_iff in Hlt. exfalso. eapply Qlt_not_le; eassumption.
Qed.

(** Each literal is the double nearest to its decimal: they differ by at
    most half a unit in the last place. *)
Lemma literals_round_decimals :
  (Qabs (lit_0_15 - (15 # 100)) <= 1 # 2 ^ 56)%Q
  /\ (Qabs (lit_0_4 - (4 # 10)) <= 1 # 2 ^ 55)%Q
  /\ (Qabs (lit_0_7 - (7 # 10)) <= 1 # 2 ^ 54)%Q
  /\ (Qabs (lit_0_9 - (9 # 10)) <= 1 # 2 ^ 54)%Q.
Proof. repeat split; vm_compute; discriminate. Qed.

Lemma thresholds_increase :
  (lit_0_15 < lit_0_4)%Q /\ (lit_0_4 < lit_0_7)%Q /\ (lit_0_7 < lit_0_9)%Q.
Proof. repeat split; reflexivity. Qed.

(** C8. With intensity enabled, a score [s] gets the label [neutral] below
    0.15, [mild] from 0.15 to below 0.4, [moderate] from 0.4 to below 0.7,
    [strong] from 0.7 to below 0.9 and [intense] from 0.9 on; an absent
    score gets the empty label.  The thresholds are the float literals of
    the source, [s] is any finite float. *)
Theorem intensity_label_by_threshold (s : Q) :
  ((s < lit_0_15)%Q -> intensity_label true (Some s) = "neutral")
  /\ ((lit_0_15 <= s)%Q -> (s < lit_0_4)%Q -> intensity_label true (Some s) = "mild")
  /\ ((lit_0_4 <= s)%Q -> (s < lit_0_7)%Q -> intensity_label true (Some s) = "moderate")
  /\ ((lit_0_7 <= s)%Q -> (s < lit_0_9)%Q -> intensity_label true (Some s) = "strong")
  /\ ((lit_0_9 <= s)%Q -> intensity_label true (Some s) = "intense")
  /\ intensity_label true None = "".
Proof.
  destruct thresholds_increase as (H1 & H2 & H3).
  unfold intensity_label. repeat split.
  - intros Hlt. now rewrite Qlt_bool_true.
  - intros Hge Hlt. now rewrite (Qlt_bool_false _ _ Hge), Qlt_bool_true.
  - intros Hge Hlt.
    rewrite Qlt_bool_false by (eapply Qle_trans; [apply Qlt_le_weak, H1 | exact Hge]).
    now rewrite (Qlt_bool_false _ _ Hge), Qlt_bool_true.
  - intros Hge Hlt.
    assert (Hge4 : (lit_0_4 <= s)%Q)
      by (eapply Qle_trans; [apply Qlt_le_weak, H2 | exact Hge]).
    rewrite Qlt_bool_false by (eapply Qle_trans; [apply Qlt_le_weak, H1 | exact Hge4]).
    now rewrite (Qlt_bool_false _ _ Hge4), (Qlt_bool_false _ _ Hge), Qlt_bool_true.
  - intros Hge.
    assert (Hge7 : (lit_0_7 <= s)%Q)
      by (eapply Qle_trans; [apply Qlt_le_weak, H3 | exact Hge]).
    assert (Hge4 : (lit_0_4 <= s)%Q)
      by (eapply Qle_trans; [apply Qlt_le_weak, H2 | exact Hge7]).
    rewrite Qlt_bool_false by (eapply Qle_trans; [apply Qlt_le_weak, H1 | exact Hge4]).
    now rewrite (Qlt_bool_false _ _ Hge4), (Qlt_bool_false _ _ Hge7),
      (Qlt_bool_false _ _ Hge).
Qed.

(** The five scores Adapter A can produce, one per label. *)
Lemma intensity_label_witness :
  intensity_label true (Some (0 # 1)) = "neutral"
  /\ intensity_label true (Some (1 # 4)) = "mild"
  /\ intensity_label true (Some (1 # 2)) = "moderate"
  /\ intensity_label true (Some (3 # 4)) = "strong"
  /\ intensity_label true (Some (1 # 1)) = "intense".
Proof.
  split; [apply (intensity_label_by_threshold (0 # 1)); reflexivity |].
  split; [apply (intensity_label_by_threshold (1 # 4)); [discriminate | reflexivity] |].
  split; [apply (intensity_label_by_threshold (1 # 2)); [discriminate | reflexivity] |].
  split; [apply (intensity_label_by_threshold (3 # 4)); [discriminate | reflexivity] |].
  apply (intensity_label_by_threshold (1 # 1)); discriminate.
Defined.

End HelperFacts.

(** ** The orchestrator: which adapter is called when *)

Module CallFacts.

Import PyStr Pipeline Spec StrFacts.

Section Calls.

Context {E : Type} (deps : Deps E).

Let W : Type := World (E * list Call).

Lemma on_ext_record_call (a : Adapter)
    (f : string -> bool -> bool -> M E (string * option Q))
    (t : string) (x i : bool) (w : W) :
  exists o e',
    on_ext (record_call a f t x i) w
    = (o, {| fs := fs w; environ := environ w; logs := logs w;
             ext := (e', trace w ++ [call a t o]) |}).
Proof.
  unfold on_ext, record_call, trace.
  destruct (f t x i (fst (ext w))) as [o e']. eauto.
Qed.

Lemma classify_segment_calls (t : string) (x i use_bert : bool) (w : W) :
  exists calls r w',
    classify_segment (traced deps) t true x i use_bert w = (r, w')
    /\ fs w' = fs w
    /\ trace w' = trace w ++ calls
    /\ step_calls t (negb x && negb i) use_bert calls r.
Proof.
  unfold classify_segment.
  destruct (negb x && negb i) eqn:Hcheap.
  - unfold bind, ret. cbn [predict_emotion_bert traced].
    destruct (on_ext_record_call AdapterB (predict_emotion_bert deps) t x i w)
      as (o & e' & ->).
    exists [call AdapterB t o]. destruct o as [y | r]; do 2 eexists;
      (split; [reflexivity |]); (split; [reflexivity |]); (split; [reflexivity |]).
    + apply (step_cheap t use_bert (inl y)).
    + apply (step_cheap t use_bert (inr r)).
  - destruct use_bert; cbn [negb].
    + unfold bind, ret. cbn [predict_emotion_bert traced].
      destruct (on_ext_record_call AdapterB (predict_emotion_bert deps) t x i w)
        as (o & e' & ->).
      exists [call AdapterB t o]. destruct o as [y | r]; do 2 eexists;
        (split; [reflexivity |]); (split; [reflexivity |]); (split; [reflexivity |]).
      * apply (step_after_fallback t (inl y)).
      * apply (step_after_fallback t (inr r)).
    + unfold try_except, bind, ret. cbn [predict_emotion_llama predict_emotion_bert traced].
      destruct (on_ext_record_call AdapterA (predict_emotion_llama deps) t x i w)
        as (o & e' & ->).
      destruct o as [y | r].
      * unfold log_record. cbn [fs environ logs ext].
        match goal with |- context [on_ext ?c ?w1] =>
          destruct (on_ext_record_call AdapterB (predict_emotion_bert deps) t x i w1)
            as (o2 & e2 & ->) end.
        exists [call AdapterA t (inl y); call AdapterB t o2].
        destruct o2 as [y2 | r2]; do 2 eexists;
          (split; [reflexivity |]); (split; [reflexivity |]);
          (split; [unfold trace; cbn [ext snd]; now rewrite <- app_assoc |]).
        -- apply (step_A_raises t y (inl y2)).
        -- apply (step_A_raises t y (inr r2)).
      * exists [call AdapterA t (inr r)]. do 2 eexists.
        (split; [reflexivity |]); (split; [reflexivity |]); (split; [reflexivity |]).
        apply step_A_returns.
Qed.

Lemma translate_step_calls (do_it : bool) (t l : string) (w : W) :
  exists r w',
    (if do_it then on_ext (translate (traced deps) t l) else ret t) w = (r, w')
    /\ fs w' = fs w /\ trace w' = trace w.
Proof.
  destruct do_it.
  - unfold on_ext, trace. cbn [translate traced]. unfold keep_trace.
    destruct (translate deps t l (fst (ext w))) as [r e']. eauto.
  - unfold ret. eauto.
Qed.

Lemma decisive_app (c1 c2 : list Call) : decisive (c1 ++ c2) = decisive c1 ++ decisive c2.
Proof. unfold decisive. apply flat_map_app. Qed.

Lemma with_flag_inr (b b' : bool) (o : Exn + (string * option Q)) (r : string * option Q) :
  with_flag b o = inr (r, b') -> o = inr r /\ b' = b.
Proof. destruct o; cbn; [discriminate | now intros [= -> ->]]. Qed.

Ltac flag_inv :=
  match goal with
  | H : with_flag _ _ = inr _ |- _ => apply with_flag_inr in H as [-> ->]
  | H : inr _ = with_flag _ _ |- _ => symmetry in H; apply with_flag_inr in H as [-> ->]
  end.

Lemma step_calls_decisive (t : string) (cheap b b' : bool) (calls : list Call)
    (r : string * option Q) :
  step_calls t cheap b calls (inr (r, b')) -> decisive calls = [(t, r)].
Proof.
  intros H. inversion H; subst; try flag_inv; reflexivity.
Qed.

Lemma step_calls_shape (t : string) (cheap b : bool) (calls calls' : list Call)
    (r : string * option Q) (b' : bool) :
  step_calls t cheap b calls (inr (r, b')) ->
  loop_shape cheap b' calls' ->
  loop_shape cheap b (calls ++ calls').
Proof.
  intros H Hrest. unfold loop_shape in *.
  inversion H; subst; try flag_inv; cbn [orb app] in *.
  - constructor; [reflexivity | assumption].
  - now constructor.
  - now constructor.
  - constructor; [reflexivity | assumption].
Qed.

Lemma step_calls_shape_alone (t : string) (cheap b : bool) (calls : list Call)
    (r : Exn + (string * option Q) * bool) :
  step_calls t cheap b calls r -> loop_shape cheap b calls.
Proof.
  intros H. unfold loop_shape.
  inversion H; subst; cbn [orb].
  - repeat constructor.
  - repeat constructor.
  - apply sticky_A_raises. constructor.
  - repeat constructor.
Qed.

Lemma loop_shape_nil (cheap b : bool) : loop_shape cheap b [].
Proof. unfold loop_shape. destruct (cheap || b); constructor. Qed.

Lemma classify_loop_calls (csv_path src_lang : string) (do_translate x i : bool)
    (segments : list Segment) :
  forall (use_bert : bool) (w : W),
  exists calls r w',
    classify_loop (traced deps) csv_path src_lang do_translate true x i segments use_bert w
    = (r, w')
    /\ trace w' = trace w ++ calls
    /\ loop_shape (negb x && negb i) use_bert calls
    /\ (r = inr tt ->
        length (decisive calls) = length segments
        /\ forall old, fs w !! csv_path = Some old ->
             fs w' !! csv_path = Some (old +:+ rows_text i segments (decisive calls))).
Proof.
  induction segments as [| seg rest IH]; intros use_bert w.
  - exists [], (inr tt), w. cbn [classify_loop]. unfold ret.
    split; [reflexivity |]. split; [now rewrite app_nil_r |].
    split; [apply loop_shape_nil |]. intros _. split; [reflexivity |].
    intros old ->. cbn [decisive flat_map rows_text]. now rewrite append_nil_r.
  - cbn [classify_loop]. unfold bind at 1.
    destruct (translate_step_calls (do_translate && negb (String.eqb src_lang "en"))
                (seg_text seg) src_lang w) as (r1 & w1 & -> & Hfs1 & Htr1).
    destruct r1 as [y | translation].
    { exists [], (inl y), w1. split; [reflexivity |]. split; [now rewrite app_nil_r |].
      split; [apply loop_shape_nil | discriminate]. }
    unfold bind at 1.
    destruct (classify_segment_calls translation x i use_bert w1)
      as (calls1 & r2 & w2 & -> & Hfs2 & Htr2 & Hstep).
    destruct r2 as [y | [[emo score] use_bert']].
    { exists calls1, (inl y), w2. split; [reflexivity |].
      split; [now rewrite Htr2, Htr1 |].
      split; [eapply step_calls_shape_alone; eassumption | discriminate]. }
    unfold bind at 1. unfold write_file at 1.
    match goal with |- context [classify_loop _ _ _ _ _ _ _ rest use_bert' ?w3] =>
      destruct (IH use_bert' w3) as (calls2 & r3 & w' & Hrun & Htr3 & Hshape & Hok) end.
    exists (calls1 ++ calls2), r3, w'. split; [exact Hrun |].
    split; [rewrite Htr3; unfold trace at 1; cbn [ext]; fold (trace w2);
            now rewrite Htr2, Htr1, app_assoc |].
    split; [eapply step_calls_shape; eassumption |].
    intros Hr3. destruct (Hok Hr3) as [Hlen Hfile].
    rewrite decisive_app, (step_calls_decisive _ _ _ _ _ _ Hstep).
    split; [cbn [app length]; now rewrite Hlen |].
    intros old Hold. cbn [app rows_text].
    rewrite Hfs2, Hfs1, Hold in Hfile. cbn [default] in Hfile.
    specialize (Hfile _ (lookup_insert_eq _ _ _)).
    rewrite Hfile. now rewrite append_assoc.
Qed.

Lemma quiet_ret {A} (a : A) : quiet (E:=E) (ret a).
Proof. intros w. reflexivity. Qed.

Lemma quiet_raise {A} (x : Exn) : quiet (E:=E) (@raise W A x).
Proof. intros w. reflexivity. Qed.

Lemma quiet_lift_res {A} (r : Exn + A) : quiet (E:=E) (lift_res r).
Proof. intros w. reflexivity. Qed.

Lemma quiet_bind {A B} (c : M W A) (k : A -> M W B) :
  quiet c -> (forall a, quiet (E:=E) (k a)) -> quiet (E:=E) (bind c k).
Proof.
  intros Hc Hk w. unfold bind. specialize (Hc w).
  destruct (c w) as [[x | a] w1]; cbn [snd] in *; [assumption |].
  now rewrite Hk.
Qed.

Lemma quiet_log_record (msg : string) : quiet (E:=E) (log_record msg).
Proof. intros w. reflexivity. Qed.

Lemma quiet_setenv (k v : string) : quiet (E:=E) (setenv k v).
Proof. intros w. reflexivity. Qed.

Lemma quiet_getenv (k d : string) : quiet (E:=E) (getenv k d).
Proof. intros w. reflexivity. Qed.

Lemma quiet_read_file (path : string) : quiet (E:=E) (read_file path).
Proof. intros w. unfold read_file. now destruct (fs w !! path). Qed.

Lemma quiet_open_w (path : string) : quiet (E:=E) (open_w path).
Proof. intros w. reflexivity. Qed.

Lemma quiet_write_file (path data : string) : quiet (E:=E) (write_file path data).
Proof. intros w. reflexivity. Qed.

Lemma quiet_keep_trace {A} (c : M E A) : quiet (E:=E) (on_ext (keep_trace c)).
Proof.
  intros w. unfold on_ext, keep_trace, trace.
  now destruct (c (fst (ext w))).
Qed.

Lemma quiet_detect_lang (t : string) :
  quiet (E:=E) (on_ext (lift_total (detect_lang (traced deps) t))).
Proof.
  intros w. unfold on_ext, lift_total, trace. cbn [detect_lang traced].
  now destruct (detect_lang deps t (fst (ext w))).
Qed.

Lemma quiet_now_isoformat : quiet (E:=E) (on_ext (lift_total (now_isoformat (traced deps)))).
Proof.
  intros w. unfold on_ext, lift_total, trace. cbn [now_isoformat traced].
  now destruct (now_isoformat deps (fst (ext w))).
Qed.

Ltac quiet_step :=
  first
    [ apply quiet_ret | apply quiet_raise | apply quiet_lift_res
    | apply quiet_log_record | apply quiet_setenv | apply quiet_getenv
    | apply quiet_read_file | apply quiet_open_w | apply quiet_write_file
    | apply quiet_keep_trace | apply quiet_detect_lang | apply quiet_now_isoformat
    | apply quiet_bind; [| intros ? ]
    | match goal with
      | |- quiet (if ?b then _ else _) => destruct b
      | |- quiet (match ?x with _ => _ end) => destruct x
      end ].

Lemma quiet_segments_of_text_file (inp : string) :
  quiet (E:=E) (segments_of_text_file (traced deps) inp).
Proof. unfold segments_of_text_file. repeat quiet_step. Qed.

Lemma quiet_segments_of_audio (inp : string) (st et : option string) :
  quiet (E:=E) (segments_of_audio (traced deps) inp st et).
Proof.
  unfold segments_of_audio. cbn [_normalise_source _trim_audio transcribe traced pylib].
  repeat quiet_step.
Qed.

Lemma quiet_segments_of_plain_text (inp : string) (do_translate : bool) :
  quiet (E:=E) (segments_of_plain_text (traced deps) inp do_translate).
Proof.
  unfold segments_of_plain_text. cbn [translate traced]. repeat quiet_step.
Qed.

Lemma quiet_now_stamp : quiet (E:=E) (now_stamp (traced deps)).
Proof. unfold now_stamp. repeat quiet_step. Qed.

Lemma quiet_log_inference (inp : string) (summary : Summary) :
  quiet (E:=E) (log_inference (traced deps) inp summary).
Proof.
  intros w. unfold log_inference.
  match goal with |- trace (snd (?c w)) = _ => assert (Hq : quiet (E:=E) c) end.
  { repeat quiet_step; apply quiet_now_stamp. }
  apply Hq.
Qed.

Lemma appends_quiet_then {A B} (P : list Call -> Prop) (c : M W A) (k : A -> M W B) :
  quiet c -> (forall a, appends (E:=E) P (k a)) -> P [] -> appends (E:=E) P (bind c k).
Proof.
  intros Hc Hk Hnil w. unfold bind. specialize (Hc w).
  destruct (c w) as [[x | a] w1]; cbn [snd] in *.
  - exists []. now rewrite app_nil_r.
  - destruct (Hk a w1) as (calls & Htr & HP). exists calls. now rewrite Htr, Hc.
Qed.

Lemma appends_then_quiet {A B} (P : list Call -> Prop) (c : M W A) (k : A -> M W B) :
  appends P c -> (forall a, quiet (E:=E) (k a)) -> appends (E:=E) P (bind c k).
Proof.
  intros Hc Hk w. unfold bind. destruct (Hc w) as (calls & Htr & HP).
  destruct (c w) as [[x | a] w1]; cbn [snd] in *.
  - now exists calls.
  - exists calls. now rewrite Hk.
Qed.

Lemma request_shape_nil (x i : bool) : request_shape x i [].
Proof. unfold request_shape. destruct (negb x && negb i); constructor. Qed.

Lemma write_artifact_calls (csv_path src_lang : string) (do_translate x i : bool)
    (segments : list Segment) (w : W) :
  exists calls r w',
    write_artifact (traced deps) csv_path src_lang do_translate true x i segments w = (r, w')
    /\ trace w' = trace w ++ calls
    /\ request_shape x i calls
    /\ (r = inr tt ->
        length (decisive calls) = length segments
        /\ fs w' !! csv_path
           = Some (Csv.writerow (headers i) +:+ rows_text i segments (decisive calls))).
Proof.
  unfold write_artifact, bind, open_w, write_file. cbn [fs environ logs ext].
  match goal with |- context [classify_loop _ _ _ _ _ _ _ _ false ?w2] =>
    destruct (classify_loop_calls csv_path src_lang do_translate x i segments false w2)
      as (calls & r & w' & -> & Htr & Hshape & Hok) end.
  exists calls, r, w'. split; [reflexivity |]. split; [exact Htr |].
  split.
  - unfold request_shape, loop_shape in *. now rewrite orb_false_r in Hshape.
  - intros Hr. destruct (Hok Hr) as [Hlen Hfile]. split; [exact Hlen |].
    apply Hfile. cbn [fs]. rewrite lookup_insert_eq. cbn [default].
    now rewrite lookup_insert_eq.
Qed.

(** The calls of a recording run, for the whole request and for its
    classification stage. *)
Lemma calls_of_request
    (inp model csv_path src_lang : string)
    (do_translate do_classify_ext do_intensity : bool)
    (classifier_model start_time end_time : option string) (persist : bool)
    (segments : list Segment) (w : W) :
  (exists calls,
      trace (snd (predict_any (traced deps) inp model do_translate true
                    do_classify_ext do_intensity
                    classifier_model start_time end_time persist w))
      = trace w ++ calls
      /\ (if negb do_classify_ext && negb do_intensity
          then Forall by_B calls else sticky calls))
  /\
  (exists calls r w',
      write_artifact (traced deps) csv_path src_lang do_translate true
        do_classify_ext do_intensity segments w
      = (r, w')
      /\ trace w' = trace w ++ calls
      /\ (if negb do_classify_ext && negb do_intensity
          then Forall by_B calls else sticky calls)
      /\ (r = inr tt ->
          length (decisive calls) = length segments
          /\ fs w' !! csv_path
             = Some (Csv.writerow (headers do_intensity)
                     +:+ rows_text do_intensity segments (decisive calls)))).
Proof.
  rename do_classify_ext into x, do_intensity into i.
  split; [| apply write_artifact_calls].
  assert (Hstage : forall c l s, appends (E:=E) (request_shape x i)
                     (write_artifact (traced deps) c l do_translate true x i s)).
  { intros c l s w0.
    destruct (write_artifact_calls c l do_translate x i s w0)
      as (calls & r & w' & Hrun & Htr & Hshape & _).
    exists calls. now rewrite Hrun. }
  assert (Hall : appends (E:=E) (request_shape x i)
                   (predict_any (traced deps) inp model do_translate true x i
                      classifier_model start_time end_time persist)).
  { unfold predict_any.
    apply appends_quiet_then; [apply quiet_log_record | intros _ | apply request_shape_nil].
    apply appends_quiet_then; [apply quiet_setenv | intros _ | apply request_shape_nil].
    apply appends_quiet_then; [| intros [lang segs] | apply request_shape_nil].
    { destruct (_is_text inp); [apply quiet_segments_of_text_file |].
      destruct (_is_audio inp);
        [apply quiet_segments_of_audio | apply quiet_segments_of_plain_text]. }
    apply appends_quiet_then; [apply quiet_lift_res | intros stem | apply request_shape_nil].
    apply appends_quiet_then; [apply quiet_getenv | intros out_dir | apply request_shape_nil].
    apply appends_then_quiet; [apply Hstage | intros _].
    apply quiet_bind; [apply quiet_now_stamp | intros stamp].
    apply quiet_bind; [| intros _; apply quiet_ret].
    destruct persist; [apply quiet_log_inference | apply quiet_ret]. }
  apply Hall.
Qed.

End Calls.

Section Erasure.

Context {E : Type} (deps : Deps E).

Lemma mirrors_ret {A} (a : A) : mirrors (E:=E) (ret a) (ret a).
Proof. intros w wt H. now split. Qed.

Lemma mirrors_lift_res {A} (r : Exn + A) : mirrors (E:=E) (lift_res r) (lift_res r).
Proof. intros w wt H. now split. Qed.

Lemma mirrors_bind {A B} (c : M (World E) A) ct (k : A -> M (World E) B) kt :
  mirrors c ct -> (forall a, mirrors (k a) (kt a)) -> mirrors (bind c k) (bind ct kt).
Proof.
  intros Hc Hk w wt H. unfold bind.
  destruct (Hc w wt H) as [Hr Hw].
  destruct (c w) as [[x | a] w'], (ct wt) as [[y | b] wt']; cbn [fst snd] in *;
    try discriminate.
  - injection Hr as <-. now split.
  - injection Hr as <-. now apply Hk.
Qed.

Lemma mirrors_try_except {A} (c : M (World E) A) ct (h : Exn -> M (World E) A) ht :
  mirrors c ct -> (forall x, mirrors (h x) (ht x)) ->
  mirrors (try_except c h) (try_except ct ht).
Proof.
  intros Hc Hh w wt H. unfold try_except.
  destruct (Hc w wt H) as [Hr Hw].
  destruct (c w) as [[x | a] w'], (ct wt) as [[y | b] wt']; cbn [fst snd] in *;
    try discriminate.
  - injection Hr as <-. now apply Hh.
  - now split.
Qed.

Lemma mirrors_log_record (msg : string) :
  mirrors (E:=E) (log_record msg) (log_record msg).
Proof.
  intros w wt (Hfs & Henv & Hlogs & Hext). unfold log_record. cbn [fst snd].
  split; [reflexivity |]. repeat split; cbn [fs environ ext logs]; try assumption.
  now rewrite Hlogs.
Qed.

Lemma mirrors_setenv (k v : string) : mirrors (E:=E) (setenv k v) (setenv k v).
Proof.
  intros w wt (Hfs & Henv & Hlogs & Hext). unfold setenv. cbn [fst snd].
  split; [reflexivity |]. repeat split; cbn [fs environ ext logs]; try assumption.
  now rewrite Henv.
Qed.

Lemma mirrors_getenv (k d : string) : mirrors (E:=E) (getenv k d) (getenv k d).
Proof.
  intros w wt H. pose proof H as (Hfs & Henv & Hlogs & Hext).
  unfold getenv. cbn [fst snd]. now rewrite Henv.
Qed.

Lemma mirrors_read_file (path : string) :
  mirrors (E:=E) (read_file path) (read_file path).
Proof.
  intros w wt H. pose proof H as (Hfs & Henv & Hlogs & Hext).
  unfold read_file. rewrite Hfs. now destruct (fs wt !! path).
Qed.

Lemma mirrors_open_w (path : string) : mirrors (E:=E) (open_w path) (open_w path).
Proof.
  intros w wt (Hfs & Henv & Hlogs & Hext). unfold open_w. cbn [fst snd].
  split; [reflexivity |]. repeat split; cbn [fs environ ext logs]; try assumption.
  now rewrite Hfs.
Qed.

Lemma mirrors_write_file (path data : string) :
  mirrors (E:=E) (write_file path data) (write_file path data).
Proof.
  intros w wt (Hfs & Henv & Hlogs & Hext). unfold write_file. cbn [fst snd].
  split; [reflexivity |]. repeat split; cbn [fs environ ext logs]; try assumption.
  now rewrite Hfs.
Qed.

Lemma mirrors_keep_trace {A} (c : M E A) : mirrors (on_ext c) (on_ext (keep_trace c)).
Proof.
  intros w wt (Hfs & Henv & Hlogs & Hext). unfold on_ext, keep_trace. rewrite Hext.
  destruct (c (fst (ext wt))) as [r e']. cbn [fst snd]. split; [reflexivity |].
  repeat split; assumption.
Qed.

Lemma mirrors_record_call (a : Adapter)
    (f : string -> bool -> bool -> M E (string * option Q)) (t : string) (x i : bool) :
  mirrors (on_ext (f t x i)) (on_ext (record_call a f t x i)).
Proof.
  intros w wt (Hfs & Henv & Hlogs & Hext). unfold on_ext, record_call. rewrite Hext.
  destruct (f t x i (fst (ext wt))) as [r e']. cbn [fst snd]. split; [reflexivity |].
  repeat split; assumption.
Qed.

Lemma mirrors_detect_lang (t : string) :
  mirrors (on_ext (lift_total (detect_lang deps t)))
          (on_ext (lift_total (detect_lang (traced deps) t))).
Proof.
  intros w wt (Hfs & Henv & Hlogs & Hext). unfold on_ext, lift_total.
  cbn [detect_lang traced]. rewrite Hext.
  destruct (detect_lang deps t (fst (ext wt))) as [r e']. cbn [fst snd].
  split; [reflexivity |]. repeat split; assumption.
Qed.

Lemma mirrors_now_isoformat :
  mirrors (on_ext (lift_total (now_isoformat deps)))
          (on_ext (lift_total (now_isoformat (traced deps)))).
Proof.
  intros w wt (Hfs & Henv & Hlogs & Hext). unfold on_ext, lift_total.
  cbn [now_isoformat traced]. rewrite Hext.
  destruct (now_isoformat deps (fst (ext wt))) as [r e']. cbn [fst snd].
  split; [reflexivity |]. repeat split; assumption.
Qed.

Ltac mirror_step :=
  first
    [ apply mirrors_ret | apply mirrors_lift_res
    | apply mirrors_log_record | apply mirrors_setenv | apply mirrors_getenv
    | apply mirrors_read_file | apply mirrors_open_w | apply mirrors_write_file
    | apply mirrors_keep_trace | apply mirrors_record_call
    | apply mirrors_detect_lang | apply mirrors_now_isoformat
    | apply mirrors_bind; [| intros ? ]
    | apply mirrors_try_except; [| intros ? ]
    | match goal with
      | |- mirrors (if ?b then _ else _) _ => destruct b
      | |- mirrors (match ?x with _ => _ end) _ => destruct x
      end ].

Lemma mirrors_classify_loop (csv_path src_lang : string)
    (do_translate do_classify x i : bool) (segments : list Segment) :
  forall use_bert,
    mirrors (classify_loop deps csv_path src_lang do_translate do_classify x i
               segments use_bert)
            (classify_loop (traced deps) csv_path src_lang do_translate do_classify x i
               segments use_bert).
Proof.
  induction segments as [| seg rest IH]; intros use_bert; cbn [classify_loop].
  - apply mirrors_ret.
  - apply mirrors_bind; [cbn [translate traced]; repeat mirror_step | intros translation].
    apply mirrors_bind;
      [unfold classify_segment;
       cbn [predict_emotion_llama predict_emotion_bert traced]; repeat mirror_step |].
    intros [[emo score] use_bert'].
    apply mirrors_bind; [apply mirrors_write_file | intros _; apply IH].
Qed.

Lemma mirrors_now_stamp : mirrors (now_stamp deps) (now_stamp (traced deps)).
Proof. unfold now_stamp. repeat mirror_step. Qed.

Lemma mirrors_log_inference (inp : string) (summary : Summary) :
  mirrors (log_inference deps inp summary) (log_inference (traced deps) inp summary).
Proof.
  intros w wt H. pose proof H as (Hfs & _). unfold log_inference.
  cbn [HISTORY_FILE traced]. rewrite Hfs.
  match goal with |- fst (?c w) = fst (?ct wt) /\ _ => assert (Hc : mirrors c ct) end.
  { repeat mirror_step; apply mirrors_now_stamp. }
  now apply Hc.
Qed.

Lemma mirrors_predict_any (inp model : string) (do_translate do_classify x i : bool)
    (cm st et : option string) (persist : bool) :
  mirrors (predict_any deps inp model do_translate do_classify x i cm st et persist)
          (predict_any (traced deps) inp model do_translate do_classify x i cm st et
             persist).
Proof.
  unfold predict_any.
  apply mirrors_bind; [apply mirrors_log_record | intros _].
  apply mirrors_bind; [apply mirrors_setenv | intros _].
  apply mirrors_bind; [| intros [lang segs]].
  { unfold segments_of_text_file, segments_of_audio, segments_of_plain_text.
    cbn [translate _normalise_source _trim_audio transcribe pylib traced].
    repeat mirror_step. }
  cbn [pylib traced].
  apply mirrors_bind; [apply mirrors_lift_res | intros stem].
  apply mirrors_bind; [apply mirrors_getenv | intros out_dir].
  apply mirrors_bind;
    [unfold write_artifact;
     apply mirrors_bind; [apply mirrors_open_w | intros _];
     apply mirrors_bind; [apply mirrors_write_file | intros _];
     apply mirrors_classify_loop | intros _].
  apply mirrors_bind; [apply mirrors_now_stamp | intros stamp].
  apply mirrors_bind; [| intros _; apply mirrors_ret].
  destruct persist; [apply mirrors_log_inference | apply mirrors_ret].
Qed.

Lemma mirrors_write_artifact (csv_path src_lang : string)
    (do_translate do_classify x i : bool) (segments : list Segment) :
  mirrors (write_artifact deps csv_path src_lang do_translate do_classify x i segments)
          (write_artifact (traced deps) csv_path src_lang do_translate do_classify x i
             segments).
Proof.
  unfold write_artifact.
  apply mirrors_bind; [apply mirrors_open_w | intros _].
  apply mirrors_bind; [apply mirrors_write_file | intros _].
  apply mirrors_classify_loop.
Qed.

Lemma erases_recording (w : World E) : erases w (recording w).
Proof. now repeat split. Qed.


End Erasure.


(** The scenario of the specification: Adapter A raises on the first of
    three segments; all three rows carry Adapter B's ["sad"], and Adapter A,
    which would have answered, is not called a second time. *)
Example sticky_fallback_scenario :
  let segments := map text_segment ["One."; "Two."; "Three."] in
  let run := write_artifact (traced Stubs.flaky_deps) "out.csv" "en" false true true false
               segments (recording (Stubs.empty_world 0%nat)) in
  fst run = inr tt
  /\ map adapter (trace (snd run)) = [AdapterA; AdapterB; AdapterB; AdapterB]
  /\ fst (ext (snd run)) = 1%nat
  /\ rbind (match fs (snd run) !! "out.csv" with
            | Some content => Csv.reader content
            | None => inl (FileNotFoundError "out.csv")
            end) (fun rows => inr (map (fun row => nth 4 row "") rows))
     = inr ["emotion"; "sad"; "sad"; "sad"].
Proof. vm_compute. repeat split; reflexivity. Qed.

End CallFacts.

(** ** The orchestrator: determinism of the artifact *)

Module IdempotenceFacts.

Import PyStr Pipeline Spec StrFacts.

Section Idempotence.

Context {E : Type} (deps : Deps E).
Context (fA fB : string -> bool -> bool -> string * option Q).
Context (csv_path src_lang : string) (do_translate do_classify x i : bool).

Hypothesis stub_A : forall t ext int e, predict_emotion_llama deps t ext int e = (inr (fA t ext int), e).
Hypothesis stub_B : forall t ext int e, predict_emotion_bert deps t ext int e = (inr (fB t ext int), e).
Hypothesis identity_translation : forall t l e, translate deps t l e = (inr t, e).

Lemma on_ext_pure {A} (c : M E A) (a : A) (w : World E) :
  (forall e, c e = (inr a, e)) -> on_ext c w = (inr a, w).
Proof. intros H. unfold on_ext. rewrite H. now destruct w. Qed.

Lemma classify_segment_stub (t : string) (w : World E) :
  classify_segment deps t do_classify x i false w
  = (inr (stub_result fA fB do_classify x i t, false), w).
Proof.
  unfold classify_segment, stub_result.
  destruct do_classify; [| reflexivity].
  destruct (negb x && negb i).
  - unfold bind. now rewrite (on_ext_pure _ (fB t x i)) by (intros; apply stub_B).
  - cbn [negb]. unfold try_except, bind.
    now rewrite (on_ext_pure _ (fA t x i)) by (intros; apply stub_A).
Qed.

Lemma translation_stub (t : string) (w : World E) :
  (if do_translate && negb (String.eqb src_lang "en")
   then on_ext (translate deps t src_lang) else ret t) w = (inr t, w).
Proof.
  destruct (do_translate && negb (String.eqb src_lang "en")); [| reflexivity].
  apply on_ext_pure. intros. apply identity_translation.
Qed.

Lemma classify_loop_stub (segments : list Segment) :
  forall (w : World E) (old : string),
    fs w !! csv_path = Some old ->
    exists w',
      classify_loop deps csv_path src_lang do_translate do_classify x i segments false w
      = (inr tt, w')
      /\ fs w' !! csv_path
         = Some (old +:+ rows_bytes (stub_rows fA fB do_classify x i segments)).
Proof.
  induction segments as [| seg rest IH]; intros w old Hold.
  - exists w. split; [reflexivity |]. cbn. now rewrite append_nil_r.
  - cbn [classify_loop]. unfold bind at 1. rewrite translation_stub.
    unfold bind at 1. rewrite classify_segment_stub.
    destruct (stub_result fA fB do_classify x i (seg_text seg)) as [emo score] eqn:Hres.
    unfold bind at 1. unfold write_file at 1.
    match goal with |- context [classify_loop _ _ _ _ _ _ _ rest false ?w1] =>
      destruct (IH w1 (old +:+ Csv.writerow (make_row seg (seg_text seg) emo score i)))
        as (w' & Hrun & Hfile) end.
    { cbn [fs]. rewrite Hold. apply lookup_insert_eq. }
    exists w'. split; [exact Hrun |]. rewrite Hfile.
    unfold stub_rows. cbn [map rows_bytes fold_right]. rewrite Hres. cbn [fst snd].
    now rewrite append_assoc.
Qed.

Lemma write_artifact_stub (segments : list Segment) (w : World E) :
  exists w',
    write_artifact deps csv_path src_lang do_translate do_classify x i segments w
    = (inr tt, w')
    /\ fs w' !! csv_path
       = Some (artifact_text i (stub_rows fA fB do_classify x i segments)).
Proof.
  unfold write_artifact, bind, open_w, write_file. cbn [fs environ logs ext].
  match goal with |- context [classify_loop _ _ _ _ _ _ _ _ false ?w2] =>
    destruct (classify_loop_stub segments w2 (Csv.writerow (headers i)))
      as (w' & Hrun & Hfile) end.
  { cbn [fs]. rewrite lookup_insert_eq. cbn [default]. now rewrite lookup_insert_eq. }
  exists w'. split; [exact Hrun | exact Hfile].
Qed.

End Idempotence.



End IdempotenceFacts.

(** ** The orchestrator: the classifier preference *)

Module PreferenceFacts.

Import PyStr Pipeline Spec.

Section Blind.

Context {E : Type} (deps : Deps E).

Lemma blind_ret {A} (a : A) : log_blind (E:=E) (ret a).
Proof. intros l1 l2 w1 w2 H. now split. Qed.

Lemma blind_raise {A} (x : Exn) : log_blind (E:=E) (@raise _ A x).
Proof. intros l1 l2 w1 w2 H. now split. Qed.

Lemma blind_lift_res {A} (r : Exn + A) : log_blind (E:=E) (lift_res r).
Proof. intros l1 l2 w1 w2 H. now split. Qed.

Lemma blind_bind {A B} (c : M (World E) A) (k : A -> M (World E) B) :
  log_blind c -> (forall a, log_blind (k a)) -> log_blind (bind c k).
Proof.
  intros Hc Hk l1 l2 w1 w2 H. unfold bind.
  destruct (Hc l1 l2 w1 w2 H) as [Hr Hw].
  destruct (c w1) as [[x | a] w1'], (c w2) as [[y | b] w2']; cbn [fst snd] in *;
    try discriminate.
  - injection Hr as <-. now split.
  - injection Hr as <-. now apply Hk.
Qed.

Lemma blind_try_except {A} (c : M (World E) A) (h : Exn -> M (World E) A) :
  log_blind c -> (forall x, log_blind (h x)) -> log_blind (try_except c h).
Proof.
  intros Hc Hh l1 l2 w1 w2 H. unfold try_except.
  destruct (Hc l1 l2 w1 w2 H) as [Hr Hw].
  destruct (c w1) as [[x | a] w1'], (c w2) as [[y | b] w2']; cbn [fst snd] in *;
    try discriminate.
  - injection Hr as <-. now apply Hh.
  - now split.
Qed.

Lemma blind_on_ext {A} (c : M E A) : log_blind (on_ext c).
Proof.
  intros l1 l2 w1 w2 (Hfs & Henv & Hext & Hlogs). unfold on_ext. rewrite Hext.
  destruct (c (ext w2)) as [r e']. cbn [fst snd]. split; [reflexivity |].
  repeat split; assumption.
Qed.

Lemma blind_log_record (msg : string) : log_blind (E:=E) (log_record msg).
Proof.
  intros l1 l2 w1 w2 (Hfs & Henv & Hext & rest & H1 & H2). unfold log_record.
  cbn [fst snd]. split; [reflexivity |].
  repeat split; cbn [fs environ ext logs]; try assumption.
  exists (rest ++ [msg]). rewrite H1, H2. now rewrite !app_assoc.
Qed.

Lemma blind_setenv (k v : string) : log_blind (E:=E) (setenv k v).
Proof.
  intros l1 l2 w1 w2 (Hfs & Henv & Hext & Hlogs). unfold setenv. cbn [fst snd].
  split; [reflexivity |]. repeat split; cbn [fs environ ext logs]; try assumption.
  now rewrite Henv.
Qed.

Lemma blind_getenv (k d : string) : log_blind (E:=E) (getenv k d).
Proof.
  intros l1 l2 w1 w2 H. pose proof H as (Hfs & Henv & Hext & Hlogs).
  unfold getenv. cbn [fst snd]. now rewrite Henv.
Qed.

Lemma blind_read_file (path : string) : log_blind (E:=E) (read_file path).
Proof.
  intros l1 l2 w1 w2 H. pose proof H as (Hfs & Henv & Hext & Hlogs).
  unfold read_file. rewrite Hfs. now destruct (fs w2 !! path).
Qed.

Lemma blind_open_w (path : string) : log_blind (E:=E) (open_w path).
Proof.
  intros l1 l2 w1 w2 (Hfs & Henv & Hext & Hlogs). unfold open_w. cbn [fst snd].
  split; [reflexivity |]. repeat split; cbn [fs environ ext logs]; try assumption.
  now rewrite Hfs.
Qed.

Lemma blind_write_file (path data : string) : log_blind (E:=E) (write_file path data).
Proof.
  intros l1 l2 w1 w2 (Hfs & Henv & Hext & Hlogs). unfold write_file. cbn [fst snd].
  split; [reflexivity |]. repeat split; cbn [fs environ ext logs]; try assumption.
  now rewrite Hfs.
Qed.

Ltac blind_step :=
  first
    [ apply blind_ret | apply blind_raise | apply blind_lift_res
    | apply blind_on_ext | apply blind_log_record | apply blind_setenv
    | apply blind_getenv | apply blind_read_file | apply blind_open_w
    | apply blind_write_file
    | apply blind_bind; [| intros ? ]
    | apply blind_try_except; [| intros ? ]
    | match goal with
      | |- log_blind (if ?b then _ else _) => destruct b
      | |- log_blind (match ?x with _ => _ end) => destruct x
      end ].

Lemma blind_classify_loop (csv_path src_lang : string)
    (do_translate do_classify x i : bool) (segments : list Segment) :
  forall use_bert,
    log_blind (classify_loop deps csv_path src_lang do_translate do_classify x i
                 segments use_bert).
Proof.
  induction segments as [| seg rest IH]; intros use_bert; cbn [classify_loop].
  - apply blind_ret.
  - apply blind_bind; [repeat blind_step | intros translation].
    apply blind_bind; [unfold classify_segment; repeat blind_step |].
    intros [[emo score] use_bert'].
    apply blind_bind; [apply blind_write_file | intros _; apply IH].
Qed.

Lemma blind_now_stamp : log_blind (now_stamp deps).
Proof. unfold now_stamp. repeat blind_step. Qed.

Lemma blind_log_inference (inp : string) (summary : Summary) :
  log_blind (log_inference deps inp summary).
Proof.
  intros l1 l2 w1 w2 H. pose proof H as (Hfs & _). unfold log_inference.
  rewrite Hfs.
  match goal with |- fst (?c w1) = _ /\ _ => assert (Hc : log_blind c) end.
  { repeat blind_step; apply blind_now_stamp. }
  now apply Hc.
Qed.

Lemma blind_segments (inp : string) (do_translate : bool) (st et : option string) :
  log_blind (if _is_text inp then segments_of_text_file deps inp
             else if _is_audio inp then segments_of_audio deps inp st et
             else segments_of_plain_text deps inp do_translate).
Proof.
  unfold segments_of_text_file, segments_of_audio, segments_of_plain_text.
  repeat blind_step.
Qed.

End Blind.

Section Preference.

Context {E : Type} (deps : Deps E).

Lemma bind_log_record {A} (msg : string) (k : unit -> M (World E) A) (w : World E) :
  bind (log_record msg) k w
  = k tt {| fs := fs w; environ := environ w; logs := logs w ++ [msg]; ext := ext w |}.
Proof. reflexivity. Qed.

Lemma blind_after_start (inp model : string) (do_translate do_classify x i : bool)
    (st et : option string) (persist : bool) (c1 c2 : option string) (w : World E) :
  let run c := predict_any deps inp model do_translate do_classify x i c st et persist w in
  fst (run c1) = fst (run c2)
  /\ agree (logs w ++ [start_message inp model c1]) (logs w ++ [start_message inp model c2])
       (snd (run c1)) (snd (run c2)).
Proof.
  intros run. subst run. unfold predict_any. do 2 rewrite bind_log_record.
  match goal with |- context [bind (setenv ?k ?v) ?rest] =>
    set (body := bind (setenv k v) rest) end.
  assert (Hbody : log_blind body).
  { subst body.
    apply blind_bind; [apply blind_setenv | intros _].
    apply blind_bind; [apply blind_segments | intros [lang segs]].
    apply blind_bind; [apply blind_lift_res | intros stem].
    apply blind_bind; [apply blind_getenv | intros out_dir].
    apply blind_bind;
      [unfold write_artifact;
       apply blind_bind; [apply blind_open_w | intros _];
       apply blind_bind; [apply blind_write_file | intros _];
       apply blind_classify_loop | intros _].
    apply blind_bind; [apply blind_now_stamp | intros stamp].
    apply blind_bind; [| intros _; apply blind_ret].
    destruct persist; [apply blind_log_inference | apply blind_ret]. }
  apply Hbody. repeat split; cbn [fs environ ext logs].
  exists []. now rewrite !app_nil_r.
Qed.

End Preference.

Import PlanGate.

Lemma pop_inserted_classifier (payload : gmap string value) (v : value) :
  delete "classifier"
    (pop_keys ["translate"; "classify"; "classify_ext"; "intensity"]
       (<["classifier" := v]> payload))
  = delete "classifier"
      (pop_keys ["translate"; "classify"; "classify_ext"; "intensity"] payload).
Proof.
  unfold pop_keys. cbn [fold_left]. apply map_eq. intros k.
  rewrite !lookup_delete, lookup_insert. repeat case_decide; congruence.
Qed.

Lemma popped_classifier (payload : gmap string value) (v : value) :
  pop_keys ["translate"; "classify"; "classify_ext"; "intensity"]
    (<["classifier" := v]> payload) !! "classifier"
  = Some v.
Proof.
  unfold pop_keys. cbn [fold_left].
  rewrite !lookup_delete_ne by discriminate. apply lookup_insert_eq.
Qed.

(** [enforce] forwards the client's [classifier] field, lower-cased, as
    [classifier_model], and nothing else of its result depends on it. *)
Lemma enforce_forwards_classifier (payload : gmap string value) (plan : Plan)
    (k1 k2 : string) :
  match enforce (<["classifier" := VStr k1]> payload) plan,
        enforce (<["classifier" := VStr k2]> payload) plan with
  | inr out1, inr out2 =>
      out1 !! "classifier_model" = Some (VStr (lower k1))
      /\ out2 !! "classifier_model" = Some (VStr (lower k2))
      /\ delete "classifier_model" out1 = delete "classifier_model" out2
  | inl x1, inl x2 => x1 = x2
  | _, _ => False
  end.
Proof.
  unfold enforce. rewrite !pop_inserted_classifier, !popped_classifier.
  cbn [default from_option].
  set (p := delete "classifier" _).
  destruct (over_limit _ _) as [x | [|]]; cbn [rbind]; [reflexivity | reflexivity |].
  destruct (p !! "src") as [src |]; cbn [rbind]; [| reflexivity].
  cbv [id value_lower rbind].
  rewrite !lookup_insert_eq, !delete_insert_eq. now repeat split.
Qed.

(** C10. The [classifier_model] argument of [predict_any] has no effect
    on the result.  Two runs from the same world that differ in that
    argument only return the same summary record (or raise the same
    exception) and leave the same files (artifact and history), the same
    environment and the same outside state; their logs differ in the one
    record that prints the argument.  [enforce] forwards the client's
    [classifier] field, lower-cased, under that name, and the rest of its
    result does not depend on the field. *)
Theorem classifier_model_is_only_logged {E : Type} (deps : Deps E)
    (inp model : string) (do_translate do_classify do_classify_ext do_intensity : bool)
    (start_time end_time : option string) (persist : bool)
    (c1 c2 : option string) (w : World E)
    (payload : gmap string value) (plan : Plan) (k1 k2 : string) :
  let run c := predict_any deps inp model do_translate do_classify do_classify_ext
                 do_intensity c start_time end_time persist w in
  fst (run c1) = fst (run c2)
  /\ fs (snd (run c1)) = fs (snd (run c2))
  /\ environ (snd (run c1)) = environ (snd (run c2))
  /\ ext (snd (run c1)) = ext (snd (run c2))
  /\ (exists rest,
        logs (snd (run c1)) = (logs w ++ [start_message inp model c1]) ++ rest
        /\ logs (snd (run c2)) = (logs w ++ [start_message inp model c2]) ++ rest)
  /\ match enforce (<["classifier" := VStr k1]> payload) plan,
           enforce (<["classifier" := VStr k2]> payload) plan with
     | inr out1, inr out2 =>
         out1 !! "classifier_model" = Some (VStr (lower k1))
         /\ out2 !! "classifier_model" = Some (VStr (lower k2))
         /\ delete "classifier_model" out1 = delete "classifier_model" out2
     | inl x1, inl x2 => x1 = x2
     | _, _ => False
     end.
Proof.
  intros run.
  destruct (blind_after_start deps inp model do_translate do_classify do_classify_ext
              do_intensity start_time end_time persist c1 c2 w)
    as (Hres & Hfs & Henv & Hext & Hlogs).
  repeat (split; [assumption |]).
  apply enforce_forwards_classifier.
Qed.

Lemma classifier_model_witness :
  let run c := predict_any (Stubs.pipeline_deps "joy" "2025-06-25T10:30:00+00:00")
                 "in/input.csv" "tiny" true true false false c None None true
                 Stubs.csv_world in
  fst (run (Some "bert")) = fst (run (Some "llama"))
  /\ fs (snd (run (Some "bert"))) = fs (snd (run (Some "llama"))).
Proof.
  intros run.
  destruct (classifier_model_is_only_logged
              (Stubs.pipeline_deps "joy" "2025-06-25T10:30:00+00:00")
              "in/input.csv" "tiny" true true false false None None true
              (Some "bert") (Some "llama") Stubs.csv_world ∅ basic "bert" "llama")
    as (Hres & Hfs & _).
  split; assumption.
Defined.

End PreferenceFacts.

(** ** The orchestrator: text files *)

Module TextFileFacts.

Import PyStr Pipeline Spec StrFacts.

Lemma rev_involutive (s : string) : rev (rev s) = s.
Proof.
  unfold rev. rewrite list_ascii_of_string_of_list_ascii, List.rev_involutive.
  apply string_of_list_ascii_of_string.
Qed.

Lemma lstrip_head (s : string) (c : ascii) (rest : string) :
  lstrip s = String c rest -> isspace c = false.
Proof.
  induction s as [| a s IH]; cbn [lstrip]; [discriminate |].
  destruct (isspace a) eqn:Ha; [exact IH |].
  now intros [= <- _].
Qed.

Lemma rev_strip (s : string) : rev (strip s) = lstrip (rev (lstrip s)).
Proof. unfold strip, rstrip. apply rev_involutive. Qed.

Lemma space_line_feed (c : ascii) : isspace c = false -> (code c =? 10) = false.
Proof.
  unfold isspace. destruct (code c =? 10) eqn:Hc; [| reflexivity].
  apply Z.eqb_eq in Hc. rewrite Hc. discriminate.
Qed.

(** On a stripped string, [[.!?]$] looks at the last character only. *)
Lemma punctuate_stripped (u : string) :
  punctuate (strip u)
  = match last_char (strip u) with
    | Some c => if is_terminal c then strip u else strip u +:+ "."
    | None => strip u +:+ "."
    end.
Proof.
  unfold punctuate, ends_with_terminal, last_char.
  destruct (rev (strip u)) as [| c rest] eqn:Hrev; [reflexivity |].
  rewrite rev_strip in Hrev. apply lstrip_head in Hrev.
  rewrite (space_line_feed c Hrev). cbn [andb]. now rewrite orb_false_r.
Qed.

Section TextFiles.

Context {E : Type} (deps : Deps E).

Lemma segments_of_text_file_eq (inp content : string) (w : World E) :
  fs w !! inp = Some content ->
  let raw := strip (translate_newlines content) in
  segments_of_text_file deps inp w
  = (match (if String.eqb (lower (Paths.suffix inp)) ".txt" then inr (txt_sentences raw)
            else rbind (Csv.reader content) (fun rows => inr (csv_sentences rows))) with
     | inr sentences =>
         inr (fst (detect_lang deps raw (ext w)),
              map text_segment (map punctuate (with_fallback raw sentences)))
     | inl x => inl x
     end,
     {| fs := fs w; environ := environ w; logs := logs w;
        ext := snd (detect_lang deps raw (ext w)) |}).
Proof.
  intros Hfile raw. unfold segments_of_text_file.
  unfold bind at 1. unfold read_file at 1. rewrite Hfile. fold raw.
  unfold bind at 1. unfold on_ext, lift_total.
  destruct (detect_lang deps raw (ext w)) as [lang e'] eqn:Hlang. cbn [fst snd].
  destruct (String.eqb (lower (Paths.suffix inp)) ".txt").
  - reflexivity.
  - unfold bind, read_file, lift_res, ret. cbn [fs]. rewrite Hfile.
    now destruct (Csv.reader content).
Qed.

End TextFiles.




(** [test_predict_any_empty_csv_fallback]: a CSV file with a header and no
    row falls back to its trimmed content, punctuated. *)
Example empty_csv_fallback_scenario :
  fst (segments_of_text_file (Stubs.pipeline_deps "joy" "2025-06-25T10:30:00+00:00")
         "in/empty.csv"
         {| fs := {[ "in/empty.csv" := "Text" +:+ Stubs.LF ]}; environ := ∅;
            logs := []; ext := tt |})
  = inr ("en", [text_segment "Text."]).
Proof. vm_compute. reflexivity. Qed.

End TextFileFacts.

(** ** The plan gate: what a request can and cannot change *)

Module PlanRuleFacts.

Import PyStr PlanGate Spec.

(** The payload [enforce] returns, spelled out. *)
Lemma enforce_returns (payload out : gmap string value) (plan : Plan) :
  enforce payload plan = inr out ->
  exists src k,
    payload !! "src" = Some src
    /\ default (VStr "llama") (payload !! "classifier") = VStr k
    /\ out = <["classifier_model" := VStr (lower k)]>
             (<["do_intensity" := VBool (intensity (RULES plan))]>
             (<["do_classify_ext" := VBool (classify_ext (RULES plan))]>
             (<["do_classify" := VBool (classify (RULES plan))]>
             (<["do_translate" := VBool (translate (RULES plan))]>
             (<["model" := VStr (model (RULES plan))]>
             (<["inp" := src]>
                (delete "src" (delete "classifier"
                   (pop_keys ["translate"; "classify"; "classify_ext"; "intensity"]
                      payload))))))))).
Proof.
  unfold enforce.
  rewrite (PlanGateFacts.popped_lookup payload "duration_sec") by now left.
  rewrite (PlanGateFacts.popped_lookup payload "src") by now right.
  assert (Hc : pop_keys ["translate"; "classify"; "classify_ext"; "intensity"] payload
               !! "classifier" = payload !! "classifier").
  { unfold pop_keys. cbn [fold_left]. now rewrite !lookup_delete_ne by discriminate. }
  rewrite Hc.
  destruct (over_limit _ _) as [x | [|]]; cbn [rbind]; try discriminate.
  destruct (payload !! "src") as [src |]; cbn [rbind]; [| discriminate].
  destruct (default (VStr "llama") (payload !! "classifier")) as [| | | | k];
    cbn [rbind value_lower]; try discriminate.
  intros [= <-]. exists src, k. repeat split.
Qed.

Lemma pop_keys_agree (p1 p2 : gmap string value) :
  (forall k, ~ In k ["translate"; "classify"; "classify_ext"; "intensity"] ->
             p1 !! k = p2 !! k) ->
  pop_keys ["translate"; "classify"; "classify_ext"; "intensity"] p1
  = pop_keys ["translate"; "classify"; "classify_ext"; "intensity"] p2.
Proof.
  intros Hagree. unfold pop_keys. cbn [fold_left]. apply map_eq. intros k.
  rewrite !lookup_delete. repeat case_decide; try reflexivity.
  apply Hagree. cbn [In]. intuition congruence.
Qed.

(** X1. Whatever the request says, the payload that [enforce] returns
    carries the plan's model and the plan's four feature switches under
    [model], [do_translate], [do_classify], [do_classify_ext] and
    [do_intensity], the source under [inp], and none of the request's own
    keys [translate], [classify], [classify_ext], [intensity], [classifier]
    and [src]. *)
Theorem enforce_applies_plan_rule (payload out : gmap string value) (plan : Plan) :
  enforce payload plan = inr out ->
  out !! "model" = Some (VStr (model (RULES plan)))
  /\ out !! "do_translate" = Some (VBool (translate (RULES plan)))
  /\ out !! "do_classify" = Some (VBool (classify (RULES plan)))
  /\ out !! "do_classify_ext" = Some (VBool (classify_ext (RULES plan)))
  /\ out !! "do_intensity" = Some (VBool (intensity (RULES plan)))
  /\ out !! "inp" = payload !! "src"
  /\ Forall (fun k => out !! k = None)
       ["translate"; "classify"; "classify_ext"; "intensity"; "classifier"; "src"].
Proof.
  intros Hout. apply enforce_returns in Hout as (src & k & Hsrc & _ & ->).
  repeat split.
  1-6: repeat (rewrite lookup_insert_ne by discriminate);
       rewrite ?lookup_insert_eq; congruence.
  unfold pop_keys. cbn [fold_left].
  repeat constructor; repeat (rewrite lookup_insert_ne by discriminate);
    rewrite !lookup_delete; repeat case_decide; congruence.
Qed.

Lemma enforce_applies_plan_rule_witness :
  exists out,
    enforce (<["intensity" := VBool true]> {["src" := VStr "talk.mp3"]}) basic = inr out
    /\ out !! "do_intensity" = Some (VBool false)
    /\ out !! "model" = Some (VStr "tiny").
Proof.
  eexists. split; [reflexivity |].
  split;
    apply (enforce_applies_plan_rule
             (<["intensity" := VBool true]> {["src" := VStr "talk.mp3"]}) _ basic);
    reflexivity.
Defined.

(** X2. The request's own [translate], [classify], [classify_ext] and
    [intensity] entries have no influence on [enforce]: two payloads that
    agree on every other key get the same payload back, or the same
    exception. *)
Theorem enforce_ignores_client_flags (p1 p2 : gmap string value) (plan : Plan) :
  (forall k, ~ In k ["translate"; "classify"; "classify_ext"; "intensity"] ->
             p1 !! k = p2 !! k) ->
  enforce p1 plan = enforce p2 plan.
Proof.
  intros Hagree. unfold enforce. now rewrite (pop_keys_agree p1 p2 Hagree).
Qed.

Lemma enforce_ignores_client_flags_witness :
  enforce (<["intensity" := VBool true]> (<["classify_ext" := VBool true]>
             {["src" := VStr "talk.mp3"]})) basic
  = enforce {["src" := VStr "talk.mp3"]} basic.
Proof.
  apply (enforce_ignores_client_flags
           (<["intensity" := VBool true]> (<["classify_ext" := VBool true]>
              {["src" := VStr "talk.mp3"]}))
           {["src" := VStr "talk.mp3"]} basic).
  intros k Hk. cbn [In] in Hk.
  rewrite !lookup_insert_ne by (intros <-; apply Hk; auto). reflexivity.
Defined.

(** X3. [enforce] returns normally exactly when the duration is absent,
    [None] or a number that does not exceed the plan's cap, the payload has
    a [src], and [classifier] is absent or a string.  A duration given as a
    string, a missing [src] and a [classifier] that is not a string all
    raise. *)
Theorem enforce_returns_iff (payload : gmap string value) (plan : Plan) :
  (exists out, enforce payload plan = inr out)
  <-> (match payload !! "duration_sec" with
       | Some (VStr _) => False
       | Some (VInt z) => z <= max_seconds (RULES plan)
       | Some (VBool b) => (if b then 1 else 0) <= max_seconds (RULES plan)
       | Some (VFloat q) => (q <= inject_Z (max_seconds (RULES plan)))%Q
       | Some VNone | None => True
       end
       /\ is_Some (payload !! "src")
       /\ match payload !! "classifier" with
          | Some (VStr _) | None => True
          | Some _ => False
          end).
Proof.
  unfold enforce.
  rewrite (PlanGateFacts.popped_lookup payload "duration_sec") by now left.
  rewrite (PlanGateFacts.popped_lookup payload "src") by now right.
  assert (Hc : pop_keys ["translate"; "classify"; "classify_ext"; "intensity"] payload
               !! "classifier" = payload !! "classifier").
  { unfold pop_keys. cbn [fold_left]. now rewrite !lookup_delete_ne by discriminate. }
  rewrite Hc. set (cap := max_seconds (RULES plan)).
  assert (Hover : forall d,
             over_limit (default VNone d) cap = inr false
             <-> match d with
                 | Some (VStr _) => False
                 | Some (VInt z) => z <= cap
                 | Some (VBool b) => (if b then 1 else 0) <= cap
                 | Some (VFloat q) => (q <= inject_Z cap)%Q
                 | Some VNone | None => True
                 end).
  { intros [[| b | z | q | s] |]; cbn; try tauto.
    - rewrite <- Z.ltb_ge. split; [now intros [= ->] | now intros ->].
    - rewrite <- Z.ltb_ge. split; [now intros [= ->] | now intros ->].
    - split.
      + intros [= H]. destruct (Qlt_le_dec (inject_Z cap) q) as [Hlt | Hle]; [| exact Hle].
        apply StrFacts.Qlt_bool_iff in Hlt. congruence.
      + intros Hle. f_equal. now apply HelperFacts.Qlt_bool_false.
    - split; [discriminate | tauto]. }
  specialize (Hover (payload !! "duration_sec")).
  destruct (over_limit _ _) as [x | [|]]; cbn [rbind].
  - split; [intros [out [=]] | intros (Hd & _)]. apply Hover in Hd. discriminate.
  - split; [intros [out [=]] | intros (Hd & _)]. apply Hover in Hd. discriminate.
  - destruct (payload !! "src") as [src |]; cbn [rbind].
    + destruct (payload !! "classifier") as [[| b | z | q | s] |];
        cbn [default from_option rbind value_lower]; cbv [id];
        first [ solve [split; [intros [out [=]] | intros (_ & _ & [])]]
              | split; [intros _; repeat split; [now apply Hover | eauto] | eauto] ].
    + split; [intros [out [=]] | intros (_ & [v [=]] & _)].
Qed.

(** X4. [enforce] passes every other entry of the request through
    unchanged, the trim bounds [start_time] and [end_time] and the duration
    among them. *)
Theorem enforce_keeps_other_fields (payload out : gmap string value) (plan : Plan)
    (k : string) :
  enforce payload plan = inr out ->
  ~ In k ["translate"; "classify"; "classify_ext"; "intensity"; "classifier"; "src";
          "inp"; "model"; "do_translate"; "do_classify"; "do_classify_ext";
          "do_intensity"; "classifier_model"] ->
  out !! k = payload !! k.
Proof.
  intros Hout Hk. apply enforce_returns in Hout as (src & c & _ & _ & ->).
  cbn [In] in Hk. unfold pop_keys. cbn [fold_left].
  rewrite !lookup_insert_ne by (intros <-; apply Hk; tauto).
  rewrite !lookup_delete_ne by (intros <-; apply Hk; tauto). reflexivity.
Qed.

Lemma enforce_keeps_other_fields_witness :
  exists out,
    enforce (<["start_time" := VStr "1:30"]> {["src" := VStr "talk.mp3"]}) pro = inr out
    /\ out !! "start_time" = Some (VStr "1:30").
Proof.
  eexists. split; [reflexivity |].
  rewrite (enforce_keeps_other_fields
             (<["start_time" := VStr "1:30"]> {["src" := VStr "talk.mp3"]}) _ pro
             "start_time"); [reflexivity | reflexivity |].
  cbn [In]. intros H. repeat (destruct H as [H | H]; [discriminate |]). exact H.
Defined.

End PlanRuleFacts.

(** ** Intensity: the words of Adapter A and the labels of the artifact *)

Module IntensityFacts.

Import PyStr Classifier Pipeline.

Lemma py_in_cons_ne (x y : string) (l : list string) :
  x <> y -> py_in x (y :: l) = py_in x l.
Proof.
  intros Hne. unfold py_in. cbn [existsb].
  now rewrite (proj2 (String.eqb_neq x y) Hne).
Qed.

(** X5. The intensity word of Adapter A's reply comes back as the
    intensity label of the artifact row.  When the reply holds
    [Intensity: <word>], the row's label is the lower-cased word if it is
    one of neutral, mild, moderate, strong, intense, with the score cell
    0.00, 0.25, 0.50, 0.75, 1.00; any other word gives the label neutral
    and the score 0.00.  A reply without the pattern gives an absent score,
    an empty score cell and an empty label. *)
Theorem intensity_word_comes_back_as_label (content : string) :
  let score := parse_intensity true content in
  let cell := match score with Some q => fmt_2f q | None => "" end in
  let label := intensity_label true score in
  match search_label "Intensity:" content with
  | Some g =>
      In (lower g, cell, label)
         [("neutral", "0.00", "neutral"); ("mild", "0.25", "mild");
          ("moderate", "0.50", "moderate"); ("strong", "0.75", "strong");
          ("intense", "1.00", "intense")]
      \/ (py_in (lower g) ["neutral"; "mild"; "moderate"; "strong"; "intense"] = false
          /\ cell = "0.00" /\ label = "neutral")
  | None => score = None /\ cell = "" /\ label = ""
  end.
Proof.
  cbv zeta. unfold parse_intensity.
  destruct (search_label "Intensity:" content) as [g |]; [| now repeat split].
  unfold intensity_mapping. rewrite !lookup_insert, lookup_empty.
  repeat case_decide; cbn [default from_option]; cbv [id].
  - left. rewrite <- H. left. reflexivity.
  - left. rewrite <- H0. right. left. reflexivity.
  - left. rewrite <- H1. do 2 right. left. reflexivity.
  - left. rewrite <- H2. do 3 right. left. reflexivity.
  - left. rewrite <- H3. do 4 right. left. reflexivity.
  - right. repeat split.
    rewrite !py_in_cons_ne by congruence. reflexivity.
Qed.

End IntensityFacts.

(** ** Requests: a missing text file, and plain text *)

Module RequestFacts.

Import PyStr Pipeline Spec.

Section Requests.

Context {E : Type} (deps : Deps E).



End Requests.



End RequestFacts.

(** ** The adapters: reply forms and model fallback *)

Module AdapterFacts.

Import PyStr Classifier Spec.

Section Replies.

Context {E : Type} (env : Env E).

Lemma bert_of_index (sentence : string) (x i : bool) (e e' : E) (resp : HttpResponse)
    (r : Exn + Z) :
  bert_post env sentence e = (inr resp, e') ->
  bert_index env resp = r ->
  predict_emotion_bert env sentence x i e
  = (inr (match r with
          | inr idx => (label_for idx x i, None)
          | inl _ => ("nan", None)
          end), e').
Proof.
  intros Hpost Hidx.
  unfold predict_emotion_bert, try_except, predict_emotion_bert_try, bind, lift_res.
  rewrite Hpost. unfold bert_label. rewrite Hidx. now destruct r.
Qed.

(** X8. The three reply forms of the BERT endpoint.  With a 200 response,
    a class index [idx] is honoured when it comes as
    [{"predictions": [idx, ...]}] or as [{"prediction": idx}]; as the
    scalar [{"predictions": idx}] it is honoured too, except for index 0,
    which [predictions or prediction] reads as missing, so that the result
    is the sentinel [nan]. *)
Theorem bert_reply_forms (sentence : string) (x i : bool) (e e' : E)
    (resp : HttpResponse) (idx : Z) (rest : list json) :
  bert_post env sentence e = (inr resp, e') ->
  status_code resp = 200 ->
  (json_loads env (body resp) = Some (JDict [("predictions", JList (JInt idx :: rest))]) ->
   predict_emotion_bert env sentence x i e = (inr (label_for idx x i, None), e'))
  /\ (json_loads env (body resp) = Some (JDict [("prediction", JInt idx)]) ->
      predict_emotion_bert env sentence x i e = (inr (label_for idx x i, None), e'))
  /\ (json_loads env (body resp) = Some (JDict [("predictions", JInt idx)]) ->
      predict_emotion_bert env sentence x i e
      = (inr (if idx =? 0 then "nan" else label_for idx x i, None), e')).
Proof.
  intros Hpost Hstatus.
  assert (Hok : raise_for_status resp = inr tt)
    by (unfold raise_for_status; now rewrite Hstatus).
  repeat split; intros Hjson.
  - rewrite (bert_of_index sentence x i e e' resp (inr idx) Hpost); [reflexivity |].
    unfold bert_index, loads. rewrite Hok, Hjson. reflexivity.
  - rewrite (bert_of_index sentence x i e e' resp (inr idx) Hpost); [reflexivity |].
    unfold bert_index, loads. rewrite Hok, Hjson. reflexivity.
  - destruct (idx =? 0) eqn:Hz.
    + rewrite (bert_of_index sentence x i e e' resp (inl TypeError) Hpost); [reflexivity |].
      unfold bert_index, loads. rewrite Hok, Hjson.
      cbn [rbind dict_get assoc_get String.eqb Ascii.eqb Bool.eqb default from_option].
      cbv [id]. unfold truthy. rewrite Hz. reflexivity.
    + rewrite (bert_of_index sentence x i e e' resp (inr idx) Hpost); [reflexivity |].
      unfold bert_index, loads. rewrite Hok, Hjson.
      cbn [rbind dict_get assoc_get String.eqb Ascii.eqb Bool.eqb default from_option].
      cbv [id]. unfold truthy. rewrite Hz. reflexivity.
Qed.

Lemma call_models_posts (models : list string) (messages : list (string * string))
    (e : E) (tr : list string) :
  let plain := _call_llama_models env models messages e in
  let rec := _call_llama_models (posting env) models messages (e, tr) in
  fst rec = fst plain
  /\ fst (snd rec) = snd plain
  /\ match fst rec with
     | inr content =>
         exists tried m later e0,
           models = tried ++ m :: later
           /\ snd (snd rec) = tr ++ tried ++ [m]
           /\ fst (llama_post env m messages e0) = Some content
     | inl x => x = RuntimeError "No available Llama models" /\ snd (snd rec) = tr ++ models
     end.
Proof.
  cbv zeta. revert e tr. induction models as [| m models IH]; intros e tr.
  - cbn. rewrite app_nil_r. now repeat split.
  - cbn [_call_llama_models posting llama_post fst snd].
    destruct (llama_post env m messages e) as [[content |] e1] eqn:Hpost; cbn [fst snd].
    + repeat split. exists [], m, models, e. rewrite Hpost. now repeat split.
    + destruct (IH e1 (tr ++ [m])) as (Hres & Hext & Htrace).
      repeat split; [exact Hres | exact Hext |].
      destruct (fst (_call_llama_models (posting env) models messages (e1, tr ++ [m])))
        as [x | content].
      * destruct Htrace as [-> ->]. split; [reflexivity |]. now rewrite <- app_assoc.
      * destruct Htrace as (tried & m' & later & e0 & -> & -> & Hanswer).
        exists (m :: tried), m', later, e0. repeat split; [| exact Hanswer].
        now rewrite <- app_assoc.
Qed.


End Replies.

Lemma bert_reply_forms_witness :
  predict_emotion_bert (Stubs.bert_env (JDict [("predictions", JInt 0)])) "I admire you"
    true false tt
  = (inr ("nan", None), tt)
  /\ predict_emotion_bert (Stubs.bert_env (JDict [("predictions", JList [JInt 0])]))
       "I admire you" true false tt
     = (inr ("admiration", None), tt).
Proof.
  split.
  - destruct (bert_reply_forms (Stubs.bert_env (JDict [("predictions", JInt 0)]))
                "I admire you" true false tt tt {| status_code := 200; body := "" |} 0 []
                eq_refl eq_refl) as (_ & _ & Hscalar).
    exact (Hscalar eq_refl).
  - destruct (bert_reply_forms (Stubs.bert_env (JDict [("predictions", JList [JInt 0])]))
                "I admire you" true false tt tt {| status_code := 200; body := "" |} 0 []
                eq_refl eq_refl) as (Hlist & _).
    exact (Hlist eq_refl).
Defined.

(** Of the three models of the double only the last answers: all three
    are posted to, in order. *)
Example fallback_order_scenario :
  _call_llama (posting (Stubs.fallback_env "mistral:7b")) [] (tt, [])
  = (inr "Answer: joy", (tt, ["llama3.2:3b"; "llama3.1:8b"; "mistral:7b"]))
  /\ _call_llama (posting (Stubs.fallback_env "llama3.1:8b")) [] (tt, [])
     = (inr "Answer: joy", (tt, ["llama3.2:3b"; "llama3.1:8b"])).
Proof. split; reflexivity. Qed.

End AdapterFacts.

(** ** Strings: reversal, stripping and splitting *)

Module TextFacts.

Import PyStr StrFacts.

Lemma list_of_append (a b : string) :
  list_ascii_of_string (a +:+ b) = list_ascii_of_string a ++ list_ascii_of_string b.
Proof.
  induction a as [| c a IH]; [reflexivity |].
  change (c :: list_ascii_of_string (a +:+ b)
          = c :: (list_ascii_of_string a ++ list_ascii_of_string b)).
  now rewrite IH.
Qed.

Lemma string_of_app (l1 l2 : list ascii) :
  string_of_list_ascii (l1 ++ l2) = string_of_list_ascii l1 +:+ string_of_list_ascii l2.
Proof.
  induction l1 as [| c l1 IH]; [reflexivity |].
  change (String c (string_of_list_ascii (l1 ++ l2))
          = String c (string_of_list_ascii l1 +:+ string_of_list_ascii l2)).
  now rewrite IH.
Qed.

Lemma rev_rev (s : string) : rev (rev s) = s.
Proof.
  unfold rev. rewrite list_ascii_of_string_of_list_ascii, List.rev_involutive.
  apply string_of_list_ascii_of_string.
Qed.

Lemma rev_cons (c : ascii) (s : string) : rev (String c s) = rev s +:+ String c EmptyString.
Proof. unfold rev. cbn [list_ascii_of_string List.rev]. now rewrite string_of_app. Qed.

Lemma rev_snoc (c : ascii) (s : string) : rev (s +:+ String c EmptyString) = String c (rev s).
Proof.
  unfold rev. rewrite list_of_append. cbn [list_ascii_of_string].
  now rewrite List.rev_app_distr.
Qed.

Lemma rev_append (a b : string) : rev (a +:+ b) = rev b +:+ rev a.
Proof.
  unfold rev. now rewrite list_of_append, List.rev_app_distr, string_of_app.
Qed.

Lemma is_empty_rev (s : string) : is_empty (rev s) = is_empty s.
Proof.
  destruct s as [| c s]; [reflexivity |]. rewrite rev_cons.
  now destruct (rev s).
Qed.

Lemma append_cons (c : ascii) (a b : string) : String c a +:+ b = String c (a +:+ b).
Proof. reflexivity. Qed.

Lemma lstrip_app (x y : string) :
  lstrip (x +:+ y) = if is_empty (lstrip x) then lstrip y else lstrip x +:+ y.
Proof.
  induction x as [| c x IH]; [reflexivity |].
  rewrite append_cons. cbn [lstrip]. destruct (isspace c); [exact IH | reflexivity].
Qed.

(** [rstrip], one character at a time. *)
Lemma rstrip_cons (c : ascii) (s : string) :
  rstrip (String c s)
  = if is_empty (rstrip s) && isspace c then EmptyString else String c (rstrip s).
Proof.
  unfold rstrip. rewrite rev_cons, lstrip_app, is_empty_rev.
  destruct (lstrip (rev s)) as [| a t] eqn:Hl; cbn [is_empty andb].
  - cbn [lstrip]. now destruct (isspace c).
  - now rewrite rev_snoc.
Qed.

Lemma lstrip_idem (s : string) : lstrip (lstrip s) = lstrip s.
Proof.
  induction s as [| c s IH]; [reflexivity |]. cbn [lstrip].
  destruct (isspace c) eqn:Hc; [exact IH |]. cbn [lstrip]. now rewrite Hc.
Qed.

Lemma rstrip_idem (s : string) : rstrip (rstrip s) = rstrip s.
Proof.
  unfold rstrip. now rewrite rev_rev, lstrip_idem.
Qed.

Lemma lstrip_first (s : string) (c : ascii) (t : string) :
  lstrip s = String c t -> isspace c = false.
Proof.
  induction s as [| a s IH]; cbn [lstrip]; [discriminate |].
  destruct (isspace a) eqn:Ha; [exact IH |]. now intros [= <- _].
Qed.

(** A stripped string has no space at either end. *)
Lemma strip_idem (s : string) : strip (strip s) = strip s.
Proof.
  unfold strip.
  assert (Hl : lstrip (rstrip (lstrip s)) = rstrip (lstrip s)).
  { destruct (lstrip s) as [| c t] eqn:Hs; [reflexivity |].
    pose proof (lstrip_first s c t Hs) as Hc.
    rewrite rstrip_cons, Hc, andb_false_r. cbn [lstrip]. now rewrite Hc. }
  now rewrite Hl, rstrip_idem.
Qed.

Lemma forallb_chars_list (f : ascii -> bool) (s : string) :
  forallb_chars f s = forallb f (list_ascii_of_string s).
Proof. induction s as [| c s IH]; [reflexivity |]. cbn. now rewrite IH. Qed.

Lemma forallb_chars_rev (f : ascii -> bool) (s : string) :
  forallb_chars f (rev s) = forallb_chars f s.
Proof.
  rewrite !forallb_chars_list. unfold rev.
  rewrite list_ascii_of_string_of_list_ascii.
  induction (list_ascii_of_string s) as [| c l IH]; [reflexivity |].
  cbn [List.rev forallb]. rewrite forallb_app, IH. cbn [forallb].
  rewrite andb_true_r. apply andb_comm.
Qed.

Lemma forallb_chars_append (f : ascii -> bool) (a b : string) :
  forallb_chars f (a +:+ b) = forallb_chars f a && forallb_chars f b.
Proof. rewrite !forallb_chars_list, list_of_append. apply forallb_app. Qed.

Lemma forallb_chars_lstrip (f : ascii -> bool) (s : string) :
  forallb_chars f s = true -> forallb_chars f (lstrip s) = true.
Proof.
  induction s as [| c s IH]; [reflexivity |]. cbn [lstrip forallb_chars].
  intros [Hc Hs]%andb_prop. destruct (isspace c); [now apply IH |].
  cbn [forallb_chars]. now rewrite Hc, Hs.
Qed.

Lemma forallb_chars_strip (f : ascii -> bool) (s : string) :
  forallb_chars f s = true -> forallb_chars f (strip s) = true.
Proof.
  intros Hs. unfold strip, rstrip. rewrite forallb_chars_rev.
  apply forallb_chars_lstrip. rewrite forallb_chars_rev.
  now apply forallb_chars_lstrip.
Qed.

(** The pieces of [s.split(c)] hold no [c]. *)
Lemma split_go_pieces (c : ascii) (s cur : string) :
  forallb_chars (fun a => negb (Ascii.eqb a c)) cur = true ->
  Forall (fun piece => forallb_chars (fun a => negb (Ascii.eqb a c)) piece = true)
    (split_go c s cur).
Proof.
  revert cur. induction s as [| a s IH]; intros cur Hcur; cbn [split_go].
  - constructor; [now rewrite forallb_chars_rev | constructor].
  - destruct (Ascii.eqb a c) eqn:Ha.
    + constructor; [now rewrite forallb_chars_rev | now apply IH].
    + apply IH. cbn [forallb_chars]. now rewrite Ha, Hcur.
Qed.

Lemma split_pieces (c : ascii) (s : string) :
  Forall (fun piece => forallb_chars (fun a => negb (Ascii.eqb a c)) piece = true)
    (split c s).
Proof. now apply split_go_pieces. Qed.

(** A string without [c] is one piece. *)
Lemma split_go_one (c : ascii) (s cur : string) :
  forallb_chars (fun a => negb (Ascii.eqb a c)) s = true ->
  split_go c s cur = [rev cur +:+ s].
Proof.
  revert cur. induction s as [| a s IH]; intros cur Hs; cbn [split_go].
  - now rewrite append_nil_r.
  - cbn [forallb_chars] in Hs. apply andb_prop in Hs as [Ha Hs].
    apply negb_true_iff in Ha. rewrite Ha, (IH _ Hs), rev_cons, append_assoc.
    reflexivity.
Qed.

Lemma split_one (c : ascii) (s : string) :
  forallb_chars (fun a => negb (Ascii.eqb a c)) s = true -> split c s = [s].
Proof. intros Hs. unfold split. now rewrite (split_go_one c s EmptyString Hs). Qed.

(** Splitting at the first [c]. *)
Lemma split_go_first (c : ascii) (a b cur : string) :
  forallb_chars (fun x => negb (Ascii.eqb x c)) a = true ->
  split_go c (a +:+ String c b) cur = (rev cur +:+ a) :: split c b.
Proof.
  revert cur. induction a as [| x a IH]; intros cur Ha.
  - change (EmptyString +:+ String c b) with (String c b). cbn [split_go].
    now rewrite Ascii.eqb_refl, append_nil_r.
  - rewrite append_cons. cbn [split_go]. cbn [forallb_chars] in Ha.
    apply andb_prop in Ha as [Hx Ha]. apply negb_true_iff in Hx.
    rewrite Hx, (IH _ Ha), rev_cons, append_assoc. reflexivity.
Qed.

Lemma split_first (c : ascii) (a b : string) :
  forallb_chars (fun x => negb (Ascii.eqb x c)) a = true ->
  split c (a +:+ String c b) = a :: split c b.
Proof. intros Ha. unfold split at 1. now rewrite (split_go_first c a b EmptyString Ha). Qed.

(** [filter] with a boolean test. *)
Lemma filter_bool_cons {A} (f : A -> bool) (x : A) (l : list A) :
  filter f (x :: l) = if f x then x :: filter f l else filter f l.
Proof. rewrite filter_cons. now destruct (f x). Qed.

Lemma filter_bool_In {A} (f : A -> bool) (x : A) (l : list A) :
  In x (filter f l) <-> In x l /\ f x = true.
Proof.
  rewrite <- !list_elem_of_In, list_elem_of_filter, Is_true_true. tauto.
Qed.

End TextFacts.

(** ** Configuration lists, artifact names and time strings *)

Module NamingFacts.

Import PyStr Pipeline StrFacts TextFacts.

Lemma lower_char_idem (c : ascii) : lower_char (lower_char c) = lower_char c.
Proof. destruct c as [[] [] [] [] [] [] [] []]; reflexivity. Qed.

Lemma lower_idem (s : string) : lower (lower s) = lower s.
Proof.
  induction s as [| c s IH]; [reflexivity |]. cbn [lower].
  now rewrite lower_char_idem, IH.
Qed.

Lemma lower_char_comma (c : ascii) :
  Ascii.eqb (lower_char c) "," = Ascii.eqb c ",".
Proof. destruct c as [[] [] [] [] [] [] [] []]; reflexivity. Qed.

Lemma lower_no_comma (s : string) :
  forallb_chars (fun a => negb (Ascii.eqb a ",")) (lower s)
  = forallb_chars (fun a => negb (Ascii.eqb a ",")) s.
Proof.
  induction s as [| c s IH]; [reflexivity |]. cbn [lower forallb_chars].
  now rewrite lower_char_comma, IH.
Qed.

Lemma is_empty_lower (s : string) : is_empty (lower s) = is_empty s.
Proof. now destruct s. Qed.

Lemma env_list_entries (raw m : string) :
  In m (Config.env_list raw) ->
  is_empty m = false /\ strip m = m
  /\ forallb_chars (fun a => negb (Ascii.eqb a ",")) m = true.
Proof.
  unfold Config.env_list. intros Hin. apply in_map_iff in Hin as (piece & <- & Hin).
  apply filter_bool_In in Hin as [Hpiece Hkeep]. apply negb_true_iff in Hkeep.
  split; [exact Hkeep |]. split; [apply strip_idem |].
  apply forallb_chars_strip.
  pose proof (split_pieces "," raw) as Hall. rewrite List.Forall_forall in Hall.
  now apply Hall.
Qed.



Lemma safe_not_slash (c : ascii) : safe_char c = true -> Ascii.eqb c "/" = false.
Proof. destruct c as [[] [] [] [] [] [] [] []]; cbv; congruence. Qed.

Lemma safe_no_slash (s : string) :
  forallb_chars safe_char s = true ->
  forallb_chars (fun a => negb (Ascii.eqb a "/")) s = true.
Proof.
  induction s as [| c s IH]; [reflexivity |]. cbn [forallb_chars].
  intros [Hc Hs]%andb_prop. now rewrite (safe_not_slash c Hc), IH.
Qed.

Lemma no_slash_root (s : string) :
  forallb_chars (fun a => negb (Ascii.eqb a "/")) s = true -> Paths.root s = EmptyString.
Proof.
  destruct s as [| c s]; [reflexivity |]. cbn [forallb_chars].
  intros [Hc _]%andb_prop. apply negb_true_iff in Hc.
  unfold Paths.root. cbn [startswith]. rewrite Ascii.eqb_sym in Hc. now rewrite Hc.
Qed.

Lemma artifact_name_proper (stem : string) :
  is_empty (stem +:+ "_emotion.csv") = false
  /\ String.eqb (stem +:+ "_emotion.csv") "." = false.
Proof.
  destruct stem as [| c [| c' s]]; split; try reflexivity.
  - cbn. apply andb_false_r.
  - change (String.eqb (String c (String c' (s +:+ "_emotion.csv"))) "." = false).
    cbn [String.eqb]. apply andb_false_r.
Qed.

(** X11. When the stem goes through the sanitiser (every input but an
    http(s) URL with a non-blank [v] parameter), the artifact is a direct
    child of the transcript directory: its path is that directory's
    components followed by the one component [<stem>_emotion.csv], which
    holds no slash. *)
Theorem artifact_is_child_of_transcript_dir (lib : PyLib) (inp stem out_dir : string) :
  _make_safe_stem lib inp = inr stem ->
  (is_url inp = false
   \/ exists path query,
        Url.urlparse lib inp = inr (path, query) /\ Url.parse_qs_get lib query "v" = []) ->
  let file := stem +:+ "_emotion.csv" in
  forallb_chars (fun a => negb (Ascii.eqb a "/")) file = true
  /\ Paths.joinpath out_dir file
     = Paths.render (Paths.root out_dir) (Paths.parts out_dir ++ [file]).
Proof.
  intros Hstem Hcase file.
  pose proof (HelperFacts.make_safe_stem_sanitized lib inp stem Hstem Hcase) as Hsafe.
  assert (Hfile : forallb_chars (fun a => negb (Ascii.eqb a "/")) file = true).
  { subst file. rewrite forallb_chars_append, (safe_no_slash stem Hsafe). reflexivity. }
  split; [exact Hfile |].
  unfold Paths.joinpath. rewrite (no_slash_root file Hfile). cbn [is_empty].
  unfold Paths.parts at 2. rewrite (split_one _ _ Hfile), filter_bool_cons.
  destruct (artifact_name_proper stem) as [Hne Hdot]. fold file in Hne, Hdot.
  now rewrite Hne, Hdot.
Qed.

Lemma artifact_is_child_witness :
  Paths.joinpath "out" ("my_file_" +:+ "_emotion.csv")
  = Paths.render (Paths.root "out") (Paths.parts "out" ++ ["my_file_" +:+ "_emotion.csv"]).
Proof.
  apply (artifact_is_child_of_transcript_dir Stubs.pylib "/path/to/my file!.mp3"
           "my_file_" "out"); [reflexivity | now left].
Defined.

End NamingFacts.

(** ** Trim bounds: time strings and timestamps *)

Module TimeFacts.

Import PyStr Pipeline StrFacts TextFacts.

(** [_fmt] on a whole number of seconds below one day. *)
Lemma fmt_whole_seconds (q : Q) (T : Z) :
  Qden q = 1%positive -> Qnum q = T -> 0 <= T < 86400 ->
  _fmt q = zero_pad 2 (Z.to_N (T / 3600)) +:+ ":" +:+ zero_pad 2 (Z.to_N (T mod 3600 / 60))
             +:+ ":" +:+ zero_pad 2 (Z.to_N (T mod 3600 mod 60)) +:+ ",000".
Proof.
  intros Hden Hnum HT. unfold _fmt.
  assert (Hus : round_half_even (q * inject_Z 1000000) = T * 1000000).
  { unfold round_half_even. destruct q as [n d]. cbn [Qnum Qden] in *. subst d n.
    cbn [Qmult inject_Z Qnum Qden Pos.mul].
    rewrite Z.mod_1_r, Z.div_1_r. reflexivity. }
  rewrite Hus.
  replace (T * 1000000 / 1000000) with T by (symmetry; apply Z.div_mul; lia).
  replace (T * 1000000 mod 1000000) with 0 by (symmetry; apply Z.mod_mul; lia).
  rewrite (Z.mod_small T 86400) by lia. reflexivity.
Qed.

Lemma two_digits_no_colon (n : N) :
  (n < 100)%N -> forallb_chars (fun a => negb (Ascii.eqb a ":")) (zero_pad 2 n) = true.
Proof.
  intros Hn.
  assert (Hall : forallb (fun k => forallb_chars (fun a => negb (Ascii.eqb a ":"))
                                     (zero_pad 2 (N.of_nat k))) (seq 0 100) = true)
    by (vm_compute; reflexivity).
  rewrite forallb_forall in Hall.
  rewrite <- (N2Nat.id n). apply Hall, in_seq. lia.
Qed.

(** X12. A trim bound written [HH:MM:SS] (hours below 24), [MM:SS] or [SS],
    with two digits per field, comes back from [_fmt (_parse_timestr _)]
    as the same time of day with zero milliseconds: the segment that the
    transcriber places at 0.0 in a clip trimmed from [start_time] is
    stamped with [start_time]. *)
Theorem time_string_round_trip (lib : PyLib) (h m s : N) :
  (forall n, (n < 100)%N -> py_float lib (zero_pad 2 n) = Some (inject_Z (Z.of_N n))) ->
  (h < 24)%N -> (m < 60)%N -> (s < 60)%N ->
  let hh := zero_pad 2 h in
  let mm := zero_pad 2 m in
  let ss := zero_pad 2 s in
  rbind (_parse_timestr lib (hh +:+ ":" +:+ mm +:+ ":" +:+ ss)) (fun t => inr (_fmt t))
  = inr (hh +:+ ":" +:+ mm +:+ ":" +:+ ss +:+ ",000")
  /\ rbind (_parse_timestr lib (mm +:+ ":" +:+ ss)) (fun t => inr (_fmt t))
     = inr ("00:" +:+ mm +:+ ":" +:+ ss +:+ ",000")
  /\ rbind (_parse_timestr lib ss) (fun t => inr (_fmt t))
     = inr ("00:00:" +:+ ss +:+ ",000").
Proof.
  intros Hfloat Hh Hm Hs hh mm ss.
  assert (Hhh : forallb_chars (fun a => negb (Ascii.eqb a ":")) hh = true)
    by (apply two_digits_no_colon; lia).
  assert (Hmm : forallb_chars (fun a => negb (Ascii.eqb a ":")) mm = true)
    by (apply two_digits_no_colon; lia).
  assert (Hss : forallb_chars (fun a => negb (Ascii.eqb a ":")) ss = true)
    by (apply two_digits_no_colon; lia).
  assert (Fh : py_float lib hh = Some (inject_Z (Z.of_N h))) by (apply Hfloat; lia).
  assert (Fm : py_float lib mm = Some (inject_Z (Z.of_N m))) by (apply Hfloat; lia).
  assert (Fs : py_float lib ss = Some (inject_Z (Z.of_N s))) by (apply Hfloat; lia).
  repeat split.
  - unfold _parse_timestr.
    change (hh +:+ ":" +:+ mm +:+ ":" +:+ ss) with (hh +:+ String ":" (mm +:+ String ":" ss)).
    rewrite (split_first ":" hh _ Hhh), (split_first ":" mm _ Hmm), (split_one ":" ss Hss).
    cbn [map all_some]. rewrite Fh, Fm, Fs. cbn [rbind].
    rewrite (fmt_whole_seconds _ (Z.of_N h * 3600 + Z.of_N m * 60 + Z.of_N s));
      [| reflexivity | cbn; lia | lia].
    replace ((Z.of_N h * 3600 + Z.of_N m * 60 + Z.of_N s) / 3600) with (Z.of_N h)
      by (apply (Z.div_unique _ _ _ (Z.of_N m * 60 + Z.of_N s)); lia).
    replace ((Z.of_N h * 3600 + Z.of_N m * 60 + Z.of_N s) mod 3600)
      with (Z.of_N m * 60 + Z.of_N s)
      by (apply (Z.mod_unique _ _ (Z.of_N h)); lia).
    replace ((Z.of_N m * 60 + Z.of_N s) / 60) with (Z.of_N m)
      by (apply (Z.div_unique _ _ _ (Z.of_N s)); lia).
    replace ((Z.of_N m * 60 + Z.of_N s) mod 60) with (Z.of_N s)
      by (apply (Z.mod_unique _ _ (Z.of_N m)); lia).
    rewrite !N2Z.id. fold hh mm ss. reflexivity.
  - unfold _parse_timestr.
    change (mm +:+ ":" +:+ ss) with (mm +:+ String ":" ss).
    rewrite (split_first ":" mm _ Hmm), (split_one ":" ss Hss).
    cbn [map all_some]. rewrite Fm, Fs. cbn [rbind].
    rewrite (fmt_whole_seconds _ (Z.of_N m * 60 + Z.of_N s));
      [| reflexivity | cbn; lia | lia].
    replace ((Z.of_N m * 60 + Z.of_N s) / 3600) with 0
      by (symmetry; apply Z.div_small; lia).
    rewrite (Z.mod_small (Z.of_N m * 60 + Z.of_N s) 3600) by lia.
    replace ((Z.of_N m * 60 + Z.of_N s) / 60) with (Z.of_N m)
      by (apply (Z.div_unique _ _ _ (Z.of_N s)); lia).
    replace ((Z.of_N m * 60 + Z.of_N s) mod 60) with (Z.of_N s)
      by (apply (Z.mod_unique _ _ (Z.of_N m)); lia).
    rewrite !N2Z.id. fold mm ss. reflexivity.
  - unfold _parse_timestr. rewrite (split_one ":" ss Hss).
    cbn [map all_some]. rewrite Fs. cbn [rbind].
    rewrite (fmt_whole_seconds _ (Z.of_N s)); [| reflexivity | reflexivity | lia].
    replace (Z.of_N s / 3600) with 0 by (symmetry; apply Z.div_small; lia).
    rewrite (Z.mod_small (Z.of_N s) 3600) by lia.
    replace (Z.of_N s / 60) with 0 by (symmetry; apply Z.div_small; lia).
    rewrite (Z.mod_small (Z.of_N s) 60) by lia.
    rewrite !N2Z.id. fold ss. reflexivity.
Qed.

Lemma stub_float_two_digits (n : N) :
  (n < 100)%N -> py_float Stubs.pylib (zero_pad 2 n) = Some (inject_Z (Z.of_N n)).
Proof.
  intros Hn.
  assert (Hall : forallb (fun k => match py_float Stubs.pylib (zero_pad 2 (N.of_nat k)) with
                                   | Some q => Qeq_bool q (inject_Z (Z.of_nat k))
                                               && (Qden q =? 1)%positive
                                   | None => false
                                   end) (seq 0 100) = true)
    by (vm_compute; reflexivity).
  rewrite forallb_forall in Hall.
  specialize (Hall (N.to_nat n)). rewrite N2Nat.id in Hall.
  assert (Hin : In (N.to_nat n) (seq 0 100)) by (apply in_seq; lia).
  specialize (Hall Hin).
  destruct (py_float Stubs.pylib (zero_pad 2 n)) as [[num den] |]; [| discriminate].
  apply andb_prop in Hall as [Heq Hden]. cbn [Qden] in Hden.
  apply Pos.eqb_eq in Hden as ->. unfold Qeq_bool in Heq. cbn [Qnum Qden inject_Z] in Heq.
  apply Z.eqb_eq in Heq. rewrite !Z.mul_1_r in Heq.
  rewrite Heq, N_nat_Z. reflexivity.
Qed.

Lemma time_string_round_trip_witness :
  rbind (_parse_timestr Stubs.pylib "01:30:45") (fun t => inr (_fmt t))
  = inr "01:30:45,000".
Proof.
  apply (time_string_round_trip Stubs.pylib 1 30 45 stub_float_two_digits);
    reflexivity.
Defined.

End TimeFacts.

(** ** The legacy inference module *)

Module LegacyFacts.

Import PyStr Inference.

Section Legacy.

Context {E : Type} (b : Backend E).

(** X13. [get_emotion] raises only the [ValueError] of a missing
    configuration, and then before any request is made.  Otherwise it makes
    one POST and returns, whatever the backend does, a label that is in
    [VALID_EMOTIONS] or is the sentinel [nan], together with the prompt it
    built from the sentence.  The valid labels are the vocabulary of the
    pro tier, and the token that [config.py] computes is never empty. *)
Theorem get_emotion_returns_valid_or_nan (sentence : string) (temperature : value) (e : E) :
  (is_empty (API_URL b) || is_empty (TOKEN b) = true ->
   get_emotion b sentence temperature e = (inl ValueError, e))
  /\ (is_empty (API_URL b) || is_empty (TOKEN b) = false ->
      exists label,
        get_emotion b sentence temperature e
        = (inr (label, prompt_of sentence),
           snd (post b (prompt_of sentence) temperature e))
        /\ (In label Config.VALID_EMOTIONS \/ label = "nan"))
  /\ Config.VALID_EMOTIONS = EmotionTiers.PRO_LABELS
  /\ (forall vars, is_empty (Config.TOKEN vars) = false).
Proof.
  split; [| split; [| split]].
  - intros Hconf. unfold get_emotion. now rewrite Hconf.
  - intros Hconf. unfold get_emotion. rewrite Hconf.
    unfold try_except, bind, lift_res, ret.
    destruct (post b (prompt_of sentence) temperature e) as [[x | response] e1];
      cbn [snd]; [eauto |].
    destruct (decoded b response) as [x | result]; [eauto |].
    destruct (rbind (content_of result) _) as [x | content]; [eauto |].
    match goal with |- context [py_in ?emo _] => set (emotion := emo) end.
    destruct (py_in emotion Config.VALID_EMOTIONS) eqn:Hin; cbn [negb].
    + exists emotion. split; [reflexivity |]. left.
      now apply ClassifierFacts.py_in_In.
    + eauto.
  - reflexivity.
  - intros vars. unfold Config.TOKEN, Config.nonblank.
    destruct (Config.LLAMA_TOKEN vars) as [[| c t] |]; cbn [negb is_empty default from_option];
      try reflexivity;
      destruct (vars !! "OPENAI_TOKEN") as [[| c' t'] |]; reflexivity.
Qed.


End Legacy.

Lemma get_emotion_witness :
  exists label,
    get_emotion (Stubs.legacy_backend (inl (External "Network Error")))
      "This sentence will cause an error." (VFloat (1 # 2)) tt
    = (inr (label, prompt_of "This sentence will cause an error."), tt)
    /\ (In label Config.VALID_EMOTIONS \/ label = "nan").
Proof.
  destruct (get_emotion_returns_valid_or_nan
              (Stubs.legacy_backend (inl (External "Network Error")))
              "This sentence will cause an error." (VFloat (1 # 2)) tt) as (_ & Hok & _).
  exact (Hok eq_refl).
Defined.

(** [test_get_emotion_success] and
    [test_get_emotion_invalid_emotion_in_response]. *)
Example get_emotion_scenarios :
  fst (get_emotion (Stubs.legacy_backend
                      (inr (Stubs.chat_reply "Some text before... Answer: joy")))
         "This is a test sentence." (VFloat (1 # 2)) tt)
  = inr ("joy", prompt_of "This is a test sentence.")
  /\ fst (get_emotion (Stubs.legacy_backend (inr (Stubs.chat_reply "Answer: bouncy")))
            "This is another test." (VFloat (1 # 2)) tt)
     = inr ("nan", prompt_of "This is another test.").
Proof. split; vm_compute; reflexivity. Qed.

End LegacyFacts.

(** ** The translator and its cache *)

Module TranslatorFacts.

Import PyStr Translator.

Section Cache.

Context {E Tok Mdl : Type} (hf : Marian E Tok Mdl).

(** X15. A model is loaded once.  When [_load] returns, the pair it
    returns is in the cache under the language's checkpoint and every
    other entry of the cache is as before; loading the same language again
    returns the same pair and changes nothing, so no tokenizer or model is
    loaded a second time. *)
Theorem load_fills_the_cache (src : string) (s s' : State E Tok Mdl) (loaded : Tok * Mdl) :
  _load hf src s = (inr loaded, s') ->
  exists ckpt,
    Config.SUPPORTED_TRANSLATORS !! src = Some ckpt
    /\ _CACHE s' !! ckpt = Some loaded
    /\ (forall other, other <> ckpt -> _CACHE s' !! other = _CACHE s !! other)
    /\ _load hf src s' = (inr loaded, s').
Proof.
  unfold _load. destruct (Config.SUPPORTED_TRANSLATORS !! src) as [ckpt |]; [| discriminate].
  intros Hload. exists ckpt. split; [reflexivity |].
  unfold bind, cached in *. cbn [fst snd] in *.
  destruct (_CACHE s !! ckpt) as [hit |] eqn:Hhit.
  - unfold ret in Hload. injection Hload as <- <-. rewrite Hhit. now repeat split.
  - unfold on_outside, store, ret in Hload.
    destruct (tokenizer_from_pretrained hf _ (outside s)) as [[x | tok] e1];
      [discriminate |]. cbn [outside _CACHE] in Hload.
    destruct (model_from_pretrained hf _ e1) as [[x | mdl] e2]; [discriminate |].
    cbn [outside _CACHE] in Hload. injection Hload as <- <-. cbn [_CACHE].
    rewrite lookup_insert_eq. repeat split.
    intros other Hother. now rewrite lookup_insert_ne.
Qed.


End Cache.

Lemma load_fills_the_cache_witness :
  _load Stubs.marian "de" Stubs.warm_cache
  = (inr ("Helsinki-NLP/opus-mt-de-en", "Helsinki-NLP/opus-mt-de-en"), Stubs.warm_cache).
Proof.
  destruct (load_fills_the_cache Stubs.marian "de" Stubs.cold_cache Stubs.warm_cache
              ("Helsinki-NLP/opus-mt-de-en", "Helsinki-NLP/opus-mt-de-en")
              ltac:(vm_compute; reflexivity))
    as (ckpt & _ & _ & _ & Hagain).
  exact Hagain.
Defined.


(** [test_translate_calls_tokenizer_and_model]: with the German model
    loaded, a German text comes back as the model decodes it. *)
Example translate_scenario :
  fst (translate Stubs.marian "Hola" "de" Stubs.warm_cache) = inr "decoded_text".
Proof. vm_compute. reflexivity. Qed.

End TranslatorFacts.

(** ** The csv reader on the writer's output *)

Module CsvFacts.

Import PyStr Csv Spec StrFacts TextFacts.

Lemma feed_chars_app (a b : string) (r : Reader) :
  feed_chars (a +:+ b) r = rbind (feed_chars a r) (feed_chars b).
Proof.
  revert r. induction a as [| c a IH]; intros r; [reflexivity |].
  rewrite append_cons. cbn [feed_chars].
  destruct (parse_process_char r (Some c)) as [x | r1]; [reflexivity |].
  cbn [rbind]. apply IH.
Qed.

Lemma feed_line_chars (line : string) (r : Reader) :
  feed_line line r = rbind (feed_chars line r) (fun r' => parse_process_char r' None).
Proof.
  revert r. induction line as [| c line IH]; intros r; [reflexivity |].
  cbn [feed_line feed_chars].
  destruct (parse_process_char r (Some c)) as [x | r1]; [reflexivity |].
  cbn [rbind]. apply IH.
Qed.

Lemma at_state_start (r : Reader) : at_state EmptyString r r.
Proof. reflexivity. Qed.

Lemma at_state_snoc (cur : string) (r0 r r' : Reader) (c : ascii) :
  at_state cur r0 r -> parse_process_char r (Some c) = inr r' ->
  at_state (String c cur) r0 r'.
Proof.
  unfold at_state. intros Hat Hstep.
  rewrite rev_cons, feed_chars_app, Hat. cbn [rbind feed_chars]. now rewrite Hstep.
Qed.

Lemma advances_refl (r : Reader) : advances r EmptyString r.
Proof. intros s cur r0 Hat. exists cur, r0. now split. Qed.

Lemma advances_trans (r1 r2 r3 : Reader) (t1 t2 : string) :
  advances r1 t1 r2 -> advances r2 t2 r3 -> advances r1 (t1 +:+ t2) r3.
Proof.
  intros H12 H23 s cur r0 Hat.
  destruct (H12 (t2 +:+ s) cur r0 Hat) as (cur1 & r01 & Hat1 & Heq1).
  destruct (H23 s cur1 r01 Hat1) as (cur2 & r02 & Hat2 & Heq2).
  exists cur2, r02. split; [exact Hat2 |].
  intros acc. now rewrite append_assoc, Heq1, Heq2.
Qed.

(** A character that ends no line. *)
Lemma advances_plain (r r' : Reader) (c : ascii) :
  is_nl c = false -> parse_process_char r (Some c) = inr r' ->
  advances r (String c EmptyString) r'.
Proof.
  intros Hnl Hstep s cur r0 Hat. exists (String c cur), r0.
  split; [now apply (at_state_snoc cur r0 r) |].
  intros acc. change (String c EmptyString +:+ s) with (String c s).
  unfold is_nl in Hnl. apply orb_false_elim in Hnl as [H10 H13].
  cbn [filelines_go]. now rewrite H10, H13.
Qed.

Lemma line_read (cur : string) (r0 r r' : Reader) (tail : string)
    (rest : list string) (acc : list (list string)) :
  at_state cur r0 r ->
  rbind (feed_chars tail r) (fun r1 => parse_process_char r1 None) = inr r' ->
  read_rows ((rev cur +:+ tail) :: rest) r0 acc
  = match state r' with
    | START_RECORD => read_rows rest parse_reset (List.rev (fields r') :: acc)
    | _ => read_rows rest r' acc
    end.
Proof.
  unfold at_state. intros Hat Hfeed. cbn [read_rows].
  rewrite feed_line_chars, feed_chars_app, Hat. cbn [rbind].
  destruct (feed_chars tail r) as [x | r1]; [discriminate |]. cbn [rbind] in *.
  now rewrite Hfeed.
Qed.

Lemma length_append (a b : string) :
  String.length (a +:+ b) = (String.length a + String.length b)%nat.
Proof.
  induction a as [| c a IH]; [reflexivity |]. rewrite append_cons. cbn [String.length].
  now rewrite IH.
Qed.

Lemma set_state_reading (st st' : State) (g : string) (done : list string) :
  set_state st' (reading st g done) = reading st' g done.
Proof. reflexivity. Qed.

Lemma save_reading (st : State) (g : string) (done : list string) :
  parse_save_field (reading st g done) = reading st EmptyString (done ++ [g]).
Proof.
  unfold parse_save_field, reading. cbn [state field fields String.length].
  now rewrite rev_rev, List.rev_app_distr.
Qed.

Lemma add_reading (st : State) (g : string) (done : list string) (c : ascii) :
  Z.of_nat (String.length g) < field_limit ->
  parse_add_char (reading st g done) c
  = inr (reading st (g +:+ String c EmptyString) done).
Proof.
  intros Hroom. unfold parse_add_char, reading. cbn [state field field_len fields].
  rewrite (proj2 (Z.leb_gt _ _) Hroom). f_equal. f_equal.
  - now rewrite rev_snoc.
  - rewrite length_append. cbn [String.length]. lia.
Qed.

(** Inside a quoted field a line break is one more character. *)
Lemma advances_newline_quoted (g : string) (done : list string) (c : ascii) :
  is_nl c = true -> Z.of_nat (String.length g) < field_limit ->
  advances (reading IN_QUOTED_FIELD g done) (String c EmptyString)
    (reading IN_QUOTED_FIELD (g +:+ String c EmptyString) done).
Proof.
  intros Hnl Hroom s cur r0 Hat.
  set (r := reading IN_QUOTED_FIELD g done) in *.
  set (r' := reading IN_QUOTED_FIELD (g +:+ String c EmptyString) done).
  assert (Hstep : parse_process_char r (Some c) = inr r').
  { unfold parse_process_char. cbn [state r reading].
    replace (code c =? dquote) with false; [now apply add_reading |].
    unfold is_nl in Hnl. unfold dquote.
    destruct (code c =? 10) eqn:H10; [apply Z.eqb_eq in H10; now rewrite H10 |].
    destruct (code c =? 13) eqn:H13; [apply Z.eqb_eq in H13; now rewrite H13 |].
    discriminate. }
  assert (Hend : parse_process_char r' None = inr r') by reflexivity.
  change (String c EmptyString +:+ s) with (String c s).
  unfold is_nl in Hnl.
  destruct (code c =? 10) eqn:H10.
  - (* LF: the line ends after it *)
    exists EmptyString, r'. split; [apply at_state_start |]. intros acc.
    cbn [filelines_go]. rewrite H10. rewrite rev_cons.
    rewrite (line_read cur r0 r r' (String c EmptyString)); [reflexivity | exact Hat |].
    cbn [feed_chars]. rewrite Hstep. cbn [rbind]. exact Hend.
  - cbn [orb] in Hnl.
    destruct s as [| b s'].
    + exists EmptyString, r'. split; [apply at_state_start |]. intros acc.
      cbn [filelines_go]. rewrite H10, Hnl. rewrite rev_cons.
      rewrite (line_read cur r0 r r' (String c EmptyString)); [reflexivity | exact Hat |].
      cbn [feed_chars]. rewrite Hstep. cbn [rbind]. exact Hend.
    + destruct (code b =? 10) eqn:Hb.
      * (* CR LF: the line ends after the LF *)
        exists (String c cur), r0. split; [now apply (at_state_snoc cur r0 r) |].
        intros acc. cbn [filelines_go]. now rewrite H10, Hnl, Hb.
      * exists EmptyString, r'. split; [apply at_state_start |]. intros acc.
        cbn [filelines_go]. rewrite H10, Hnl, Hb. rewrite rev_cons.
        rewrite (line_read cur r0 r r' (String c EmptyString)); [reflexivity | exact Hat |].
        cbn [feed_chars]. rewrite Hstep. cbn [rbind]. exact Hend.
Qed.

(** A comma ends the field. *)
Lemma advances_comma (st : State) (g : string) (done : list string) :
  st = IN_FIELD \/ st = QUOTE_IN_QUOTED_FIELD \/ st = START_FIELD \/ st = START_RECORD ->
  advances (reading st g done) "," (reading START_FIELD EmptyString (done ++ [g])).
Proof.
  intros Hst. apply advances_plain; [reflexivity |].
  rewrite <- (set_state_reading st START_FIELD), <- save_reading.
  destruct Hst as [-> | [-> | [-> | ->]]]; reflexivity.
Qed.

(** The line terminator ends the record. *)
Lemma row_end (st : State) (g : string) (done : list string)
    (s cur : string) (r0 : Reader) (acc : list (list string)) :
  st = IN_FIELD \/ st = QUOTE_IN_QUOTED_FIELD \/ st = START_FIELD ->
  at_state cur r0 (reading st g done) ->
  read_rows (filelines_go (lineterminator +:+ s) cur) r0 acc
  = read_rows (filelines_go s EmptyString) parse_reset ((done ++ [g]) :: acc).
Proof.
  intros Hst Hat.
  change (lineterminator +:+ s) with (String (chr 13) (String (chr 10) s)).
  cbn [filelines_go]. change (code (chr 13) =? 10) with false.
  change (code (chr 13) =? 13) with true. change (code (chr 10) =? 10) with true.
  cbv iota. rewrite rev_cons, rev_cons, append_assoc.
  rewrite (line_read cur r0 _ (reading START_RECORD EmptyString (done ++ [g])) _ _ _ Hat).
  - cbn [state reading fields]. now rewrite List.rev_involutive.
  - rewrite <- (set_state_reading st START_RECORD), <- save_reading.
    destruct Hst as [-> | [-> | ->]]; reflexivity.
Qed.

Lemma needs_quotes_cons (c : ascii) (f : string) :
  needs_quotes (String c f) = false ->
  (code c =? comma) = false /\ (code c =? dquote) = false /\ is_nl c = false
  /\ needs_quotes f = false.
Proof.
  cbn [needs_quotes]. intros H.
  apply orb_false_elim in H as [H Hf]. apply orb_false_elim in H as [H Hnl].
  apply orb_false_elim in H as [Hc Hq]. now repeat split.
Qed.

Lemma dquote_not_nl (c : ascii) : (code c =? dquote) = true -> is_nl c = false.
Proof. intros H. apply Z.eqb_eq in H. unfold is_nl. now rewrite H. Qed.

(** The rest of an unquoted field. *)
Lemma advances_unquoted_tail (f g : string) (done : list string) :
  needs_quotes f = false ->
  Z.of_nat (String.length g + String.length f) <= field_limit ->
  advances (reading IN_FIELD g done) f (reading IN_FIELD (g +:+ f) done).
Proof.
  revert g. induction f as [| c f IH]; intros g Hplain Hlen.
  - rewrite append_nil_r. apply advances_refl.
  - apply needs_quotes_cons in Hplain as (Hc & Hq & Hnl & Hf).
    cbn [String.length] in Hlen.
    replace (g +:+ String c f) with ((g +:+ String c EmptyString) +:+ f)
      by now rewrite append_assoc.
    apply (advances_trans _ (reading IN_FIELD (g +:+ String c EmptyString) done) _
             (String c EmptyString) f).
    + apply advances_plain; [exact Hnl |].
      unfold parse_process_char. cbn [state reading ends_line]. rewrite Hnl, Hc.
      apply add_reading. lia.
    + apply IH; [exact Hf |]. rewrite length_append. cbn [String.length]. lia.
Qed.

(** The body of a quoted field. *)
Lemma advances_quoted_body (f g : string) (done : list string) :
  Z.of_nat (String.length g + String.length f) <= field_limit ->
  advances (reading IN_QUOTED_FIELD g done) (double_quotes f)
    (reading IN_QUOTED_FIELD (g +:+ f) done).
Proof.
  revert g. induction f as [| c f IH]; intros g Hlen.
  - rewrite append_nil_r. apply advances_refl.
  - cbn [String.length] in Hlen.
    assert (Hnext : advances (reading IN_QUOTED_FIELD (g +:+ String c EmptyString) done)
                      (double_quotes f)
                      (reading IN_QUOTED_FIELD (g +:+ String c f) done)).
    { replace (g +:+ String c f) with ((g +:+ String c EmptyString) +:+ f)
        by now rewrite append_assoc.
      apply IH. rewrite length_append. cbn [String.length]. lia. }
    cbn [double_quotes]. destruct (code c =? dquote) eqn:Hq.
    + apply (advances_trans _ (reading QUOTE_IN_QUOTED_FIELD g done) _
               (String c EmptyString) (String c (double_quotes f))).
      * apply advances_plain; [now apply dquote_not_nl |].
        unfold parse_process_char. cbn [state reading]. now rewrite Hq.
      * apply (advances_trans _ (reading IN_QUOTED_FIELD (g +:+ String c EmptyString) done)
                 _ (String c EmptyString) (double_quotes f)); [| exact Hnext].
        apply advances_plain; [now apply dquote_not_nl |].
        unfold parse_process_char. cbn [state reading]. rewrite Hq.
        rewrite add_reading by lia. reflexivity.
    + apply (advances_trans _ (reading IN_QUOTED_FIELD (g +:+ String c EmptyString) done)
               _ (String c EmptyString) (double_quotes f)); [| exact Hnext].
      destruct (is_nl c) eqn:Hnl.
      * apply advances_newline_quoted; [exact Hnl | lia].
      * apply advances_plain; [exact Hnl |].
        unfold parse_process_char. cbn [state reading]. rewrite Hq.
        apply add_reading. lia.
Qed.

(** A rendered field, from the start of a field. *)
Lemma advances_field (st : State) (f : string) (done : list string) :
  st = START_RECORD \/ st = START_FIELD ->
  short f ->
  exists st',
    advances (reading st EmptyString done) (render_field f) (reading st' f done)
    /\ (st' = IN_FIELD \/ st' = QUOTE_IN_QUOTED_FIELD
        \/ (st' = st /\ f = EmptyString)).
Proof.
  intros Hst Hshort. unfold short in Hshort. unfold render_field.
  destruct (needs_quotes f) eqn:Hq.
  - exists QUOTE_IN_QUOTED_FIELD. split; [| tauto]. unfold quoted.
    change (String (chr dquote) (double_quotes f +:+ String (chr dquote) EmptyString))
      with (String (chr dquote) EmptyString
              +:+ (double_quotes f +:+ String (chr dquote) EmptyString)).
    apply (advances_trans _ (reading IN_QUOTED_FIELD EmptyString done)).
    + apply advances_plain; [reflexivity |].
      destruct Hst as [-> | ->]; reflexivity.
    + apply (advances_trans _ (reading IN_QUOTED_FIELD f done)).
      * apply (advances_quoted_body f EmptyString done). cbn [String.length]. lia.
      * apply advances_plain; [reflexivity |]. reflexivity.
  - destruct f as [| c f].
    + exists st. split; [apply advances_refl | tauto].
    + exists IN_FIELD. split; [| tauto].
      apply needs_quotes_cons in Hq as (Hc & Hdq & Hnl & Hf).
      cbn [String.length] in Hshort.
      apply (advances_trans _ (reading IN_FIELD (String c EmptyString) done) _
               (String c EmptyString) f).
      * apply advances_plain; [exact Hnl |].
        unfold parse_process_char.
        destruct Hst as [-> | ->]; cbn [state reading]; rewrite Hnl, Hdq, Hc;
          rewrite (add_reading _ EmptyString done c) by (cbn; unfold field_limit; lia);
          reflexivity.
      * apply (advances_unquoted_tail f (String c EmptyString) done Hf).
        cbn [String.length]. lia.
Qed.

Lemma join_cons (sep x y : string) (rest : list string) :
  join sep (x :: y :: rest) = x +:+ sep +:+ join sep (y :: rest).
Proof. reflexivity. Qed.

(** The fields of a record, from the start of a field to the end of the
    line. *)
Lemma fields_read (rest : list string) (f : string) (done : list string) (st : State)
    (s cur : string) (r0 : Reader) (acc : list (list string)) :
  st = START_RECORD \/ st = START_FIELD ->
  Forall short (f :: rest) ->
  f <> EmptyString \/ rest <> [] \/ st = START_FIELD ->
  at_state cur r0 (reading st EmptyString done) ->
  read_rows (filelines_go ((join "," (map render_field (f :: rest)) +:+ lineterminator)
                           +:+ s) cur) r0 acc
  = read_rows (filelines_go s EmptyString) parse_reset ((done ++ f :: rest) :: acc).
Proof.
  revert f done st cur r0.
  induction rest as [| g rest IH]; intros f done st cur r0 Hst Hshort Hproper Hat.
  - apply Forall_inv in Hshort.
    destruct (advances_field st f done Hst Hshort) as (st' & Hadv & Hst').
    cbn [map join]. rewrite append_assoc.
    destruct (Hadv (lineterminator +:+ s) cur r0 Hat) as (cur' & r0' & Hat' & ->).
    apply (row_end st' f done s cur' r0' acc); [| exact Hat'].
    destruct Hst' as [-> | [-> | [-> ->]]]; [tauto | tauto |].
    destruct Hproper as [Hf | [Hrest | ->]]; [now destruct Hf | now destruct Hrest | tauto].
  - pose proof (Forall_inv Hshort) as Hf. apply Forall_inv_tail in Hshort.
    destruct (advances_field st f done Hst Hf) as (st' & Hadv & Hst').
    cbn [map]. rewrite join_cons, !append_assoc.
    destruct (Hadv ("," +:+ join "," (render_field g :: map render_field rest)
                      +:+ lineterminator +:+ s) cur r0 Hat) as (cur1 & r1 & Hat1 & ->).
    assert (Hcomma : advances (reading st' f done) ","
                       (reading START_FIELD EmptyString (done ++ [f]))).
    { apply advances_comma. destruct Hst' as [-> | [-> | [-> _]]]; tauto. }
    destruct (Hcomma (join "," (render_field g :: map render_field rest)
                        +:+ lineterminator +:+ s) cur1 r1 Hat1) as (cur2 & r2 & Hat2 & ->).
    assert (Hrec := IH g (done ++ [f]) START_FIELD cur2 r2
                      (or_intror eq_refl) Hshort (or_intror (or_intror eq_refl)) Hat2).
    cbn [map] in Hrec. rewrite append_assoc in Hrec. rewrite Hrec.
    now rewrite <- app_assoc.
Qed.

(** One record written, one record read. *)
Lemma row_read (row : list string) (s : string) (acc : list (list string)) :
  row <> [] -> Forall short row ->
  read_rows (filelines_go (writerow row +:+ s) EmptyString) parse_reset acc
  = read_rows (filelines_go s EmptyString) parse_reset (row :: acc).
Proof.
  intros Hne Hshort.
  assert (Hstart : at_state EmptyString parse_reset (reading START_RECORD EmptyString []))
    by reflexivity.
  destruct row as [| f rest]; [contradiction |].
  assert (Hgeneral : f <> EmptyString \/ rest <> [] ->
            read_rows (filelines_go
                         ((join "," (map render_field (f :: rest)) +:+ lineterminator)
                          +:+ s) EmptyString) parse_reset acc
            = read_rows (filelines_go s EmptyString) parse_reset ((f :: rest) :: acc)).
  { intros Hproper.
    apply (fields_read rest f [] START_RECORD s EmptyString parse_reset acc);
      [tauto | exact Hshort | tauto | exact Hstart]. }
  destruct f as [| c f].
  - destruct rest as [| g rest].
    + (* the row of one empty field is written quoted *)
      cbn [writerow]. rewrite append_assoc.
      assert (Hadv : advances (reading START_RECORD EmptyString []) (quoted EmptyString)
                       (reading QUOTE_IN_QUOTED_FIELD EmptyString [])).
      { change (quoted EmptyString)
          with (String (chr dquote) EmptyString +:+ String (chr dquote) EmptyString).
        apply (advances_trans _ (reading IN_QUOTED_FIELD EmptyString []));
          apply advances_plain; reflexivity. }
      destruct (Hadv (lineterminator +:+ s) EmptyString parse_reset Hstart)
        as (cur' & r0' & Hat' & ->).
      apply (row_end QUOTE_IN_QUOTED_FIELD EmptyString [] s cur' r0' acc); [tauto | exact Hat'].
    + apply Hgeneral. right. discriminate.
  - apply Hgeneral. left. discriminate.
Qed.

(** Every record written, read back in order. *)
Lemma rows_read (rows : list (list string)) (acc : list (list string)) :
  Forall (fun row => row <> [] /\ Forall short row) rows ->
  read_rows (filelines_go (rows_bytes rows) EmptyString) parse_reset acc
  = inr (List.rev acc ++ rows).
Proof.
  revert acc. induction rows as [| row rows IH]; intros acc Hrows.
  - cbn. now rewrite app_nil_r.
  - pose proof (Forall_inv Hrows) as [Hne Hshort]. apply Forall_inv_tail in Hrows.
    cbn [rows_bytes fold_right]. fold (rows_bytes rows).
    rewrite (row_read row (rows_bytes rows) acc Hne Hshort), (IH _ Hrows).
    cbn [List.rev]. now rewrite <- app_assoc.
Qed.

(** The round trip: [csv.reader] on the lines that [csv.writer] wrote for
    [rows] gives [rows], when no row is empty and no field is longer than
    the reader's limit. *)
Lemma reader_writerow (rows : list (list string)) :
  Forall (fun row => row <> [] /\ Forall short row) rows ->
  reader (rows_bytes rows) = inr rows.
Proof. intros Hrows. unfold reader, filelines. now rewrite (rows_read rows [] Hrows). Qed.

End CsvFacts.

(** ** Files: what a request writes, and reading it back *)

Module FileFacts.

Import PyStr Pipeline Spec StrFacts TextFacts.

Section Files.

Context {E : Type} (deps : Deps E).

#[local] Instance same_files_refl : Reflexive (@same_files E).
Proof. now intros w. Qed.

#[local] Instance same_files_trans : Transitive (@same_files E).
Proof. intros w1 w2 w3 [H1 H2] [H3 H4]. split; congruence. Qed.

#[local] Instance same_files_but_refl (paths : list string) :
  Reflexive (@same_files_but E paths).
Proof. now intros w. Qed.

#[local] Instance same_files_but_trans (paths : list string) :
  Transitive (@same_files_but E paths).
Proof.
  intros w1 w2 w3 [H1 H2] [H3 H4]. split; [congruence |].
  intros p Hp. now rewrite H4, H2.
Qed.

Lemma same_files_weaken (paths : list string) (w w' : World E) :
  same_files w w' -> same_files_but paths w w'.
Proof. intros [Hfs Henv]. split; [exact Henv |]. intros p _. now rewrite Hfs. Qed.

Section Steps.

Context (R : World E -> World E -> Prop) `{!Reflexive R} `{!Transitive R}.

Lemma within_ret {A} (a : A) : within R (ret a).
Proof. intros w. reflexivity. Qed.

Lemma within_raise {A} (x : Exn) : within R (@raise _ A x).
Proof. intros w. reflexivity. Qed.

Lemma within_lift_res {A} (r : Exn + A) : within R (lift_res r).
Proof. intros w. reflexivity. Qed.

Lemma within_bind {A B} (c : M (World E) A) (k : A -> M (World E) B) :
  within R c -> (forall a, within R (k a)) -> within R (bind c k).
Proof.
  intros Hc Hk w. unfold bind. specialize (Hc w).
  destruct (c w) as [[x | a] w1]; cbn [snd] in *; [exact Hc |].
  etransitivity; [exact Hc | apply Hk].
Qed.

Lemma within_try_except {A} (c : M (World E) A) (h : Exn -> M (World E) A) :
  within R c -> (forall x, within R (h x)) -> within R (try_except c h).
Proof.
  intros Hc Hh w. unfold try_except. specialize (Hc w).
  destruct (c w) as [[x | a] w1]; cbn [snd] in *; [| exact Hc].
  etransitivity; [exact Hc | apply Hh].
Qed.

End Steps.

Lemma files_on_ext {A} (c : M E A) : within same_files (on_ext c).
Proof. intros w. unfold on_ext. now destruct (c (ext w)). Qed.

Lemma files_log_record (msg : string) : within same_files (log_record (E:=E) msg).
Proof. now intros w. Qed.

Lemma files_getenv (key dflt : string) : within same_files (getenv (E:=E) key dflt).
Proof. now intros w. Qed.

Lemma files_read_file (path : string) : within same_files (read_file (E:=E) path).
Proof. intros w. unfold read_file. now destruct (fs w !! path). Qed.

Lemma within_weaken {A} (paths : list string) (c : M (World E) A) :
  within same_files c -> within (same_files_but paths) c.
Proof. intros Hc w. apply same_files_weaken, Hc. Qed.

Lemma but_open_w (paths : list string) (path : string) :
  In path paths -> within (same_files_but paths) (open_w (E:=E) path).
Proof.
  intros Hin w. split; [reflexivity |]. intros p Hp. cbn [snd open_w fs].
  apply lookup_insert_ne. now intros ->.
Qed.

Lemma but_write_file (paths : list string) (path data : string) :
  In path paths -> within (same_files_but paths) (write_file (E:=E) path data).
Proof.
  intros Hin w. split; [reflexivity |]. intros p Hp. cbn [snd write_file fs].
  apply lookup_insert_ne. now intros ->.
Qed.

Lemma files_now_stamp : within same_files (now_stamp deps).
Proof.
  unfold now_stamp. apply within_bind; try typeclasses eauto.
  - apply files_on_ext.
  - intros iso. apply within_ret. typeclasses eauto.
Qed.

Lemma files_classify_segment (translation : string) (c x i use_bert : bool) :
  within same_files (classify_segment deps translation c x i use_bert).
Proof.
  unfold classify_segment.
  assert (Hcall : forall (f : string -> bool -> bool -> M E (string * option Q)) (b : bool),
             within same_files
               (bind (on_ext (f translation x i)) (fun r => ret (r, b)))).
  { intros f b. apply within_bind; try typeclasses eauto.
    - apply files_on_ext.
    - intros r. apply within_ret. typeclasses eauto. }
  destruct c; [| apply within_ret; typeclasses eauto].
  destruct (negb x && negb i); [apply Hcall |].
  destruct (negb use_bert); [| apply Hcall].
  apply within_try_except; try typeclasses eauto; [apply Hcall |].
  intros _. apply within_bind; try typeclasses eauto; [apply files_log_record |].
  intros _. apply Hcall.
Qed.

Ltac files_step :=
  first [ apply files_on_ext | apply files_log_record | apply files_getenv
        | apply files_read_file | apply files_now_stamp | apply files_classify_segment
        | apply within_ret; typeclasses eauto | apply within_raise; typeclasses eauto
        | apply within_lift_res; typeclasses eauto ].

Lemma files_segments_of_text_file (inp : string) :
  within same_files (segments_of_text_file deps inp).
Proof.
  unfold segments_of_text_file.
  apply within_bind; try typeclasses eauto; [files_step | intros content].
  apply within_bind; try typeclasses eauto; [files_step | intros lang].
  apply within_bind; try typeclasses eauto; [| intros sentences; files_step].
  destruct (String.eqb _ _); [files_step |].
  apply within_bind; try typeclasses eauto; [files_step | intros again].
  apply within_bind; try typeclasses eauto; [files_step | intros rows; files_step].
Qed.

Lemma files_segments_of_audio (inp : string) (st et : option string) :
  within same_files (segments_of_audio deps inp st et).
Proof.
  unfold segments_of_audio.
  apply within_bind; try typeclasses eauto; [files_step | intros src_file].
  apply within_bind; try typeclasses eauto.
  - destruct (nonempty st), (nonempty et); try files_step;
      (apply within_bind; try typeclasses eauto; [files_step | intros from]);
      (apply within_bind; try typeclasses eauto; [files_step | intros upto]);
      (apply within_bind; try typeclasses eauto; [files_step | intros trimmed; files_step]).
  - intros [file offset].
    apply within_bind; try typeclasses eauto; [files_step | intros [lang segs]; files_step].
Qed.

Lemma files_segments_of_plain_text (inp : string) (do_translate : bool) :
  within same_files (segments_of_plain_text deps inp do_translate).
Proof.
  unfold segments_of_plain_text.
  apply within_bind; try typeclasses eauto; [files_step | intros lang].
  apply within_bind; try typeclasses eauto; [| intros text; files_step].
  destruct (do_translate && _); files_step.
Qed.

Lemma but_classify_loop (paths : list string) (csv_path lang : string) (t c x i : bool)
    (segments : list Segment) (use_bert : bool) :
  In csv_path paths ->
  within (same_files_but paths) (classify_loop deps csv_path lang t c x i segments use_bert).
Proof.
  intros Hin. revert use_bert.
  induction segments as [| seg segments IH]; intros use_bert; cbn [classify_loop].
  - apply within_ret. typeclasses eauto.
  - apply within_bind; try typeclasses eauto.
    + apply within_weaken. destruct (t && _); files_step.
    + intros translation. apply within_bind; try typeclasses eauto.
      * apply within_weaken. files_step.
      * intros [[emo score] ub]. apply within_bind; try typeclasses eauto.
        -- now apply but_write_file.
        -- intros _. apply IH.
Qed.

Lemma but_write_artifact (paths : list string) (csv_path lang : string) (t c x i : bool)
    (segments : list Segment) :
  In csv_path paths ->
  within (same_files_but paths) (write_artifact deps csv_path lang t c x i segments).
Proof.
  intros Hin. unfold write_artifact.
  apply within_bind; try typeclasses eauto; [now apply but_open_w | intros _].
  apply within_bind; try typeclasses eauto; [now apply but_write_file | intros _].
  now apply but_classify_loop.
Qed.

Lemma but_log_inference (paths : list string) (user_input : string) (summary : Summary) :
  In (HISTORY_FILE deps) paths ->
  within (same_files_but paths) (log_inference deps user_input summary).
Proof.
  intros Hin w. unfold log_inference.
  set (first := match fs w !! HISTORY_FILE deps with
                | Some content => is_empty content
                | None => true
                end).
  revert w first. 
  assert (Hbody : forall first : bool,
             within (same_files_but paths)
               (bind (if first then write_file (HISTORY_FILE deps) (Csv.writerow _HEADERS)
                      else ret tt)
                  (fun _ => bind (now_stamp deps)
                     (fun _ => write_file (HISTORY_FILE deps)
                                 (Csv.writerow [timestamp summary; user_input;
                                                language summary; EmptyString; EmptyString;
                                                csv summary]))))).
  { intros first. apply within_bind; try typeclasses eauto.
    - destruct first; [now apply but_write_file | apply within_ret; typeclasses eauto].
    - intros _. apply within_bind; try typeclasses eauto.
      + apply within_weaken. files_step.
      + intros _. now apply but_write_file. }
  intros w first. apply Hbody.
Qed.


Lemma classify_loop_rows (csv_path lang : string) (t c x i : bool)
    (segments : list Segment) (use_bert : bool) (w w' : World E) (old : string) :
  classify_loop deps csv_path lang t c x i segments use_bert w = (inr tt, w') ->
  fs w !! csv_path = Some old ->
  exists rows,
    Forall2 (written_for i) segments rows
    /\ fs w' !! csv_path = Some (old +:+ rows_bytes rows).
Proof.
  revert use_bert w old.
  induction segments as [| seg segments IH]; intros use_bert w old; cbn [classify_loop].
  - intros [= <-] Hold. exists []. split; [constructor |].
    cbn. now rewrite append_nil_r.
  - intros Hrun Hold. unfold bind at 1 in Hrun.
    set (step1 := if t && negb (String.eqb lang "en")
                  then on_ext (translate deps (seg_text seg) lang)
                  else ret (seg_text seg)) in Hrun.
    assert (H1 : within same_files step1)
      by (subst step1; destruct (t && _); [apply files_on_ext | now intros w0]).
    specialize (H1 w).
    destruct (step1 w) as [[ex | translation] w1]; [discriminate |].
    cbn [snd] in H1. destruct H1 as [Hfs1 _].
    unfold bind at 1 in Hrun.
    pose proof (files_classify_segment translation c x i use_bert w1) as H2.
    destruct (classify_segment deps translation c x i use_bert w1)
      as [[ex | [[emo score] ub]] w2]; [discriminate |].
    cbn [snd] in H2. destruct H2 as [Hfs2 _].
    unfold bind at 1 in Hrun. unfold write_file at 1 in Hrun.
    match type of Hrun with classify_loop _ _ _ _ _ _ _ _ _ ?w3 = _ =>
      destruct (IH ub w3 (old +:+ Csv.writerow (make_row seg translation emo score i)) Hrun)
        as (rows & Hrows & Hfile)
    end.
    { cbn [fs]. rewrite lookup_insert_eq, Hfs2, Hfs1, Hold. reflexivity. }
    exists (make_row seg translation emo score i :: rows). split.
    + constructor; [| exact Hrows]. now exists translation, emo, score.
    + rewrite Hfile. cbn [rows_bytes fold_right]. now rewrite append_assoc.
Qed.

Lemma headers_proper (i : bool) : headers i <> [] /\ Forall short (headers i).
Proof.
  split; [now destruct i |].
  destruct i; repeat constructor; unfold short; cbn; unfold Csv.field_limit; lia.
Qed.

Lemma make_row_nonempty (seg : Segment) (translation emo : string) (score : option Q)
    (i : bool) :
  make_row seg translation emo score i <> [].
Proof. discriminate. Qed.


Lemma log_inference_appends (user_input : string) (summary : Summary) (w : World E) :
  let old := default EmptyString (fs w !! HISTORY_FILE deps) in
  exists w',
    log_inference deps user_input summary w = (inr tt, w')
    /\ fs w' !! HISTORY_FILE deps
       = Some ((old +:+ (if is_empty old then Csv.writerow _HEADERS else EmptyString))
               +:+ Csv.writerow (record_row (user_input, summary))).
Proof.
  intros old. subst old. unfold log_inference.
  assert (Hnever : forall w0, exists stamp w1,
             now_stamp deps w0 = (inr stamp, w1) /\ fs w1 = fs w0).
  { intros w0. unfold now_stamp, bind, on_ext, lift_total, ret.
    destruct (now_isoformat deps (ext w0)) as [iso e1]. cbn [fs]. eauto. }
  assert (Hfirst : match fs w !! HISTORY_FILE deps with
                   | Some content => is_empty content
                   | None => true
                   end = is_empty (default EmptyString (fs w !! HISTORY_FILE deps)))
    by now destruct (fs w !! HISTORY_FILE deps).
  rewrite Hfirst. set (old := default EmptyString (fs w !! HISTORY_FILE deps)).
  destruct (is_empty old) eqn:Hempty.
  - unfold bind at 1. unfold write_file at 1. unfold bind at 1.
    match goal with |- context [now_stamp deps ?w0] =>
      destruct (Hnever w0) as (stamp & w1 & -> & Hfs1) end.
    eexists. split; [reflexivity |]. cbn [write_file snd fs] in *.
    rewrite Hfs1, !lookup_insert_eq. cbn [default from_option]. cbv [id].
    now fold old.
  - unfold bind at 1. unfold ret at 1. unfold bind at 1.
    destruct (Hnever w) as (stamp & w1 & -> & Hfs1).
    eexists. split; [reflexivity |]. cbn [write_file snd fs].
    rewrite Hfs1, lookup_insert_eq. fold old. now rewrite append_nil_r.
Qed.

Lemma history_text_not_empty (rows : list (list string)) :
  is_empty (history_text rows) = false.
Proof. reflexivity. Qed.

Lemma history_text_snoc (rows : list (list string)) (row : list string) :
  history_text rows +:+ Csv.writerow row = history_text (rows ++ [row]).
Proof.
  unfold history_text. cbn [rows_bytes fold_right]. rewrite append_assoc. f_equal.
  induction rows as [| r rows IH]; cbn [fold_right app].
  - now rewrite append_nil_r.
  - now rewrite append_assoc, IH.
Qed.

Lemma log_all_appends (entries : list (string * Summary)) (old_rows : list (list string))
    (w : World E) :
  fs w !! HISTORY_FILE deps = Some (history_text old_rows) ->
  fst (log_all deps entries w) = inr tt
  /\ fs (snd (log_all deps entries w)) !! HISTORY_FILE deps
     = Some (history_text (old_rows ++ map record_row entries)).
Proof.
  revert old_rows w. induction entries as [| entry entries IH]; intros old_rows w Hfile.
  - cbn. now rewrite app_nil_r.
  - cbn [log_all map]. unfold bind.
    destruct (log_inference_appends (fst entry) (snd entry) w) as (w1 & -> & Hnew).
    cbn [fst snd] in *.
    rewrite Hfile in Hnew. cbn [default from_option] in Hnew. cbv [id] in Hnew.
    rewrite history_text_not_empty, append_nil_r in Hnew.
    replace (record_row (fst entry, snd entry)) with (record_row entry) in Hnew
      by now destruct entry.
    rewrite history_text_snoc in Hnew.
    destruct (IH (old_rows ++ [record_row entry]) w1 Hnew) as [Hok' Hfile'].
    split; [exact Hok' |]. now rewrite Hfile', <- app_assoc.
Qed.


End Files.



End FileFacts.

(** ** The summary of a request *)

Module SummaryFacts.

Import PyStr Pipeline Spec StrFacts TextFacts.

Section Returns.

Context {E : Type} (deps : Deps E).

(** What a request that returns has done: the stem was made, the artifact
    was written, and the history record, when persisted, was appended. *)
Lemma predict_any_returns (inp model : string)
    (do_translate do_classify do_classify_ext do_intensity : bool)
    (classifier_model start_time end_time : option string) (persist : bool)
    (w w' : World E) (result : Summary) :
  predict_any deps inp model do_translate do_classify do_classify_ext do_intensity
    classifier_model start_time end_time persist w = (inr result, w') ->
  exists stem segments w2 w3 w4,
    _make_safe_stem (pylib deps) inp = inr stem
    /\ input result = inp
    /\ csv result
       = Paths.joinpath (default "data/transcripts" (environ w !! "TRANSCRIPT_DIR"))
           (stem +:+ "_emotion.csv")
    /\ write_artifact deps (csv result) (language result) do_translate do_classify
         do_classify_ext do_intensity segments w2 = (inr tt, w3)
    /\ fs w4 = fs w3
    /\ (if persist then log_inference deps inp result w4 = (inr tt, w') else w' = w4).
Proof.
  unfold predict_any.
  unfold bind at 1. unfold log_record at 1. unfold bind at 1. unfold setenv at 1.
  cbn [fs environ logs ext].
  set (w1 := {| fs := fs w; environ := <["WHISPER_MODEL" := model]> (environ w);
                logs := logs w ++ [start_message inp model classifier_model];
                ext := ext w |}).
  set (segs := if _is_text inp then segments_of_text_file deps inp
               else if _is_audio inp then segments_of_audio deps inp start_time end_time
               else segments_of_plain_text deps inp do_translate).
  assert (Hsegs : within same_files segs).
  { subst segs. destruct (_is_text inp); [apply FileFacts.files_segments_of_text_file |].
    destruct (_is_audio inp);
      [apply FileFacts.files_segments_of_audio | apply FileFacts.files_segments_of_plain_text]. }
  specialize (Hsegs w1). unfold bind at 1.
  destruct (segs w1) as [[x | [lang segments]] w2]; [discriminate |].
  cbn [snd] in Hsegs. destruct Hsegs as [_ Henv].
  unfold bind at 1. unfold lift_res at 1.
  destruct (_make_safe_stem (pylib deps) inp) as [x | stem] eqn:Hstem; [discriminate |].
  unfold bind at 1. unfold getenv at 1. rewrite Henv. cbn [environ w1].
  rewrite lookup_insert_ne by discriminate.
  set (csv_path := Paths.joinpath _ _).
  unfold bind at 1.
  destruct (write_artifact deps csv_path lang do_translate do_classify do_classify_ext
              do_intensity segments w2) as [[x | []] w3] eqn:Hwrite; [discriminate |].
  unfold bind at 1.
  pose proof (FileFacts.files_now_stamp deps w3) as Hstamp.
  destruct (now_stamp deps w3) as [[x | stamp] w4]; [discriminate |].
  cbn [snd] in Hstamp. destruct Hstamp as [Hfs4 _].
  unfold bind at 1. intros Hrest.
  exists stem, segments, w2, w3, w4.
  destruct persist.
  - destruct (log_inference deps inp _ w4) as [[x | []] w5] eqn:Hlog; [discriminate |].
    unfold ret in Hrest. injection Hrest as <- <-. cbn [input csv language].
    repeat split; try reflexivity; assumption.
  - unfold ret in Hrest. injection Hrest as <- <-. cbn [input csv language].
    repeat split; try reflexivity; assumption.
Qed.

Lemma log_inference_appends_at (user_input : string) (summary : Summary) (w : World E) :
  exists w',
    log_inference deps user_input summary w = (inr tt, w')
    /\ fs w' !! HISTORY_FILE deps
       = Some ((default EmptyString (fs w !! HISTORY_FILE deps)
                +:+ (if is_empty (default EmptyString (fs w !! HISTORY_FILE deps))
                     then Csv.writerow _HEADERS else EmptyString))
               +:+ Csv.writerow (record_row (user_input, summary))).
Proof. exact (FileFacts.log_inference_appends deps user_input summary w). Qed.

Lemma write_artifact_file (csv_path lang : string) (t c x i : bool)
    (segments : list Segment) (w w' : World E) :
  write_artifact deps csv_path lang t c x i segments w = (inr tt, w') ->
  exists rows,
    Forall2 (written_for i) segments rows
    /\ fs w' !! csv_path = Some (artifact_text i rows).
Proof.
  unfold write_artifact. unfold bind at 1. unfold open_w at 1.
  unfold bind at 1. unfold write_file at 1. cbn [fs environ logs ext].
  intros Hloop.
  apply (FileFacts.classify_loop_rows _ _ _ _ _ _ _ _ _ _ _ (Csv.writerow (headers i)))
    in Hloop as (rows & Hrows & Hfile).
  - now exists rows.
  - cbn [fs]. rewrite lookup_insert_eq, lookup_insert_eq. reflexivity.
Qed.

(** The file that the summary names exists when the request returns. *)
Lemma artifact_exists (inp model : string)
    (do_translate do_classify do_classify_ext do_intensity : bool)
    (classifier_model start_time end_time : option string) (persist : bool)
    (w w' : World E) (result : Summary) :
  predict_any deps inp model do_translate do_classify do_classify_ext do_intensity
    classifier_model start_time end_time persist w = (inr result, w') ->
  is_Some (fs w' !! csv result).
Proof.
  intros Hrun.
  destruct (predict_any_returns _ _ _ _ _ _ _ _ _ _ _ _ _ Hrun)
    as (stem & segments & w2 & w3 & w4 & _ & _ & _ & Hwrite & Hfs4 & Hlast).
  destruct (write_artifact_file _ _ _ _ _ _ _ _ _ Hwrite) as (rows & _ & Hfile).
  rewrite <- Hfs4 in Hfile.
  destruct persist; [| subst w'; rewrite Hfile; eauto].
  destruct (log_inference_appends_at inp result w4) as (w5 & Hlog & Hhist).
  rewrite Hlog in Hlast. injection Hlast as <-.
  pose proof (FileFacts.but_log_inference deps [HISTORY_FILE deps] inp result
                (or_introl eq_refl) w4) as [_ Hother].
  rewrite Hlog in Hother. cbn [snd] in Hother.
  destruct (String.eqb_spec (csv result) (HISTORY_FILE deps)) as [-> | Hne].
  - rewrite Hhist. eauto.
  - rewrite Hother; [rewrite Hfile; eauto |]. cbn [In]. intros [Heq | []]. now apply Hne.
Qed.


End Returns.


End SummaryFacts.

(** ** The command line and the service *)

Module EntryFacts.

Import PyStr PlanGate Pipeline Spec StrFacts TextFacts.

(** A trim bound as a payload holds it. *)
Lemma bound_arg (v : option value) (t : option string) :
  v = option_map VStr t \/ (t = None /\ v = Some VNone) ->
  Kwargs.opt_str_arg v = Some t.
Proof. intros [-> | [-> ->]]; [now destruct t | reflexivity]. Qed.

(** The keyword arguments that [predict_any] is called with, for a payload
    that names its source and, at most, the two trim bounds. *)
Lemma enforced_call (payload : gmap string value) (plan : Plan) (source : string)
    (st et : option string) :
  payload !! "src" = Some (VStr source) ->
  payload !! "classifier" = None ->
  payload !! "duration_sec" = None ->
  payload !! "persist" = None ->
  payload !! "start_time" = option_map VStr st
  \/ (st = None /\ payload !! "start_time" = Some VNone) ->
  payload !! "end_time" = option_map VStr et
  \/ (et = None /\ payload !! "end_time" = Some VNone) ->
  exists out,
    enforce payload plan = inr out
    /\ Kwargs.bind_args out
       = Some {| Kwargs.inp := source; Kwargs.model := model (RULES plan);
                 Kwargs.do_translate := true; Kwargs.do_classify := true;
                 Kwargs.do_classify_ext := classify_ext (RULES plan);
                 Kwargs.do_intensity := intensity (RULES plan);
                 Kwargs.classifier_model := Some "llama";
                 Kwargs.start_time := st; Kwargs.end_time := et;
                 Kwargs.persist := true |}.
Proof.
  intros Hsrc Hcls Hdur Hper Hst Het.
  unfold enforce.
  rewrite (PlanGateFacts.popped_lookup payload "duration_sec") by now left.
  rewrite (PlanGateFacts.popped_lookup payload "src") by now right.
  assert (Hc : pop_keys ["translate"; "classify"; "classify_ext"; "intensity"] payload
               !! "classifier" = payload !! "classifier").
  { unfold pop_keys. cbn [fold_left]. now rewrite !lookup_delete_ne by discriminate. }
  rewrite Hc, Hcls, Hdur, Hsrc. cbn [default from_option over_limit rbind value_lower].
  cbv [id]. cbn [rbind].
  eexists. split; [reflexivity |].
  assert (Hrest : forall k,
             ~ In k ["translate"; "classify"; "classify_ext"; "intensity"; "classifier";
                     "src"] ->
             delete "src" (delete "classifier"
               (pop_keys ["translate"; "classify"; "classify_ext"; "intensity"] payload)) !! k
             = payload !! k).
  { intros k Hk. unfold pop_keys. cbn [fold_left]. rewrite !lookup_delete.
    repeat case_decide; try reflexivity; exfalso; apply Hk; cbn [In]; intuition congruence. }
  unfold Kwargs.bind_args.
  repeat first [ rewrite lookup_insert_eq | rewrite lookup_insert_ne by discriminate ].
  rewrite !Hrest by (cbn [In]; intuition discriminate).
  rewrite Hper, (bound_arg _ st Hst), (bound_arg _ et Het).
  assert (Hl : lower "llama" = "llama") by reflexivity. rewrite Hl.
  assert (Ht : PlanGate.translate (RULES plan) = true) by now destruct plan.
  assert (Hk : PlanGate.classify (RULES plan) = true) by now destruct plan.
  rewrite Ht, Hk. reflexivity.
Qed.

Lemma bound_trimmed (t : option string) :
  Api.trimmed t = match bound t with Some s => VStr s | None => VNone end.
Proof. unfold Api.trimmed, bound. now destruct (is_empty _). Qed.

Section CommandLine.

Context {E : Type} (deps : Deps E).

(** X21. The command [predict-any SRC --plan PLAN] runs [predict_any] on
    [SRC] with the model and the switches of the plan's rule, whatever
    else is the case: translation and classification on, extended labels
    from plus upwards, intensity for pro only, the classifier preference
    [llama], no trim bounds, and the history record persisted.  It never
    stops at the quota, since it passes no duration.  It echoes the
    summary as indented JSON, and an exception of the pipeline comes out
    as it is. *)
Theorem cli_runs_the_plan (src : string) (plan : Plan) :
  Cli._predict_any deps src plan
  = Some (bind (predict_any deps src (model (RULES plan)) true true
                  (classify_ext (RULES plan)) (intensity (RULES plan))
                  (Some "llama") None None true)
            (fun result => ret (Cli.dumps result +:+ String (chr 10) EmptyString))).
Proof.
  unfold Cli._predict_any.
  destruct (enforced_call {[ "src" := VStr src ]} plan src None None) as (out & -> & ->);
    try (apply lookup_singleton_ne; discriminate);
    try (left; apply lookup_singleton_ne; discriminate).
  - apply lookup_singleton_eq.
  - reflexivity.
Qed.

End CommandLine.

Section Endpoints.

Context {E : Type} (deps : Deps E).
Context (client : option (string -> string -> option string -> M E unit)).
Context (describe : Exn -> string).
Context (time_time : E -> Z * E).
Context (model_dump_json : Api.FeedbackPayload -> string).

(** An upload never raises and touches nothing but the outside world. *)
Lemma upload_blob_safe_returns (name data : string) (content_type : option string)
    (w : World E) :
  Api.upload_blob_safe client name data content_type w
  = (inr tt, {| fs := fs w; environ := environ w; logs := logs w;
                ext := sent client name data content_type (ext w) |}).
Proof.
  unfold Api.upload_blob_safe, sent. destruct w as [f v l e]. cbn [fs environ logs ext].
  destruct client as [upload_blob |]; [| reflexivity].
  unfold try_except, on_ext, ret. cbn [fs environ logs ext].
  now destruct (upload_blob name data content_type e) as [[x | []] e'].
Qed.

Lemma receive_returns (file : option Api.Upload) (w : World E) :
  Api.receive client file w
  = (inr tt,
     match file with
     | Some f =>
         {| fs := <[Paths.joinpath Api.LOCAL_DIR (Api.filename f) := Api.content f]> (fs w);
            environ := environ w; logs := logs w;
            ext := sent client (Api.RAW_PREFIX +:+ "/" +:+ Api.filename f)
                     (Api.content f) None (ext w) |}
     | None => w
     end).
Proof.
  destruct file as [f |]; [| reflexivity]. unfold Api.receive.
  unfold bind at 1. unfold Api.write_bytes at 1. unfold bind at 1. unfold read_file at 1.
  cbn [fs]. rewrite lookup_insert_eq. now rewrite upload_blob_safe_returns.
Qed.


(** A name without a slash, other than the empty name and the dot, is
    stored as a child of the upload directory. *)
Lemma child_of_local_dir (name : string) :
  forallb_chars (fun a => negb (Ascii.eqb a "/")) name = true ->
  is_empty name = false ->
  String.eqb name "." = false ->
  Paths.joinpath Api.LOCAL_DIR name = "data/transcripts/" +:+ name.
Proof.
  intros Hslash Hne Hdot. unfold Paths.joinpath.
  rewrite (NamingFacts.no_slash_root name Hslash). cbn [is_empty].
  unfold Paths.parts at 2. rewrite (split_one _ _ Hslash), filter_bool_cons.
  rewrite Hne, Hdot. reflexivity.
Qed.


(** X24. The [x-plan] header names the plan by its value, in lower case:
    [basic], [plus] and [pro] give their plan, a request without the
    header gets [basic], and every other value, [Pro] among them, raises
    [ValueError]. *)
Theorem plan_header_names_the_plan (x_plan : option string) :
  (forall plan, Api.plan_dependency (Some (plan_value plan)) = inr plan)
  /\ Api.plan_dependency None = inr basic
  /\ Api.plan_dependency (Some "Pro") = inl ValueError
  /\ match Api.plan_dependency x_plan with
     | inr plan => default "basic" x_plan = plan_value plan
     | inl x => x = ValueError /\ forall plan, default "basic" x_plan <> plan_value plan
     end.
Proof.
  split; [now intros [] |]. split; [reflexivity |]. split; [reflexivity |].
  unfold Api.plan_dependency, Api.Plan_of.
  destruct (String.eqb_spec (default "basic" x_plan) "basic") as [-> | Hb]; [reflexivity |].
  destruct (String.eqb_spec (default "basic" x_plan) "plus") as [-> | Hp]; [reflexivity |].
  destruct (String.eqb_spec (default "basic" x_plan) "pro") as [-> | Hr]; [reflexivity |].
  split; [reflexivity |]. now intros [].
Qed.


End Endpoints.

(** X26. The corrections csv reads back.  The text that [receive_feedback]
    sends for a list of corrected segments is a header line with the six
    field names followed by one line per segment, and [csv.reader] gives
    the names and each segment's cells back, whenever no cell is longer
    than the reader's limit. *)
Theorem corrections_csv_reads_back (segs : list Api.TranscriptSegment) :
  Forall (fun seg => Forall short (Api.row_of seg)) segs ->
  Csv.reader (Csv.writerow Api.fieldnames +:+ Api.writerows (map Api.row_of segs))
  = inr (Api.fieldnames :: map Api.row_of segs).
Proof.
  intros Hshort.
  change (Csv.writerow Api.fieldnames +:+ Api.writerows (map Api.row_of segs))
    with (rows_bytes (Api.fieldnames :: map Api.row_of segs)).
  apply CsvFacts.reader_writerow. constructor.
  - split; [discriminate |].
    repeat constructor; unfold short; cbn; unfold Csv.field_limit; lia.
  - induction Hshort as [| seg segs Hseg _ IH]; cbn [map]; constructor; [| exact IH].
    split; [discriminate | exact Hseg].
Qed.


Lemma corrections_csv_witness :
  let seg := {| Api.id := 1; Api.start := "00:00:00,000"; Api.end_ := "00:00:02,500";
                Api.sentence := "Ik ben blij, echt."; Api.translation := "I am happy, really.";
                Api.emotion := "joy" |} in
  Csv.reader (Csv.writerow Api.fieldnames +:+ Api.writerows (map Api.row_of [seg]))
  = inr (Api.fieldnames :: map Api.row_of [seg]).
Proof.
  intros seg. apply (corrections_csv_reads_back [seg]).
  repeat constructor; unfold short; cbn; unfold Csv.field_limit; lia.
Defined.

End EntryFacts.

(** ** Replies in the requested format *)

Module ReplyFacts.

Import PyStr Classifier Spec StrFacts TextFacts.

Lemma search_skip (kw : string) (c : ascii) (s : string) :
  match_label_at kw (String c s) = None ->
  search_label kw (String c s) = search_label kw s.
Proof. intros H. cbn [search_label]. now rewrite H. Qed.

Lemma search_here (kw s w : string) :
  match_label_at kw s = Some w -> search_label kw s = Some w.
Proof. intros H. destruct s; cbn [search_label]; now rewrite H. Qed.

Lemma lower_char_colon (c : ascii) :
  Ascii.eqb (lower_char ":") (lower_char c) = Ascii.eqb ":" c.
Proof. destruct c as [[] [] [] [] [] [] [] []]; reflexivity. Qed.

Lemma lower_char_alpha (c : ascii) : isalpha c = true -> isalpha (lower_char c) = true.
Proof. destruct c as [[] [] [] [] [] [] [] []]; cbv; congruence. Qed.

Lemma lower_char_other (c : ascii) : isalpha c = false -> lower_char c = c.
Proof. destruct c as [[] [] [] [] [] [] [] []]; cbv; congruence. Qed.

Lemma alpha_not_space (c : ascii) : isalpha c = true -> isspace c = false.
Proof. destruct c as [[] [] [] [] [] [] [] []]; cbv; congruence. Qed.

Lemma alpha_not_colon (c : ascii) : isalpha c = true -> negb (Ascii.eqb c ":") = true.
Proof. destruct c as [[] [] [] [] [] [] [] []]; cbv; congruence. Qed.

Lemma space_not_colon (c : ascii) : isspace c = true -> negb (Ascii.eqb c ":") = true.
Proof. destruct c as [[] [] [] [] [] [] [] []]; cbv; congruence. Qed.

Lemma alpha_differs (a d : ascii) :
  isalpha a = true -> isalpha d = false -> Ascii.eqb (lower_char a) (lower_char d) = false.
Proof.
  intros Ha Hd. rewrite (lower_char_other d Hd).
  destruct (Ascii.eqb_spec (lower_char a) d) as [<- | Hne]; [| reflexivity].
  rewrite (lower_char_alpha a Ha) in Hd. discriminate.
Qed.

Lemma forallb_chars_weaken (f g : ascii -> bool) (s : string) :
  (forall c, f c = true -> g c = true) ->
  forallb_chars f s = true -> forallb_chars g s = true.
Proof.
  intros Hfg. induction s as [| c s IH]; [reflexivity |]. cbn [forallb_chars].
  intros [Hc Hs]%andb_prop. now rewrite (Hfg c Hc), IH.
Qed.

(** A keyword of letters that ends in a colon does not start inside a
    text without colon that a line break follows. *)
Lemma ci_prefix_stops (q t rest : string) (d : ascii) :
  forallb_chars isalpha q = true ->
  forallb_chars (fun a => negb (Ascii.eqb a ":")) t = true ->
  isalpha d = false -> Ascii.eqb ":" d = false ->
  ci_prefix (q +:+ ":") (t +:+ String d rest) = None.
Proof.
  intros Hq Ht Hd Hcolon. revert t Ht.
  induction q as [| a q IH]; intros t Ht.
  - destruct t as [| c t].
    + change (ci_prefix ":" (String d rest) = None). cbn [ci_prefix].
      now rewrite lower_char_colon, Hcolon.
    + change (ci_prefix ":" (String c (t +:+ String d rest)) = None). cbn [ci_prefix].
      cbn [forallb_chars] in Ht. apply andb_prop in Ht as [Hc _].
      apply negb_true_iff in Hc. rewrite Ascii.eqb_sym in Hc.
      now rewrite lower_char_colon, Hc.
  - cbn [forallb_chars] in Hq. apply andb_prop in Hq as [Ha Hq].
    destruct t as [| c t].
    + change (ci_prefix (String a (q +:+ ":")) (String d rest) = None). cbn [ci_prefix].
      now rewrite (alpha_differs a d Ha Hd).
    + change (ci_prefix (String a (q +:+ ":")) (String c (t +:+ String d rest)) = None).
      cbn [ci_prefix]. cbn [forallb_chars] in Ht. apply andb_prop in Ht as [_ Ht].
      destruct (Ascii.eqb (lower_char a) (lower_char c)); [now apply IH | reflexivity].
Qed.

(** The search passes over such a text. *)
Lemma search_passes (q t rest : string) (d : ascii) :
  forallb_chars isalpha q = true ->
  forallb_chars (fun a => negb (Ascii.eqb a ":")) t = true ->
  isalpha d = false -> Ascii.eqb ":" d = false ->
  search_label (q +:+ ":") (t +:+ String d rest)
  = search_label (q +:+ ":") (String d rest).
Proof.
  intros Hq Ht Hd Hcolon. induction t as [| c t IH]; [reflexivity |].
  rewrite append_cons, search_skip.
  - apply IH. cbn [forallb_chars] in Ht. now apply andb_prop in Ht as [_ Ht].
  - unfold match_label_at. rewrite <- append_cons.
    now rewrite (ci_prefix_stops q (String c t) rest d Hq Ht Hd Hcolon).
Qed.

Lemma take_while_word (word rest : string) :
  forallb_chars isalpha word = true ->
  match rest with String c _ => isalpha c = false | EmptyString => True end ->
  take_while isalpha (word +:+ rest) = word.
Proof.
  intros Hword Hrest. induction word as [| c word IH].
  - destruct rest as [| c rest]; [reflexivity |].
    change (take_while isalpha (String c rest) = EmptyString). cbn [take_while].
    now rewrite Hrest.
  - rewrite append_cons. cbn [take_while forallb_chars] in *.
    apply andb_prop in Hword as [Hc Hword]. now rewrite Hc, IH.
Qed.

Lemma lstrip_gap (gap word rest : string) :
  forallb_chars isspace gap = true ->
  is_empty word = false -> forallb_chars isalpha word = true ->
  lstrip (gap +:+ word +:+ rest) = word +:+ rest.
Proof.
  intros Hgap Hne Hword. induction gap as [| c gap IH].
  - destruct word as [| c word]; [discriminate |].
    change (lstrip (String c (word +:+ rest)) = String c (word +:+ rest)).
    cbn [lstrip forallb_chars] in *. apply andb_prop in Hword as [Hc _].
    now rewrite (alpha_not_space c Hc).
  - rewrite append_cons. cbn [lstrip forallb_chars] in *.
    apply andb_prop in Hgap as [Hc Hgap]. now rewrite Hc, IH.
Qed.

(** The word after the keyword, the gap and the word being as the pattern
    wants them. *)
Lemma match_word (kw gap word rest : string) :
  (forall s, ci_prefix kw (kw +:+ s) = Some s) ->
  forallb_chars isspace gap = true ->
  is_empty word = false -> forallb_chars isalpha word = true ->
  match rest with String c _ => isalpha c = false | EmptyString => True end ->
  match_label_at kw (kw +:+ gap +:+ word +:+ rest) = Some word.
Proof.
  intros Hkw Hgap Hne Hword Hrest. unfold match_label_at.
  rewrite Hkw, (lstrip_gap gap word rest Hgap Hne Hword),
    (take_while_word word rest Hword Hrest), Hne. reflexivity.
Qed.

Lemma clear_start_stops (rest : string) :
  clear_start rest = true ->
  match rest with String c _ => isalpha c = false | EmptyString => True end.
Proof.
  destruct rest as [| c rest]; [trivial |]. cbn [clear_start].
  intros [Hc _]%andb_prop. now apply negb_true_iff in Hc.
Qed.

Lemma answer_is_found (reasoning gap emotion rest : string) :
  forallb_chars (fun a => negb (Ascii.eqb a ":")) reasoning = true ->
  forallb_chars isspace gap = true ->
  is_empty emotion = false -> forallb_chars isalpha emotion = true ->
  match rest with String c _ => isalpha c = false | EmptyString => True end ->
  search_label "Answer:" (formatted_reply reasoning gap emotion rest) = Some emotion.
Proof.
  intros Hr Hgap Hne Hword Hrest. unfold formatted_reply.
  transitivity (search_label "Answer:"
                  (reasoning +:+ String (chr 10) ("Answer:" +:+ gap +:+ emotion +:+ rest)));
    [reflexivity |].
  rewrite (search_passes "Answer" reasoning _ (chr 10)) by (assumption || reflexivity).
  rewrite search_skip by reflexivity.
  apply search_here, match_word; try assumption. reflexivity.
Qed.

Lemma intensity_is_found (reasoning gap emotion gap2 word rest : string) :
  forallb_chars (fun a => negb (Ascii.eqb a ":")) reasoning = true ->
  forallb_chars isspace gap = true ->
  forallb_chars isalpha emotion = true ->
  forallb_chars isspace gap2 = true ->
  is_empty word = false -> forallb_chars isalpha word = true ->
  match rest with String c _ => isalpha c = false | EmptyString => True end ->
  search_label "Intensity:"
    (formatted_reply reasoning gap emotion (intensity_line gap2 word rest))
  = Some word.
Proof.
  intros Hr Hgap Hemo Hgap2 Hne Hword Hrest. unfold formatted_reply, intensity_line.
  transitivity (search_label "Intensity:"
                  (reasoning +:+ String (chr 10)
                     ("Answer:" +:+ gap +:+ emotion
                        +:+ String (chr 10) ("Intensity:" +:+ gap2 +:+ word +:+ rest))));
    [reflexivity |].
  rewrite (search_passes "Intensity" reasoning _ (chr 10)) by (assumption || reflexivity).
  transitivity (search_label "Intensity:"
                  ((gap +:+ emotion)
                     +:+ String (chr 10) ("Intensity:" +:+ gap2 +:+ word +:+ rest))).
  { rewrite append_assoc. reflexivity. }
  rewrite (search_passes "Intensity" (gap +:+ emotion) _ (chr 10)); try reflexivity.
  - rewrite search_skip by reflexivity.
    apply search_here, match_word; try assumption. reflexivity.
  - rewrite forallb_chars_append.
    rewrite (forallb_chars_weaken _ _ gap space_not_colon Hgap).
    now rewrite (forallb_chars_weaken _ _ emotion alpha_not_colon Hemo).
Qed.

(** X27. A reply in the format that the prompts ask for is read as it is
    meant.  For [Reasoning: <text>], a line break, [Answer: <word>] with a
    reasoning that holds no colon, [_extract_emotion] gives the word in
    lower case, whatever follows the word: nothing, a full stop, a line
    break, or the intensity line.  With the intensity line
    [Intensity: <word>] after it, the score is the value of that word in
    the table, 0.0 for a word the table does not hold. *)
Theorem formatted_reply_is_read (reasoning gap emotion gap2 word rest : string) :
  forallb_chars (fun a => negb (Ascii.eqb a ":")) reasoning = true ->
  forallb_chars isspace gap = true ->
  is_empty emotion = false -> forallb_chars isalpha emotion = true ->
  forallb_chars isspace gap2 = true ->
  is_empty word = false -> forallb_chars isalpha word = true ->
  clear_start rest = true ->
  let plain := formatted_reply reasoning gap emotion rest in
  let full := formatted_reply reasoning gap emotion (intensity_line gap2 word rest) in
  _extract_emotion plain = lower emotion
  /\ _extract_emotion full = lower emotion
  /\ parse_intensity true full = Some (default (0 # 1) (intensity_mapping !! lower word)).
Proof.
  intros Hr Hgap Hne Hemo Hgap2 Hne2 Hword Hrest plain full. subst plain full.
  apply clear_start_stops in Hrest.
  unfold _extract_emotion, parse_intensity.
  rewrite (answer_is_found reasoning gap emotion rest) by assumption.
  rewrite (answer_is_found reasoning gap emotion (intensity_line gap2 word rest))
    by (assumption || reflexivity).
  now rewrite (intensity_is_found reasoning gap emotion gap2 word rest).
Qed.

Lemma formatted_reply_witness :
  _extract_emotion
    (formatted_reply "The speaker sounds glad." " " "Joy"
       (intensity_line " " "strong" EmptyString))
  = "joy"
  /\ parse_intensity true
       (formatted_reply "The speaker sounds glad." " " "Joy"
          (intensity_line " " "strong" EmptyString))
     = Some (3 # 4).
Proof.
  destruct (formatted_reply_is_read "The speaker sounds glad." " " "Joy" " " "strong"
              EmptyString) as (_ & Hemo & Hscore); try reflexivity.
  split; [exact Hemo | exact Hscore].
Defined.

End ReplyFacts.
